(** * High-level emulation of the GBA BIOS software interrupts (gba-bios.c)

    A shallow embedding of [src/gba/gba-bios.c]: the SWI dispatcher
    [GBASwi16], the division helper [_Div], the BIOS checksum, the affine
    solvers and the four decoders [_unLz77], [_unHuffman], [_unRl] and
    [_unFilter], followed by the properties the specification states about
    them.

    Conventions of the embedding.
    - A C integer is a [Z]; every conversion to a C type is written out
      ([to_u32], [to_s32], [to_u16], ...).  Signed arithmetic wraps modulo
      2^32, as on the two's-complement targets the emulator is built for.
      Operations that have no result at all in C (integer division by zero,
      a quotient that does not fit) end the run with [Undefined].
    - Every access to guest memory goes through the bus of the CPU
      ([cpu->memory.load8], ..., [cpu->memory.store32]); the bus is a
      parameter of the development ([MemoryBus]).  Each access, and each
      call to an external routine ([GBALog], [ARMRaiseSWI], [GBAHalt]), is
      recorded in the event list of the machine, most recent first.
    - Loops whose trip count depends on guest data take fuel; a run that
      uses up its fuel is [OutOfFuel]. *)

From Stdlib Require Import ZArith Lia List String Bool.
From Stdlib Require Reals.
From stdpp Require Import base list vector.
Import ListNotations.

Local Open Scope Z_scope.

(** ** C integer types *)

Definition to_u8 (z : Z) : Z := z mod 2 ^ 8.
Definition to_u16 (z : Z) : Z := z mod 2 ^ 16.
Definition to_u32 (z : Z) : Z := z mod 2 ^ 32.
Definition to_s8 (z : Z) : Z := (z + 2 ^ 7) mod 2 ^ 8 - 2 ^ 7.
Definition to_s16 (z : Z) : Z := (z + 2 ^ 15) mod 2 ^ 16 - 2 ^ 15.
Definition to_s32 (z : Z) : Z := (z + 2 ^ 31) mod 2 ^ 32 - 2 ^ 31.

Definition INT_MIN : Z := - 2 ^ 31.
Definition INT_MAX : Z := 2 ^ 31 - 1.

(** The result of running a piece of the emulator. *)
Inductive outcome (A : Type) : Type :=
| Returns (a : A)
| Undefined
| OutOfFuel.
Arguments Returns {A} a.
Arguments Undefined {A}.
Arguments OutOfFuel {A}.

(** What a run that returned leaves in some part [f] of its result. *)
Definition on_return {A B : Type} (f : A -> B) (o : outcome A) : option B :=
  match o with
  | Returns a => Some (f a)
  | _ => None
  end.

(** [div] and [abs] of the C library, on [int]: the quotient truncates
    towards zero and the remainder has the sign of the numerator; there is
    no result when the denominator is zero or the quotient is not an
    [int].  [abs] negates a negative argument, in two's complement. *)
Definition c_div (num denom : Z) : option (Z * Z) :=
  if denom =? 0 then None
  else
    let quot := Z.quot num denom in
    if (INT_MIN <=? quot) && (quot <=? INT_MAX)
    then Some (quot, Z.rem num denom)
    else None.

Definition c_abs (j : Z) : Z := to_s32 (Z.abs j).

(** ** Machine state *)

(** Which pointer variable of the handler supplied the address of a load:
    the compressed stream ([source]), the LZ77 back-reference cursor
    ([disp]), the Huffman tree ([nPointer], [next]), or an argument block
    of one of the arithmetic handlers. *)
Inductive cursor : Type := Stream | Window | Tree | Block.

Inductive log_level : Type := GBA_LOG_STUB | GBA_LOG_GAME_ERROR | GBA_LOG_SWI.

Inductive event : Type :=
| EvLoad (width : Z) (via : cursor) (address : Z)
| EvStore (width : Z) (address value : Z)
| EvLog (level : log_level) (message : string)
| EvRaiseSWI
| EvHalt.

(** The memory bus of the CPU: the typed accessors behind
    [cpu->memory.load32] and its siblings, over some representation [M] of
    guest memory.  Results and stored values are converted to the C types
    of the accessors by the wrappers below. *)
Class MemoryBus (M : Type) : Type := {
  bus_load32 : M -> Z -> Z;
  bus_load16 : M -> Z -> Z;
  bus_loadU16 : M -> Z -> Z;
  bus_load8 : M -> Z -> Z;
  bus_loadU8 : M -> Z -> Z;
  bus_store32 : M -> Z -> Z -> M;
  bus_store16 : M -> Z -> Z -> M;
  bus_store8 : M -> Z -> Z -> M
}.

(** [struct GBA] with its CPU: the sixteen general-purpose registers
    ([int32_t gprs[16]]), guest memory behind the bus, the BIOS image and
    the full-BIOS flag of [gba->memory], and the events so far. *)
Record GBA (M : Type) : Type := mkGBA {
  gprs : vec Z 16;
  memory : M;
  fullBios : bool;
  bios : list Z;
  events : list event
}.
Arguments mkGBA {M}.
Arguments gprs {M}.
Arguments memory {M}.
Arguments fullBios {M}.
Arguments bios {M}.
Arguments events {M}.

Section Machine.
Context {M : Type} {bus : MemoryBus M}.

Definition set_gprs (r : vec Z 16) (gba : GBA M) : GBA M :=
  mkGBA r (memory gba) (fullBios gba) (bios gba) (events gba).

Definition set_memory (m : M) (gba : GBA M) : GBA M :=
  mkGBA (gprs gba) m (fullBios gba) (bios gba) (events gba).

Definition emit (e : event) (gba : GBA M) : GBA M :=
  mkGBA (gprs gba) (memory gba) (fullBios gba) (bios gba) (e :: events gba).

(** [cpu->gprs[i]] read as the [int32_t] it is, and [cpu->gprs[i] = v]
    (the value converted to [int32_t]). *)
Definition gpr (gba : GBA M) (i : fin 16) : Z := to_s32 (gprs gba !!! i).

Definition set_gpr (i : fin 16) (v : Z) (gba : GBA M) : GBA M :=
  set_gprs (vinsert i (to_s32 v) (gprs gba)) gba.

(** Modelled from the spec: [GBALog], [ARMRaiseSWI] and [GBAHalt] are
    defined outside this file, which only calls them ("log",
    "raise_swi()", "halt()").  A call is recorded as an event; the
    registers and the memory of the model are left to the caller. *)
Definition GBALog (gba : GBA M) (level : log_level) (message : string) : GBA M :=
  emit (EvLog level message) gba.

Definition ARMRaiseSWI (gba : GBA M) : GBA M := emit EvRaiseSWI gba.

Definition GBAHalt (gba : GBA M) : GBA M := emit EvHalt gba.

(** Bus accesses.  The address parameter is a [uint32_t]. *)
Definition load32 (via : cursor) (gba : GBA M) (address : Z) : Z * GBA M :=
  (to_s32 (bus_load32 (memory gba) (to_u32 address)),
   emit (EvLoad 4 via (to_u32 address)) gba).

Definition load16 (via : cursor) (gba : GBA M) (address : Z) : Z * GBA M :=
  (to_s16 (bus_load16 (memory gba) (to_u32 address)),
   emit (EvLoad 2 via (to_u32 address)) gba).

Definition loadU16 (via : cursor) (gba : GBA M) (address : Z) : Z * GBA M :=
  (to_u16 (bus_loadU16 (memory gba) (to_u32 address)),
   emit (EvLoad 2 via (to_u32 address)) gba).

Definition load8 (via : cursor) (gba : GBA M) (address : Z) : Z * GBA M :=
  (to_s8 (bus_load8 (memory gba) (to_u32 address)),
   emit (EvLoad 1 via (to_u32 address)) gba).

Definition loadU8 (via : cursor) (gba : GBA M) (address : Z) : Z * GBA M :=
  (to_u8 (bus_loadU8 (memory gba) (to_u32 address)),
   emit (EvLoad 1 via (to_u32 address)) gba).

Definition store32 (gba : GBA M) (address value : Z) : GBA M :=
  emit (EvStore 4 (to_u32 address) (to_s32 value))
    (set_memory (bus_store32 (memory gba) (to_u32 address) (to_s32 value)) gba).

Definition store16 (gba : GBA M) (address value : Z) : GBA M :=
  emit (EvStore 2 (to_u32 address) (to_s16 value))
    (set_memory (bus_store16 (memory gba) (to_u32 address) (to_s16 value)) gba).

Definition store8 (gba : GBA M) (address value : Z) : GBA M :=
  emit (EvStore 1 (to_u32 address) (to_s8 value))
    (set_memory (bus_store8 (memory gba) (to_u32 address) (to_s8 value)) gba).

(** ** Division (SWI 0x06, 0x07) *)

Definition _Div (gba : GBA M) (num denom : Z) : outcome (GBA M) :=
  if negb (denom =? 0) then
    match c_div num denom with
    | Some (quot, rem) =>
        let gba := set_gpr 0%fin quot gba in
        let gba := set_gpr 1%fin rem gba in
        Returns (set_gpr 3%fin (c_abs quot) gba)
    | None => Undefined
    end
  else
    let gba := GBALog gba GBA_LOG_GAME_ERROR "Attempting to divide %i by zero!" in
    let gba := set_gpr 0%fin (if num <? 0 then -1 else 1) gba in
    let gba := set_gpr 1%fin num gba in
    Returns (set_gpr 3%fin 1 gba).

(** ** BIOS checksum *)

(** [GBAChecksum(memory, size)]: the loop visits [i = 0, 4, 8, ...] below
    [size] and adds the [uint32_t] word [memory[i >> 2]]; reading past the
    end of the image has no defined result. *)
Fixpoint GBAChecksum_from (words : nat) (image : list Z) (i sum : Z) : outcome Z :=
  match words with
  | O => Returns sum
  | S words' =>
      match image !! Z.to_nat (Z.shiftr i 2) with
      | Some word => GBAChecksum_from words' image (i + 4) (to_u32 (sum + to_u32 word))
      | None => Undefined
      end
  end.

Definition GBAChecksum (image : list Z) (size : Z) : outcome Z :=
  GBAChecksum_from (Z.to_nat ((size + 3) / 4)) image 0 0.

End Machine.

(** ** Floating-point handlers *)

(** The floating-point unit of the host: the operations the affine solvers
    and the arithmetic SWIs compute with.  They are a parameter; the
    embedding fixes which loads feed them and which stores receive their
    results. *)
Class FPU (F : Type) : Type := {
  f_of_Z : Z -> F;
  f_to_Z : F -> Z;
  f_add : F -> F -> F;
  f_sub : F -> F -> F;
  f_mul : F -> F -> F;
  f_div : F -> F -> F;
  f_neg : F -> F;
  f_cos : F -> F;
  f_sin : F -> F;
  f_sqrt : F -> F;
  f_atan2 : F -> F -> F;
  f_pow : F -> F -> F;
  M_PI : F
}.

Section Arithmetic.
Context {M : Type} {bus : MemoryBus M} {F : Type} {fpu : FPU F}.

Definition _RegisterRamReset (gba : GBA M) : GBA M :=
  GBALog gba GBA_LOG_STUB "RegisterRamReset unimplemented".

(** One pass of the body of [while (i--)] in [_BgAffineSet]. *)
Definition _BgAffineSet_body (gba : GBA M) (offset destination : Z) : GBA M * Z * Z :=
  let '(v, gba) := load32 Block gba offset in
  let ox := f_div (f_of_Z v) (f_of_Z 256) in
  let '(v, gba) := load32 Block gba (offset + 4) in
  let oy := f_div (f_of_Z v) (f_of_Z 256) in
  let '(v, gba) := load16 Block gba (offset + 8) in
  let cx := f_of_Z v in
  let '(v, gba) := load16 Block gba (offset + 10) in
  let cy := f_of_Z v in
  let '(v, gba) := load16 Block gba (offset + 12) in
  let sx := f_div (f_of_Z v) (f_of_Z 256) in
  let '(v, gba) := load16 Block gba (offset + 14) in
  let sy := f_div (f_of_Z v) (f_of_Z 256) in
  let '(v, gba) := loadU16 Block gba (offset + 16) in
  let theta := f_mul (f_div (f_of_Z (Z.shiftr v 8)) (f_of_Z 128)) M_PI in
  let offset := to_s32 (offset + 20) in
  let a := f_mul (f_cos theta) sx in
  let b := f_mul (f_sin theta) (f_neg sx) in
  let c := f_mul (f_sin theta) sy in
  let d := f_mul (f_cos theta) sy in
  let rx := f_sub ox (f_add (f_mul a cx) (f_mul b cy)) in
  let ry := f_sub oy (f_add (f_mul c cx) (f_mul d cy)) in
  let gba := store16 gba destination (f_to_Z (f_mul a (f_of_Z 256))) in
  let gba := store16 gba (destination + 2) (f_to_Z (f_mul b (f_of_Z 256))) in
  let gba := store16 gba (destination + 4) (f_to_Z (f_mul c (f_of_Z 256))) in
  let gba := store16 gba (destination + 6) (f_to_Z (f_mul d (f_of_Z 256))) in
  let gba := store32 gba (destination + 8) (f_to_Z (f_mul rx (f_of_Z 256))) in
  let gba := store32 gba (destination + 12) (f_to_Z (f_mul ry (f_of_Z 256))) in
  (gba, offset, to_s32 (destination + 16)).

Fixpoint _BgAffineSet_loop (i : nat) (gba : GBA M) (offset destination : Z) : GBA M :=
  match i with
  | O => gba
  | S i' =>
      let '(gba, offset, destination) := _BgAffineSet_body gba offset destination in
      _BgAffineSet_loop i' gba offset destination
  end.

(** [while (i--)] with [int i = cpu->gprs[2]] runs until the counter
    reaches zero, a negative count wrapping around first. *)
Definition _BgAffineSet (gba : GBA M) : GBA M :=
  _BgAffineSet_loop (Z.to_nat (to_u32 (gpr gba 2%fin))) gba
    (gpr gba 0%fin) (gpr gba 1%fin).

Definition _ObjAffineSet_body (gba : GBA M) (offset destination diff : Z) : GBA M * Z * Z :=
  let '(v, gba) := load16 Block gba offset in
  let sx := f_div (f_of_Z v) (f_of_Z 256) in
  let '(v, gba) := load16 Block gba (offset + 2) in
  let sy := f_div (f_of_Z v) (f_of_Z 256) in
  let '(v, gba) := loadU16 Block gba (offset + 4) in
  let theta := f_mul (f_div (f_of_Z (Z.shiftr v 8)) (f_of_Z 128)) M_PI in
  let offset := to_s32 (offset + 8) in
  let a := f_mul (f_cos theta) sx in
  let b := f_mul (f_sin theta) (f_neg sx) in
  let c := f_mul (f_sin theta) sy in
  let d := f_mul (f_cos theta) sy in
  let gba := store16 gba destination (f_to_Z (f_mul a (f_of_Z 256))) in
  let gba := store16 gba (destination + diff) (f_to_Z (f_mul b (f_of_Z 256))) in
  let gba := store16 gba (destination + diff * 2) (f_to_Z (f_mul c (f_of_Z 256))) in
  let gba := store16 gba (destination + diff * 3) (f_to_Z (f_mul d (f_of_Z 256))) in
  (gba, offset, to_s32 (destination + diff * 4)).

Fixpoint _ObjAffineSet_loop (i : nat) (gba : GBA M) (offset destination diff : Z) : GBA M :=
  match i with
  | O => gba
  | S i' =>
      let '(gba, offset, destination) := _ObjAffineSet_body gba offset destination diff in
      _ObjAffineSet_loop i' gba offset destination diff
  end.

Definition _ObjAffineSet (gba : GBA M) : GBA M :=
  _ObjAffineSet_loop (Z.to_nat (to_u32 (gpr gba 2%fin))) gba
    (gpr gba 0%fin) (gpr gba 1%fin) (gpr gba 3%fin).

Definition _MidiKey2Freq (gba : GBA M) : GBA M :=
  let '(v, gba) := load32 Block gba (gpr gba 0%fin + 4) in
  let key := to_u32 v in
  let exponent :=
    f_div (f_sub (f_sub (f_of_Z 180) (f_of_Z (gpr gba 1%fin)))
                 (f_div (f_of_Z (gpr gba 2%fin)) (f_of_Z 256)))
          (f_of_Z 12) in
  set_gpr 0%fin (f_to_Z (f_div (f_of_Z key) (f_pow (f_of_Z 2) exponent))) gba.

(** SWI 0x08 and 0x0A, written in the dispatcher itself. *)
Definition swi_Sqrt (gba : GBA M) : GBA M :=
  set_gpr 0%fin (f_to_Z (f_sqrt (f_of_Z (gpr gba 0%fin)))) gba.

Definition swi_ArcTan2 (gba : GBA M) : GBA M :=
  let angle :=
    f_atan2 (f_div (f_of_Z (gpr gba 1%fin)) (f_of_Z 16384))
            (f_div (f_of_Z (gpr gba 0%fin)) (f_of_Z 16384)) in
  set_gpr 0%fin
    (f_to_Z (f_mul (f_div angle (f_mul (f_of_Z 2) M_PI)) (f_of_Z 65536))) gba.

End Arithmetic.

(** ** Decoders *)

(** Modelled from the spec: the accessors that [DECL_BITFIELD],
    [DECL_BITS] and [DECL_BIT] generate for [HuffmanNode] are declared in a
    header that is not part of this file.  The spec gives the layout of
    the node byte: bits 0-5 are the offset, bit 6 says the right child is a
    leaf, bit 7 says the left child is a leaf. *)
Definition HuffmanNodeGetOffset (node : Z) : Z := Z.land node 63.
Definition HuffmanNodeIsRTerm (node : Z) : bool := Z.testbit node 6.
Definition HuffmanNodeIsLTerm (node : Z) : bool := Z.testbit node 7.

Section Decoders.
Context {M : Type} {bus : MemoryBus M}.

(** The output step that [_unLz77] and [_unRl] write out in full at each
    of their four uses: with [width == 2] a byte for an even address is
    kept in [halfword] and a byte for an odd address is merged into its
    high half and committed with one 16-bit store at [dest ^ 1];
    otherwise the byte is stored at once.  Returns the machine and the
    new [halfword]. *)
Definition put_byte (width : Z) (gba : GBA M) (dest halfword byte : Z) : GBA M * Z :=
  if width =? 2 then
    if negb (Z.land dest 1 =? 0) then
      let halfword := to_s32 (Z.lor halfword (Z.shiftl byte 8)) in
      (store16 gba (Z.lxor dest 1) halfword, halfword)
    else (gba, byte)
  else (store8 gba dest byte, halfword).

(** *** LZ77 (SWI 0x11, 0x12) *)

Record lz77_state : Type := mkLz77 {
  lz_gba : GBA M;
  lz_source : Z;
  lz_dest : Z;
  lz_remaining : Z;
  lz_blockheader : Z;
  lz_blocksRemaining : Z;
  lz_halfword : Z
}.

(** [while (bytes-- && remaining)]: the copy of one back-reference. *)
Fixpoint _unLz77_copy (bytes : nat) (width : Z) (gba : GBA M)
    (disp dest remaining halfword : Z) : GBA M * Z * Z * Z :=
  match bytes with
  | O => (gba, dest, remaining, halfword)
  | S bytes' =>
      if remaining =? 0 then (gba, dest, remaining, halfword)
      else
        let remaining := remaining - 1 in
        let '(byte, gba) := loadU8 Window gba disp in
        let disp := to_u32 (disp + 1) in
        let '(gba, halfword) := put_byte width gba dest halfword byte in
        let dest := to_u32 (dest + 1) in
        _unLz77_copy bytes' width gba disp dest remaining halfword
  end.

(** The fields of a back-reference, from the halfword
    [block = b0 | (b1 << 8)] read from the stream. *)
Definition lz77_displacement (block : Z) : Z :=
  Z.lor (Z.shiftl (Z.land block 0x000F) 8) (Z.shiftr (Z.land block 0xFF00) 8).

Definition lz77_bytes (block : Z) : Z :=
  Z.shiftr (Z.land block 0x00F0) 4 + 3.

(** One pass of the body of [while (remaining > 0)] in [_unLz77]. *)
Definition _unLz77_body (width : Z) (s : lz77_state) : lz77_state :=
  if negb (lz_blocksRemaining s =? 0) then
    let s :=
      if negb (Z.land (lz_blockheader s) 0x80 =? 0) then
        (* Compressed *)
        let '(b0, gba) := loadU8 Stream (lz_gba s) (lz_source s) in
        let '(b1, gba) := loadU8 Stream gba (lz_source s + 1) in
        let block := Z.lor b0 (Z.shiftl b1 8) in
        let source := to_u32 (lz_source s + 2) in
        let disp := to_u32 (lz_dest s - lz77_displacement block - 1) in
        let bytes := lz77_bytes block in
        let '(gba, dest, remaining, halfword) :=
          _unLz77_copy (Z.to_nat bytes) width gba disp (lz_dest s)
            (lz_remaining s) (lz_halfword s) in
        mkLz77 gba source dest remaining (lz_blockheader s)
          (lz_blocksRemaining s) halfword
      else
        (* Uncompressed *)
        let '(byte, gba) := loadU8 Stream (lz_gba s) (lz_source s) in
        let source := to_u32 (lz_source s + 1) in
        let '(gba, halfword) :=
          put_byte width gba (lz_dest s) (lz_halfword s) byte in
        mkLz77 gba source (to_u32 (lz_dest s + 1)) (lz_remaining s - 1)
          (lz_blockheader s) (lz_blocksRemaining s) halfword
    in
    mkLz77 (lz_gba s) (lz_source s) (lz_dest s) (lz_remaining s)
      (to_s32 (Z.shiftl (lz_blockheader s) 1)) (lz_blocksRemaining s - 1)
      (lz_halfword s)
  else
    let '(blockheader, gba) := loadU8 Stream (lz_gba s) (lz_source s) in
    mkLz77 gba (to_u32 (lz_source s + 1)) (lz_dest s) (lz_remaining s)
      blockheader 8 (lz_halfword s).

Fixpoint _unLz77_loop (fuel : nat) (width : Z) (s : lz77_state) : outcome lz77_state :=
  if lz_remaining s >? 0 then
    match fuel with
    | O => OutOfFuel
    | S fuel' => _unLz77_loop fuel' width (_unLz77_body width s)
    end
  else Returns s.

(** The state at the loop head.  [halfword] is declared without a value;
    [junk] is whatever it holds. *)
Definition _unLz77_init (junk : Z) (gba : GBA M) : lz77_state :=
  let source := to_u32 (gpr gba 0%fin) in
  let dest := to_u32 (gpr gba 1%fin) in
  let '(header, gba) := load32 Stream gba source in
  let remaining := Z.shiftr (Z.land (to_u32 header) 0xFFFFFF00) 8 in
  mkLz77 gba (to_u32 (source + 4)) dest remaining 0 0 junk.

Definition _unLz77_exit (s : lz77_state) : GBA M :=
  let gba := set_gpr 0%fin (lz_source s) (lz_gba s) in
  let gba := set_gpr 1%fin (lz_dest s) gba in
  set_gpr 3%fin 0 gba.

Definition _unLz77 (fuel : nat) (junk : Z) (gba : GBA M) (width : Z) : outcome (GBA M) :=
  match _unLz77_loop fuel width (_unLz77_init junk gba) with
  | Returns s => Returns (_unLz77_exit s)
  | Undefined => Undefined
  | OutOfFuel => OutOfFuel
  end.

(** *** Huffman (SWI 0x13) *)

Record huffman_state : Type := mkHuffman {
  hf_gba : GBA M;
  hf_source : Z;
  hf_dest : Z;
  hf_remaining : Z;
  hf_block : Z;
  hf_nPointer : Z;
  hf_node : Z;
  hf_bitsSeen : Z
}.

(** One pass of the body of the [for] loop over the bits of a word of
    the bitstream; [continue] and the end of the body both lead to the
    step of the [for], which is in [_unHuffman_word]. *)
Definition _unHuffman_bit (bits treeBase bitstream : Z) (s : huffman_state) : huffman_state :=
  let next :=
    to_u32 (Z.land (hf_nPointer s) 0xFFFFFFFE
            + HuffmanNodeGetOffset (hf_node s) * 2 + 2) in
  let right := negb (Z.land bitstream 0x80000000 =? 0) in
  let terminal :=
    if right then HuffmanNodeIsRTerm (hf_node s) else HuffmanNodeIsLTerm (hf_node s) in
  let child := if right then to_u32 (next + 1) else next in
  if terminal then
    let '(readBits, gba) := load8 Tree (hf_gba s) child in
    let block :=
      to_s32 (Z.lor (hf_block s)
                (Z.shiftl (Z.land readBits (Z.shiftl 1 bits - 1)) (hf_bitsSeen s))) in
    let bitsSeen := hf_bitsSeen s + bits in
    let nPointer := treeBase in
    let '(node, gba) := load8 Tree gba nPointer in
    let node := to_u8 node in
    if bitsSeen =? 32 then
      let gba := store32 gba (hf_dest s) block in
      mkHuffman gba (hf_source s) (to_u32 (hf_dest s + 4)) (hf_remaining s - 4)
        0 nPointer node 0
    else
      mkHuffman gba (hf_source s) (hf_dest s) (hf_remaining s)
        block nPointer node bitsSeen
  else
    let nPointer := child in
    let '(node, gba) := load8 Tree (hf_gba s) nPointer in
    mkHuffman gba (hf_source s) (hf_dest s) (hf_remaining s)
      (hf_block s) nPointer (to_u8 node) (hf_bitsSeen s).

(** [for (bitsRemaining = 32; bitsRemaining > 0 && remaining > 0;
    --bitsRemaining, bitstream <<= 1)]. *)
Fixpoint _unHuffman_word (bitsRemaining : nat) (bits treeBase bitstream : Z)
    (s : huffman_state) : huffman_state :=
  match bitsRemaining with
  | O => s
  | S bitsRemaining' =>
      if hf_remaining s >? 0 then
        _unHuffman_word bitsRemaining' bits treeBase
          (to_u32 (Z.shiftl bitstream 1))
          (_unHuffman_bit bits treeBase bitstream s)
      else s
  end.

(** One pass of the body of [while (remaining > 0)]. *)
Definition _unHuffman_body (bits treeBase : Z) (s : huffman_state) : huffman_state :=
  let '(bitstream, gba) := load32 Stream (hf_gba s) (hf_source s) in
  let s :=
    mkHuffman gba (to_u32 (hf_source s + 4)) (hf_dest s) (hf_remaining s)
      (hf_block s) (hf_nPointer s) (hf_node s) (hf_bitsSeen s) in
  _unHuffman_word 32 bits treeBase (to_u32 bitstream) s.

Fixpoint _unHuffman_loop (fuel : nat) (bits treeBase : Z) (s : huffman_state)
    : outcome huffman_state :=
  if hf_remaining s >? 0 then
    match fuel with
    | O => OutOfFuel
    | S fuel' => _unHuffman_loop fuel' bits treeBase (_unHuffman_body bits treeBase s)
    end
  else Returns s.

Definition _unHuffman (fuel : nat) (gba : GBA M) : outcome (GBA M) :=
  let source := Z.land (to_u32 (gpr gba 0%fin)) 0xFFFFFFFC in
  let dest := to_u32 (gpr gba 1%fin) in
  let '(header, gba) := load32 Stream gba source in
  let header := to_u32 header in
  let remaining := Z.shiftr header 8 in
  let bits := Z.land header 0xF in
  if bits =? 0 then Undefined (* 32 % 0 *)
  else if negb (Z.rem 32 bits =? 0) then
    Returns (GBALog gba GBA_LOG_STUB "Unimplemented unaligned Huffman")
  else
    let padding := Z.land (4 - remaining) 0x3 in
    let remaining := Z.land remaining 0xFFFFFFFC in
    let '(size, gba) := loadU8 Stream gba (source + 4) in
    let treesize := Z.shiftl size 1 + 1 in
    let treeBase := to_u32 (source + 5) in
    let source := to_u32 (source + (5 + treesize)) in
    let nPointer := treeBase in
    let '(node, gba) := load8 Tree gba nPointer in
    match _unHuffman_loop fuel bits treeBase
            (mkHuffman gba source dest remaining 0 nPointer (to_u8 node) 0) with
    | Returns s =>
        let gba :=
          if negb (padding =? 0) then store32 (hf_gba s) (hf_dest s) (hf_block s)
          else hf_gba s in
        let gba := set_gpr 0%fin (hf_source s) gba in
        Returns (set_gpr 1%fin (hf_dest s) gba)
    | Undefined => Undefined
    | OutOfFuel => OutOfFuel
    end.

(** *** Run-length (SWI 0x14, 0x15) *)

Record rl_state : Type := mkRl {
  rl_gba : GBA M;
  rl_source : Z;
  rl_dest : Z;
  rl_remaining : Z;
  rl_halfword : Z
}.

(** [while (blockheader-- && remaining)] of a compressed block: the byte
    [block] is written again and again. *)
Fixpoint _unRl_fill (blockheader : nat) (width block : Z) (s : rl_state) : rl_state :=
  match blockheader with
  | O => s
  | S blockheader' =>
      if rl_remaining s =? 0 then s
      else
        let '(gba, halfword) :=
          put_byte width (rl_gba s) (rl_dest s) (rl_halfword s) block in
        _unRl_fill blockheader' width block
          (mkRl gba (rl_source s) (to_u32 (rl_dest s + 1)) (rl_remaining s - 1) halfword)
  end.

(** [while (blockheader-- && remaining)] of an uncompressed block. *)
Fixpoint _unRl_copy (blockheader : nat) (width : Z) (s : rl_state) : rl_state :=
  match blockheader with
  | O => s
  | S blockheader' =>
      if rl_remaining s =? 0 then s
      else
        let '(byte, gba) := loadU8 Stream (rl_gba s) (rl_source s) in
        let source := to_u32 (rl_source s + 1) in
        let '(gba, halfword) := put_byte width gba (rl_dest s) (rl_halfword s) byte in
        _unRl_copy blockheader' width
          (mkRl gba source (to_u32 (rl_dest s + 1)) (rl_remaining s - 1) halfword)
  end.

(** The length of the block that a flag byte announces. *)
Definition rl_block_length (blockheader : Z) : Z :=
  if negb (Z.land blockheader 0x80 =? 0) then Z.land blockheader 0x7F + 3
  else blockheader + 1.

(** One pass of the body of [while (remaining > 0)] in [_unRl]. *)
Definition _unRl_body (width : Z) (s : rl_state) : rl_state :=
  let '(blockheader, gba) := loadU8 Stream (rl_gba s) (rl_source s) in
  let source := to_u32 (rl_source s + 1) in
  if negb (Z.land blockheader 0x80 =? 0) then
    (* Compressed *)
    let '(block, gba) := loadU8 Stream gba source in
    let source := to_u32 (source + 1) in
    _unRl_fill (Z.to_nat (rl_block_length blockheader)) width block
      (mkRl gba source (rl_dest s) (rl_remaining s) (rl_halfword s))
  else
    (* Uncompressed *)
    _unRl_copy (Z.to_nat (rl_block_length blockheader)) width
      (mkRl gba source (rl_dest s) (rl_remaining s) (rl_halfword s)).

Fixpoint _unRl_loop (fuel : nat) (width : Z) (s : rl_state) : outcome rl_state :=
  if rl_remaining s >? 0 then
    match fuel with
    | O => OutOfFuel
    | S fuel' => _unRl_loop fuel' width (_unRl_body width s)
    end
  else Returns s.

(** [for (; padding > 0; padding -= 2, dest += 2)]: at most [n] passes. *)
Fixpoint _unRl_pad16 (n : nat) (gba : GBA M) (dest padding : Z) : GBA M * Z :=
  match n with
  | O => (gba, dest)
  | S n' =>
      if padding >? 0 then
        _unRl_pad16 n' (store16 gba dest 0) (to_u32 (dest + 2)) (padding - 2)
      else (gba, dest)
  end.

(** [while (padding--)]. *)
Fixpoint _unRl_pad8 (padding : nat) (gba : GBA M) (dest : Z) : GBA M * Z :=
  match padding with
  | O => (gba, dest)
  | S padding' => _unRl_pad8 padding' (store8 gba dest 0) (to_u32 (dest + 1))
  end.

(** The zero padding after the main loop. *)
Definition _unRl_pad (width : Z) (gba : GBA M) (dest padding : Z) : GBA M * Z :=
  if width =? 2 then
    let '(padding, dest) :=
      if negb (Z.land dest 1 =? 0) then (padding - 1, to_u32 (dest + 1))
      else (padding, dest) in
    _unRl_pad16 (Z.to_nat padding) gba dest padding
  else _unRl_pad8 (Z.to_nat padding) gba dest.

Definition _unRl_init (gba : GBA M) : rl_state * Z :=
  let source := Z.land (to_u32 (gpr gba 0%fin)) 0xFFFFFFFC in
  let '(header, gba') := load32 Stream gba source in
  let remaining := Z.shiftr (Z.land (to_u32 header) 0xFFFFFF00) 8 in
  let padding := Z.land (4 - remaining) 0x3 in
  let source := to_u32 (source + 4) in
  let dest := to_u32 (gpr gba 1%fin) in
  (mkRl gba' source dest remaining 0, padding).

Definition _unRl_exit (width : Z) (s : rl_state) (padding : Z) : GBA M :=
  let '(gba, dest) := _unRl_pad width (rl_gba s) (rl_dest s) padding in
  let gba := set_gpr 0%fin (rl_source s) gba in
  set_gpr 1%fin dest gba.

Definition _unRl (fuel : nat) (gba : GBA M) (width : Z) : outcome (GBA M) :=
  let '(s, padding) := _unRl_init gba in
  match _unRl_loop fuel width s with
  | Returns s => Returns (_unRl_exit width s padding)
  | Undefined => Undefined
  | OutOfFuel => OutOfFuel
  end.

(** *** UnFilter (SWI 0x16, 0x17, 0x18) *)

Record unfilter_state : Type := mkUnFilter {
  uf_gba : GBA M;
  uf_source : Z;
  uf_dest : Z;
  uf_remaining : Z;
  uf_halfword : Z;
  uf_old : Z
}.

(** The value [new] of one pass, after [new += old]. *)
Definition _unFilter_new (inwidth : Z) (s : unfilter_state) : Z :=
  let loaded :=
    if inwidth =? 1 then fst (loadU8 Stream (uf_gba s) (uf_source s))
    else fst (loadU16 Stream (uf_gba s) (uf_source s)) in
  to_u16 (loaded + uf_old s).

(** One pass of the body of [while (remaining > 0)] in [_unFilter]. *)
Definition _unFilter_body (inwidth outwidth : Z) (s : unfilter_state) : unfilter_state :=
  let '(new, gba) :=
    if inwidth =? 1 then loadU8 Stream (uf_gba s) (uf_source s)
    else loadU16 Stream (uf_gba s) (uf_source s) in
  let new := to_u16 (new + uf_old s) in
  let '(gba, dest, remaining, halfword) :=
    if outwidth >? inwidth then
      let halfword := Z.shiftr (uf_halfword s) 8 in
      let halfword := to_u16 (Z.lor halfword (Z.shiftl new 8)) in
      if negb (Z.land (uf_source s) 1 =? 0) then
        (store16 gba (uf_dest s) halfword, to_u32 (uf_dest s + outwidth),
         to_s32 (uf_remaining s - outwidth), halfword)
      else (gba, uf_dest s, uf_remaining s, halfword)
    else if outwidth =? 1 then
      (store8 gba (uf_dest s) new, to_u32 (uf_dest s + outwidth),
       to_s32 (uf_remaining s - outwidth), uf_halfword s)
    else
      (store16 gba (uf_dest s) new, to_u32 (uf_dest s + outwidth),
       to_s32 (uf_remaining s - outwidth), uf_halfword s) in
  mkUnFilter gba (to_u32 (uf_source s + inwidth)) dest remaining halfword new.

Fixpoint _unFilter_loop (fuel : nat) (inwidth outwidth : Z) (s : unfilter_state)
    : outcome unfilter_state :=
  if uf_remaining s >? 0 then
    match fuel with
    | O => OutOfFuel
    | S fuel' => _unFilter_loop fuel' inwidth outwidth (_unFilter_body inwidth outwidth s)
    end
  else Returns s.

Definition _unFilter_init (gba : GBA M) : unfilter_state :=
  let source := Z.land (to_u32 (gpr gba 0%fin)) 0xFFFFFFFC in
  let dest := to_u32 (gpr gba 1%fin) in
  let '(header, gba) := load32 Stream gba source in
  let remaining := Z.shiftr (to_u32 header) 8 in
  mkUnFilter gba (to_u32 (source + 4)) dest remaining 0 0.

Definition _unFilter_exit (s : unfilter_state) : GBA M :=
  let gba := set_gpr 0%fin (uf_source s) (uf_gba s) in
  set_gpr 1%fin (uf_dest s) gba.

Definition _unFilter (fuel : nat) (gba : GBA M) (inwidth outwidth : Z) : outcome (GBA M) :=
  match _unFilter_loop fuel inwidth outwidth (_unFilter_init gba) with
  | Returns s => Returns (_unFilter_exit s)
  | Undefined => Undefined
  | OutOfFuel => OutOfFuel
  end.

End Decoders.

Arguments lz77_state : clear implicits.
Arguments huffman_state : clear implicits.
Arguments rl_state : clear implicits.
Arguments unfilter_state : clear implicits.

(** ** The dispatcher *)

(** The constants of the memory map, which [gba-memory.h] defines and this
    file only uses: they are a parameter. *)
Class MemoryMap : Type := {
  BASE_WORKING_RAM : Z;
  BASE_OFFSET : Z;
  REGION_WORKING_RAM : Z;
  REGION_WORKING_IRAM : Z;
  REGION_VRAM : Z;
  SIZE_BIOS : Z
}.

Section Dispatcher.
Context {M : Type} {bus : MemoryBus M} {F : Type} {fpu : FPU F} {map : MemoryMap}.

(** The checks before a decoder runs: a source below working RAM and a
    destination outside the three writable regions are logged, and the
    decode goes ahead in every case. *)
Definition check_source (gba : GBA M) (message : string) : GBA M :=
  if gpr gba 0%fin <? BASE_WORKING_RAM then GBALog gba GBA_LOG_GAME_ERROR message
  else gba.

Definition check_destination (gba : GBA M) (message : string) : GBA M :=
  let region := Z.shiftr (gpr gba 1%fin) BASE_OFFSET in
  if (region =? REGION_WORKING_RAM) || (region =? REGION_WORKING_IRAM)
     || (region =? REGION_VRAM)
  then gba
  else GBALog gba GBA_LOG_GAME_ERROR message.

(** [case 0xE:] of the switch, which [case 0xD:] runs into. *)
Definition case_0xE (gba : GBA M) : outcome (GBA M) :=
  Returns (_BgAffineSet gba).

Definition case_0xD (gba : GBA M) : outcome (GBA M) :=
  match GBAChecksum (bios gba) SIZE_BIOS with
  | Returns sum => case_0xE (set_gpr 0%fin sum gba)
  | Undefined => Undefined
  | OutOfFuel => OutOfFuel
  end.

(** [GBASwi16].  [junk] is the indeterminate initial value of the local
    [halfword] of [_unLz77]. *)
Definition GBASwi16 (fuel : nat) (junk : Z) (gba : GBA M) (immediate : Z)
    : outcome (GBA M) :=
  let gba :=
    GBALog gba GBA_LOG_SWI "SWI: %02X r0: %08X r1: %08X r2: %08X r3: %08X" in
  if fullBios gba then Returns (ARMRaiseSWI gba)
  else
    match immediate with
    | 0x1 => Returns (_RegisterRamReset gba)
    | 0x2 => Returns (GBAHalt gba)
    | 0x5 | 0x4 => Returns (ARMRaiseSWI gba)
    | 0x6 => _Div gba (gpr gba 0%fin) (gpr gba 1%fin)
    | 0x7 => _Div gba (gpr gba 1%fin) (gpr gba 0%fin)
    | 0x8 => Returns (swi_Sqrt gba)
    | 0xA => Returns (swi_ArcTan2 gba)
    | 0xB | 0xC => Returns (ARMRaiseSWI gba)
    | 0xD => case_0xD gba
    | 0xE => case_0xE gba
    | 0xF => Returns (_ObjAffineSet gba)
    | 0x11 | 0x12 =>
        let gba := check_source gba "Bad LZ77 source" in
        let gba := check_destination gba "Bad LZ77 destination" in
        _unLz77 fuel junk gba (if immediate =? 0x11 then 1 else 2)
    | 0x13 =>
        let gba := check_source gba "Bad Huffman source" in
        let gba := check_destination gba "Bad Huffman destination" in
        _unHuffman fuel gba
    | 0x14 | 0x15 =>
        let gba := check_source gba "Bad RL source" in
        let gba := check_destination gba "Bad RL destination" in
        _unRl fuel gba (if immediate =? 0x14 then 1 else 2)
    | 0x16 | 0x17 | 0x18 =>
        let gba := check_source gba "Bad UnFilter source" in
        let gba := check_destination gba "Bad UnFilter destination" in
        _unFilter fuel gba (if immediate =? 0x18 then 2 else 1)
          (if immediate =? 0x16 then 1 else 2)
    | 0x1F => Returns (_MidiKey2Freq gba)
    | _ => Returns (GBALog gba GBA_LOG_STUB "Stub software interrupt: %02X")
    end.

Definition GBASwi32 (fuel : nat) (junk : Z) (gba : GBA M) (immediate : Z)
    : outcome (GBA M) :=
  GBASwi16 fuel junk gba (Z.shiftr immediate 16).

End Dispatcher.

(** ** A flat little-endian RAM behind the bus

    The simplest bus: every address of the 32-bit space holds one byte.
    The examples run on it. *)

Definition ram : Type := Z -> Z.

Definition ram_get (m : ram) (a : Z) : Z := to_u8 (m (to_u32 a)).

Definition ram_set (m : ram) (a v : Z) : ram :=
  fun b => if b =? to_u32 a then to_u8 v else m b.

#[export] Instance ram_bus : MemoryBus ram := {
  bus_load32 m a :=
    ram_get m a + 2 ^ 8 * ram_get m (a + 1) + 2 ^ 16 * ram_get m (a + 2)
    + 2 ^ 24 * ram_get m (a + 3);
  bus_load16 m a := ram_get m a + 2 ^ 8 * ram_get m (a + 1);
  bus_loadU16 m a := ram_get m a + 2 ^ 8 * ram_get m (a + 1);
  bus_load8 m a := ram_get m a;
  bus_loadU8 m a := ram_get m a;
  bus_store32 m a v :=
    ram_set (ram_set (ram_set (ram_set m a v) (a + 1) (Z.shiftr v 8))
               (a + 2) (Z.shiftr v 16)) (a + 3) (Z.shiftr v 24);
  bus_store16 m a v := ram_set (ram_set m a v) (a + 1) (Z.shiftr v 8);
  bus_store8 m a v := ram_set m a v
}.

(** A list of bytes placed at [base] over the RAM [m], and a RAM image that
    is zero but for such a list. *)
Definition ram_place (base : Z) (bytes : list Z) (m : ram) : ram :=
  fun a =>
    if (base <=? a) && (a <? base + Z.of_nat (length bytes))
    then nth (Z.to_nat (a - base)) bytes 0
    else m a.

Definition ram_of_bytes (base : Z) (bytes : list Z) : ram :=
  ram_place base bytes (fun _ => 0).

(** The memory map of the GBA. *)
#[export] Instance gba_map : MemoryMap := {
  BASE_WORKING_RAM := 0x02000000;
  BASE_OFFSET := 24;
  REGION_WORKING_RAM := 2;
  REGION_WORKING_IRAM := 3;
  REGION_VRAM := 6;
  SIZE_BIOS := 0x4000
}.

(** A machine with the given registers 0-3, RAM and full-BIOS flag, an
    all-zero BIOS image of [SIZE_BIOS] bytes and no events yet. *)
Definition machine (r0 r1 r2 r3 : Z) (m : ram) (full : bool) : GBA ram :=
  mkGBA (vinsert 0%fin r0 (vinsert 1%fin r1 (vinsert 2%fin r2
          (vinsert 3%fin r3 (vreplicate 16 0)))))
    m full (repeat 0 4096) [].

(** An idealised floating-point unit that computes with exact real
    numbers; converting to an integer truncates towards zero.  It only
    serves to make the examples below closed terms. *)
Definition R_to_Z (r : Rdefinitions.R) : Z :=
  if RIneq.Rle_dec (Rdefinitions.IZR 0) r then R_Ifp.Int_part r
  else - R_Ifp.Int_part (Rdefinitions.Ropp r).

Definition R_atan2 (y x : Rdefinitions.R) : Rdefinitions.R :=
  if RIneq.Rlt_dec (Rdefinitions.IZR 0) x then Ratan.atan (Rdefinitions.Rdiv y x)
  else if RIneq.Rlt_dec x (Rdefinitions.IZR 0) then
    if RIneq.Rle_dec (Rdefinitions.IZR 0) y
    then Rdefinitions.Rplus (Ratan.atan (Rdefinitions.Rdiv y x)) Rtrigo1.PI
    else Rdefinitions.Rminus (Ratan.atan (Rdefinitions.Rdiv y x)) Rtrigo1.PI
  else if RIneq.Rlt_dec (Rdefinitions.IZR 0) y
    then Rdefinitions.Rdiv Rtrigo1.PI (Rdefinitions.IZR 2)
  else if RIneq.Rlt_dec y (Rdefinitions.IZR 0)
    then Rdefinitions.Ropp (Rdefinitions.Rdiv Rtrigo1.PI (Rdefinitions.IZR 2))
  else Rdefinitions.IZR 0.

#[export] Instance real_fpu : FPU Rdefinitions.R := {
  f_of_Z := Rdefinitions.IZR;
  f_to_Z := R_to_Z;
  f_add := Rdefinitions.Rplus;
  f_sub := Rdefinitions.Rminus;
  f_mul := Rdefinitions.Rmult;
  f_div := Rdefinitions.Rdiv;
  f_neg := Rdefinitions.Ropp;
  f_cos := Rtrigo_def.cos;
  f_sin := Rtrigo_def.sin;
  f_sqrt := R_sqrt.sqrt;
  f_atan2 := R_atan2;
  f_pow := Rpower.Rpower;
  M_PI := Rtrigo1.PI
}.

(** ** Reading the event list *)

Definition cursor_eqb (c c' : cursor) : bool :=
  match c, c' with
  | Stream, Stream | Window, Window | Tree, Tree | Block, Block => true
  | _, _ => false
  end.

(** The bytes an event stores, and the bytes it loads through a cursor. *)
Definition event_stored (e : event) : Z :=
  match e with
  | EvStore width _ _ => width
  | _ => 0
  end.

Definition event_loaded (c : cursor) (e : event) : Z :=
  match e with
  | EvLoad width via _ => if cursor_eqb c via then width else 0
  | _ => 0
  end.

Definition event_raises (e : event) : bool :=
  match e with
  | EvRaiseSWI => true
  | _ => false
  end.

(** The total number of bytes written through the bus, the number of bytes
    read through a cursor, and the number of calls to [ARMRaiseSWI]. *)
Fixpoint stored (evs : list event) : Z :=
  match evs with
  | [] => 0
  | e :: evs' => event_stored e + stored evs'
  end.

Fixpoint loaded (c : cursor) (evs : list event) : Z :=
  match evs with
  | [] => 0
  | e :: evs' => event_loaded c e + loaded c evs'
  end.

Definition swi_raised (evs : list event) : nat :=
  length (filter event_raises evs).

(** The checksum as the specification describes it: the sum of the 32-bit
    words of the image, modulo 2^32. *)
Definition word_sum (words : list Z) : Z :=
  to_u32 (fold_right (fun word acc => to_u32 word + acc) 0 words).

(** ** LZ77 back-references, read back

    The bytes that the copy of a back-reference reads, first to last: the
    values that [byte = loadU8(disp)] takes in [_unLz77_copy]. *)
Fixpoint _unLz77_copied {M : Type} {bus : MemoryBus M} (bytes : nat) (width : Z)
    (gba : GBA M) (disp dest remaining halfword : Z) : list Z :=
  match bytes with
  | O => []
  | S bytes' =>
      if remaining =? 0 then []
      else
        let '(byte, gba) := loadU8 Window gba disp in
        let '(gba, halfword) := put_byte width gba dest halfword byte in
        byte
        :: _unLz77_copied bytes' width gba (to_u32 (disp + 1)) (to_u32 (dest + 1))
             (remaining - 1) halfword
  end.

(** The byte that guest memory holds at an address. *)
Definition byte_at {M : Type} {bus : MemoryBus M} (gba : GBA M) (address : Z) : Z :=
  fst (loadU8 Window gba address).

(** A compressed chunk at the stream cursor of [s]: its two bytes, the
    machine after they have been loaded, and the fields that the
    specification reads from them. *)
Definition chunk_b0 {M : Type} {bus : MemoryBus M} (s : lz77_state M) : Z :=
  fst (loadU8 Stream (lz_gba s) (lz_source s)).

Definition chunk_b1 {M : Type} {bus : MemoryBus M} (s : lz77_state M) : Z :=
  fst (loadU8 Stream (lz_gba s) (lz_source s + 1)).


Definition spec_displacement (b0 b1 : Z) : Z :=
  Z.lor (Z.shiftl (Z.land b0 0x0F) 8) b1.

Definition spec_length (b0 : Z) : Z := Z.shiftr b0 4 + 3.



(** A bus behind which bytes are kept as in a RAM: a byte read back after
    an 8-bit store is the byte stored if the address is the same, and the
    byte that was there before if it is not. *)
Class ByteRam {M : Type} (bus : MemoryBus M) : Prop := {
  loadU8_store8 :
    forall (m : M) (a v b : Z),
      0 <= a < 2 ^ 32 -> 0 <= b < 2 ^ 32 ->
      to_u8 (bus_loadU8 (bus_store8 m a v) b)
      = if b =? a then to_u8 v else to_u8 (bus_loadU8 m b)
}.

(** The same for the 16-bit stores that [put_byte] issues, which are to
    even addresses: the low byte is read back at the address and the high
    byte at the next one. *)
Class HalfwordRam {M : Type} (bus : MemoryBus M) : Prop := {
  loadU8_store16 :
    forall (m : M) (a v b : Z),
      0 <= a < 2 ^ 32 -> Z.land a 1 = 0 -> 0 <= b < 2 ^ 32 ->
      to_u8 (bus_loadU8 (bus_store16 m a v) b)
      = if b =? a then to_u8 v
        else if b =? a + 1 then to_u8 (Z.shiftr v 8)
        else to_u8 (bus_loadU8 m b)
}.


(** [halfword] holds nothing but the byte that waits, if one does. *)
Definition lz_waiting {M : Type} (s : lz77_state M) : Prop :=
  Z.land (lz_dest s) 1 = 1 -> 0 <= lz_halfword s < 2 ^ 8.

(** An LZ77 stream at [0x02000000] for an output of four bytes at
    [0x02FFFFFE]: flag byte [0x20], the literals ['X'] and ['A'], and a
    back-reference of length 3 with displacement 0. *)
Definition lz77_demo_overlap : GBA ram :=
  machine 0x02000000 0x02FFFFFE 0 0
    (ram_of_bytes 0x02000000 [0x10; 0x04; 0; 0; 0x20; 0x58; 0x41; 0x00; 0x00]) false.

(** The state of [_unLz77] over that stream, with the given width, when
    the back-reference is the next chunk: after the flag byte and the two
    literals. *)
Definition lz77_demo_at_chunk (width : Z) : lz77_state ram :=
  _unLz77_body width
    (_unLz77_body width (_unLz77_body width (_unLz77_init 0 lz77_demo_overlap))).

(** ** Reading a stream header

    What the claims call the header of a decode call: the word at the
    source address ([_unLz77] uses r0 as it is, the other decoders clear
    its two low bits first), its upper 24 bits, and for Huffman its low
    nibble. *)
Definition aligned_source {M : Type} (gba : GBA M) : Z :=
  Z.land (to_u32 (gpr gba 0%fin)) 0xFFFFFFFC.

Definition header_at {M : Type} {bus : MemoryBus M} (gba : GBA M) (source : Z) : Z :=
  to_u32 (fst (load32 Stream gba source)).

Definition declared_length (header : Z) : Z := Z.shiftr header 8.

Definition symbol_width (header : Z) : Z := Z.land header 0xF.

(** ** Where a run loads and stores

    [loads_within c base lo hi] says of a list of events that every load
    through the cursor [c] reads bytes at offsets from [lo] up to, not
    including, [hi] from the address [base]; [stores_within] says the same
    of the stores.  Offsets are counted without wrapping, the address is
    the wrapped sum. *)
Definition loads_within (c : cursor) (base lo hi : Z) (evs : list event) : Prop :=
  forall width address,
    In (EvLoad width c address) evs ->
    exists k, lo <= k /\ k + width <= hi /\ address = to_u32 (base + k).

Definition stores_within (base lo hi : Z) (evs : list event) : Prop :=
  forall width address value,
    In (EvStore width address value) evs ->
    exists k, lo <= k /\ k + width <= hi /\ address = to_u32 (base + k).

(** The bytes that [put_byte] has stored after [n] calls for consecutive
    addresses from [dest0]: all of them with 8-bit stores, and with
    [width == 2] two for every odd address. *)
Definition out_bytes (width dest0 n : Z) : Z :=
  if width =? 2 then 2 * ((n + dest0 mod 2) / 2) else n.

(** The state of a decoder in the middle of a run that started with the
    events [t0], the stream at [src0] and the output at [dest0]: the
    stream cursor is [n_in] bytes into the stream, of which [skip] were
    stepped over and the others loaded; the output cursor is [n_out] bytes
    into the output, written as [out_bytes] says. *)
Definition decoding {M : Type} (t0 : list event) (src0 skip dest0 width : Z)
    (gba : GBA M) (source dest n_in n_out : Z) : Prop :=
  exists new,
    events gba = new ++ t0
    /\ source = to_u32 (src0 + n_in)
    /\ dest = to_u32 (dest0 + n_out)
    /\ 0 <= n_out
    /\ loaded Stream new + skip = n_in
    /\ loads_within Stream src0 0 n_in new
    /\ stored new = out_bytes width dest0 n_out
    /\ stores_within dest0 (-1) n_out new.

(** ** The specification's account of one UnFilter pass

    "In all cases, decrement [remaining] by [outwidth], advance
    destination by [outwidth], advance source by [inwidth], update
    [old <- new]", as a relation between the state before a pass of the
    loop body and the state after it. *)
Definition spec_unFilter_pass {M : Type} {bus : MemoryBus M}
    (inwidth outwidth : Z) (s s' : unfilter_state M) : Prop :=
  uf_remaining s' = uf_remaining s - outwidth
  /\ uf_dest s' = to_u32 (uf_dest s + outwidth)
  /\ uf_source s' = to_u32 (uf_source s + inwidth)
  /\ uf_old s' = _unFilter_new inwidth s.

(** An UnFilter stream at [0x02000000]: header [0x00000481] (four bytes
    out) and the differences 1, 2, 3, 4. *)
Definition unfilter_demo : GBA ram :=
  machine 0x02000000 0x03000000 0 0
    (ram_of_bytes 0x02000000 [0x81; 0x04; 0; 0; 1; 2; 3; 4]) false.

(** What a run that started with the events [t0] has done by the time the
    machine is [gba]: [n_in - skip] bytes loaded through the stream cursor,
    all of them below offset [n_in] of the stream, and [n_stored] bytes
    stored, all of them below offset [hi] of the output (and not more than
    one byte below its start, where a 16-bit store for an odd first
    address begins). *)
Definition tracing {M : Type} (t0 : list event) (src0 skip dest0 : Z)
    (gba : GBA M) (n_in n_stored hi : Z) : Prop :=
  exists new,
    events gba = new ++ t0
    /\ loaded Stream new + skip = n_in
    /\ loads_within Stream src0 0 n_in new
    /\ stored new = n_stored
    /\ stores_within dest0 (-1) hi new.

(** The summary of a decode call from [gba] to [gba']: what it loaded and
    stored, and where r0 and r1 point on return, [n_in] bytes into the
    stream at [src0] and [n_out] bytes into the output at [dest0]. *)
Definition decoded {M : Type} (gba gba' : GBA M) (src0 skip dest0 : Z)
    (n_in n_stored hi n_out : Z) : Prop :=
  tracing (events gba) src0 skip dest0 gba' n_in n_stored hi
  /\ to_u32 (gpr gba' 0%fin) = to_u32 (src0 + n_in)
  /\ to_u32 (gpr gba' 1%fin) = to_u32 (dest0 + n_out).

(** The zero padding of [_unRl], after [len] bytes of output from
    [dest0]: the bytes it stores and the distance it moves the output
    cursor. *)
Definition rl_padding (len : Z) : Z := Z.land (4 - len) 0x3.

Definition rl_pad_stored (width dest0 len : Z) : Z :=
  if width =? 2 then
    let padding := rl_padding len - (dest0 + len) mod 2 in
    if padding >? 0 then 2 * ((padding + 1) / 2) else 0
  else rl_padding len.

Definition rl_pad_advance (width dest0 len : Z) : Z :=
  if width =? 2 then (dest0 + len) mod 2 + rl_pad_stored width dest0 len
  else rl_padding len.

(** The passes of the outer loop of [_unRl] that a run with the given fuel
    makes. *)
Fixpoint _unRl_passes {M : Type} {bus : MemoryBus M}
    (fuel : nat) (width : Z) (s : rl_state M) : nat :=
  if rl_remaining s >? 0 then
    match fuel with
    | O => O
    | S fuel' => S (_unRl_passes fuel' width (_unRl_body width s))
    end
  else O.

(** The loop invariant of [_unRl]: [n_in] bytes of the stream read,
    [n_out] bytes of the declared [len] put out. *)
Definition rl_inv {M : Type} (t0 : list event) (src0 dest0 width len : Z)
    (s : rl_state M) (n_in n_out : Z) : Prop :=
  decoding t0 src0 0 dest0 width (rl_gba s) (rl_source s) (rl_dest s) n_in n_out
  /\ rl_remaining s = len - n_out
  /\ 4 <= n_in <= 4 + 2 * n_out
  /\ n_out <= len.

(** The loop invariant of [_unLz77].  The last conjunct bounds the passes
    still to come, two for every byte that remains and one more when a
    flag byte has to be fetched first, together with the bytes read so
    far. *)
Definition lz_measure {M : Type} (s : lz77_state M) : Z :=
  2 * lz_remaining s + (if lz_blocksRemaining s =? 0 then 1 else 0).

Definition lz_inv {M : Type} (t0 : list event) (src0 dest0 width len : Z)
    (s : lz77_state M) (n_in n_out : Z) : Prop :=
  decoding t0 src0 0 dest0 width (lz_gba s) (lz_source s) (lz_dest s) n_in n_out
  /\ lz_remaining s = len - n_out
  /\ 4 <= n_in
  /\ n_out <= len
  /\ n_in + 2 * lz_measure s <= 4 + 2 * (2 * len + 1).

(** The loop invariant of [_unFilter] for the three width combinations:
    a store for every [outwidth] bytes of input read after the header. *)
Definition uf_inv {M : Type} (t0 : list event) (src0 dest0 inwidth outwidth len : Z)
    (s : unfilter_state M) (n_in n_out : Z) : Prop :=
  decoding t0 src0 0 dest0 1 (uf_gba s) (uf_source s) (uf_dest s) n_in n_out
  /\ uf_remaining s = len - n_out
  /\ 4 <= n_in
  /\ n_out = outwidth * ((n_in - 4) / outwidth)
  /\ (n_in - 4) mod inwidth = 0
  /\ n_out <= len + outwidth - 1
  /\ ((n_in - 4) mod outwidth <> 0 -> n_out < len).

(** The loop invariant of [_unHuffman]: [remaining] is a multiple of 4
    that never falls below zero. *)
Definition hf_inv {M : Type} (t0 : list event) (src0 skip dest0 len4 : Z)
    (s : huffman_state M) (n_in n_out : Z) : Prop :=
  decoding t0 src0 skip dest0 1 (hf_gba s) (hf_source s) (hf_dest s) n_in n_out
  /\ hf_remaining s = len4 - n_out
  /\ 0 <= n_in
  /\ 0 <= hf_remaining s
  /\ hf_remaining s mod 4 = 0.

(** The size of the Huffman tree that follows the header at [src0]:
    [(loadU8(source + 4) << 1) + 1] bytes. *)
Definition huffman_treesize {M : Type} {bus : MemoryBus M} (gba : GBA M) (src0 : Z) : Z :=
  Z.shiftl (fst (loadU8 Stream gba (src0 + 4))) 1 + 1.

(** ** What the claims about whole decode calls say

    [stores_bytes gba gba' n]: the run from [gba] to [gba'] wrote [n] bytes
    through the bus.  The byte counts of the four decoders follow, for a
    declared length [len] and an output that starts at [dest0]. *)
Definition stores_bytes {M : Type} (gba gba' : GBA M) (n : Z) : Prop :=
  exists new, events gba' = new ++ events gba /\ stored new = n.

Definition lz77_stored (width dest0 len : Z) : Z := out_bytes width dest0 len.

Definition rl_stored (width dest0 len : Z) : Z :=
  out_bytes width dest0 len + rl_pad_stored width dest0 len.

Definition unfilter_stored (outwidth len : Z) : Z :=
  outwidth * ((len + outwidth - 1) / outwidth).

Definition huffman_stored (len : Z) : Z := 4 * ((len + 3) / 4).

(** [cursors_past gba gba' src0 dest0]: on return r0 is the stream address
    advanced by some [n_in], below which every load through the stream
    cursor lies, and r1 is the output address advanced by some [n_out],
    below which every store lies. *)
Definition cursors_past {M : Type} (gba gba' : GBA M) (src0 dest0 : Z) : Prop :=
  exists skip n_in n_stored n_out,
    0 <= n_out < 2 ^ 32
    /\ decoded gba gba' src0 skip dest0 n_in n_stored n_out n_out.

(** ** Example streams *)

(** A Huffman stream at [0x02000000]: header [0x00000428] (8-bit symbols,
    four bytes out), tree size field 1, a root whose two children are the
    leaves ['A'] and ['B'], and the bitstream word [0x50000000], which
    spells left, right, left, right. *)
Definition huffman_demo : GBA ram :=
  machine 0x02000000 0x03000000 0 0
    (ram_of_bytes 0x02000000
       [0x28; 0x04; 0; 0; 1; 0xC0; 0x41; 0x42; 0; 0; 0; 0x50]) false.

(** The same stream with a declared length of one byte. *)
Definition huffman_demo_short : GBA ram :=
  machine 0x02000000 0x03000000 0 0
    (ram_of_bytes 0x02000000
       [0x28; 0x01; 0; 0; 1; 0xC0; 0x41; 0x42; 0; 0; 0; 0x50]) false.

(** An LZ77 stream at [0x02000000]: header [0x00000110] (one byte out), a
    flag byte 0 and the literal ['A']. *)
Definition lz77_demo_short : GBA ram :=
  machine 0x02000000 0x03000000 0 0
    (ram_of_bytes 0x02000000 [0x10; 0x01; 0; 0; 0; 0x41]) false.

(** A node byte with both leaf flags clear: below it the walk goes on. *)
Definition inner_node (node : Z) : bool :=
  negb (HuffmanNodeIsRTerm node) && negb (HuffmanNodeIsLTerm node).

(** The state of [_unHuffman] on a walk that cannot end: guest memory is
    [m], untouched, the node at hand has no leaf and output is still due. *)
Definition hf_endless {M : Type} (m : M) (s : huffman_state M) : Prop :=
  memory (hf_gba s) = m /\ inner_node (hf_node s) = true /\ 0 < hf_remaining s.

(** A Huffman header [0x00000428] at [0x02000000] in a RAM that holds
    nothing else: no byte of it is a node with a leaf. *)
Definition huffman_demo_endless : GBA ram :=
  machine 0x02000000 0x03000000 0 0 (ram_of_bytes 0x02000000 [0x28; 0x04]) false.

(** The streams of the specification's scenarios: eight literals
    ["ABCDEFGH"]; four literals ["ABCD"] and a back-reference with
    [b0 = 0x10], [b1 = 0x03]; and the run-length stream for
    ["AAAAABCDEE"]. *)
Definition lz77_demo_literals : GBA ram :=
  machine 0x02000000 0x03000000 0 0
    (ram_of_bytes 0x02000000
       [0x10; 0x08; 0; 0; 0x00; 0x41; 0x42; 0x43; 0x44; 0x45; 0x46; 0x47; 0x48])
    false.

Definition lz77_demo_window : GBA ram :=
  machine 0x02000000 0x03000000 0 0
    (ram_of_bytes 0x02000000
       [0x10; 0x08; 0; 0; 0x08; 0x41; 0x42; 0x43; 0x44; 0x10; 0x03])
    false.

Definition rl_demo : GBA ram :=
  machine 0x02000000 0x03000000 0 0
    (ram_of_bytes 0x02000000
       [0x30; 0x0A; 0; 0; 0x82; 0x41; 0x02; 0x42; 0x43; 0x44; 0x81; 0x45])
    false.

(** The [n] bytes that a RAM holds from [base] on, and what a decode call
    leaves behind: the output bytes and the registers 0, 1 and 3. *)
Definition ram_bytes (m : ram) (base : Z) (n : nat) : list Z :=
  map (fun k => ram_get m (base + Z.of_nat k)) (seq 0 n).

Definition decode_result (n : nat) (gba : GBA ram) : list Z * Z * Z * Z :=
  (ram_bytes (memory gba) 0x03000000 n, gpr gba 0%fin, gpr gba 1%fin, gpr gba 3%fin).

(** ** The table of the dispatcher

    The immediates that the [switch] of [GBASwi16] has a case for, and
    those among them whose handler can store to guest memory. *)
Definition swi_handled : list Z :=
  [0x1; 0x2; 0x4; 0x5; 0x6; 0x7; 0x8; 0xA; 0xB; 0xC; 0xD; 0xE; 0xF;
   0x11; 0x12; 0x13; 0x14; 0x15; 0x16; 0x17; 0x18; 0x1F].

Definition swi_storing : list Z :=
  [0xD; 0xE; 0xF; 0x11; 0x12; 0x13; 0x14; 0x15; 0x16; 0x17; 0x18].

(** The machine after the dispatcher has logged the SWI. *)
Definition swi_logged {M : Type} (gba : GBA M) : GBA M :=
  emit (EvLog GBA_LOG_SWI "SWI: %02X r0: %08X r1: %08X r2: %08X r3: %08X") gba.

(** [same_cpu gba gba']: the register file, the full-BIOS flag and the
    BIOS image of [gba'] are those of [gba].  [reg_frame gba gba']: the
    same but for the registers 0, 1 and 3. *)
Definition same_cpu {M : Type} (gba gba' : GBA M) : Prop :=
  gprs gba' = gprs gba /\ fullBios gba' = fullBios gba /\ bios gba' = bios gba.

Definition reg_frame {M : Type} (gba gba' : GBA M) : Prop :=
  fullBios gba' = fullBios gba
  /\ bios gba' = bios gba
  /\ forall i : fin 16,
      i <> 0%fin -> i <> 1%fin -> i <> 3%fin -> gprs gba' !!! i = gprs gba !!! i.

(** The errors that the dispatcher logs before a decode, most recent
    first: one for a destination outside working RAM, internal working RAM
    and VRAM, one for a source below working RAM. *)
Definition address_errors {M : Type} {map : MemoryMap} (gba : GBA M)
    (source_message destination_message : string) : list event :=
  (let region := Z.shiftr (gpr gba 1%fin) BASE_OFFSET in
   if (region =? REGION_WORKING_RAM) || (region =? REGION_WORKING_IRAM)
      || (region =? REGION_VRAM)
   then []
   else [EvLog GBA_LOG_GAME_ERROR destination_message])
  ++ (if gpr gba 0%fin <? BASE_WORKING_RAM
      then [EvLog GBA_LOG_GAME_ERROR source_message]
      else []).

(** The one-byte LZ77 stream read from the BIOS region, at [0x00000100],
    for an output in the cartridge region, at [0x08000000]. *)
Definition lz77_demo_misplaced : GBA ram :=
  machine 0x00000100 0x08000000 0 0
    (ram_of_bytes 0x00000100 [0x10; 0x01; 0; 0; 0; 0x41]) false.


(** A potential of the LZ77 loop that no pass raises: eight times the
    bytes read through the stream cursor so far, plus seventeen for every
    byte still to be put out, less the chunks that the flag byte at hand
    still covers. *)
Definition lz_potential {M : Type} (s : lz77_state M) : Z :=
  8 * loaded Stream (events (lz_gba s)) + 17 * lz_remaining s - lz_blocksRemaining s.

(** Whenever [_unHuffman] has nothing more to put out, no decoded bit is
    left in [block]. *)
Definition hf_drained {M : Type} (s : huffman_state M) : Prop :=
  hf_remaining s <= 0 -> hf_block s = 0.

(** The sum of the [n] bytes that guest memory holds from [base] on. *)
Fixpoint byte_sum {M : Type} {bus : MemoryBus M} (gba : GBA M) (base : Z) (n : nat) : Z :=
  match n with
  | O => 0
  | S n' => byte_sum gba base n' + byte_at gba (base + Z.of_nat n')
  end.

(** The loop invariant of the 8-bit UnFilter (SWI 0x16) over guest memory,
    [k] passes into a run that started on [gba] with the differences at
    [data] and the output at [dest0]: the first [k] bytes of the output
    are the running sums, every other byte of memory is as it was, and
    [old] is the sum so far. *)
Definition uf8_inv {M : Type} {bus : MemoryBus M} (gba : GBA M) (data dest0 len : Z)
    (s : unfilter_state M) (k : nat) : Prop :=
  uf_source s = to_u32 (data + Z.of_nat k)
  /\ uf_dest s = to_u32 (dest0 + Z.of_nat k)
  /\ uf_remaining s = len - Z.of_nat k
  /\ uf_old s = to_u16 (byte_sum gba data k)
  /\ (forall i : nat,
        (i < k)%nat ->
        byte_at (uf_gba s) (dest0 + Z.of_nat i) = to_u8 (byte_sum gba data (S i)))
  /\ (forall b,
        (forall i : nat, (i < k)%nat -> to_u32 b <> to_u32 (dest0 + Z.of_nat i)) ->
        byte_at (uf_gba s) b = byte_at gba b).

(** The stores that [put_byte] issues for a given [width]: 16-bit stores
    to even addresses when [width == 2], 8-bit stores otherwise.
    [stores_as width evs] says that every store of [evs] is of that
    kind. *)
Definition put_store (width store_width address : Z) : Prop :=
  if width =? 2 then store_width = 2 /\ Z.land address 1 = 0 else store_width = 1.

Definition stores_as (width : Z) (evs : list event) : Prop :=
  forall store_width address value,
    In (EvStore store_width address value) evs -> put_store width store_width address.

(** [adds_stores width gba gba']: from [gba] to [gba'] events were added,
    and the stores among them are all of the kind of [width]. *)
Definition adds_stores {M : Type} (width : Z) (gba gba' : GBA M) : Prop :=
  exists new, events gba' = new ++ events gba /\ stores_as width new.

(** A machine whose BIOS image is the word [0x02000000] followed by
    zeros, so that its checksum is the address [0x02000000]; r0 holds 7,
    r1 the address [0x03000000] and r2 a count of one entry. *)
Definition checksum_demo : GBA ram :=
  mkGBA (gprs (machine 7 0x03000000 1 0 (fun _ => 0) false)) (fun _ => 0) false
    (0x02000000 :: repeat 0 4095) [].

(** The Huffman stream of [huffman_demo] with a declared length of five
    bytes: one word is decoded in the loop and one more is stored after
    it. *)
Definition huffman_demo_odd : GBA ram :=
  machine 0x02000000 0x03000000 0 0
    (ram_of_bytes 0x02000000
       [0x28; 0x05; 0; 0; 1; 0xC0; 0x41; 0x42; 0; 0; 0; 0x50]) false.

(** [output_past gba gba' dest0]: on return r1 is the output address
    [dest0] advanced by some [n_out], and every store of the call lies
    below it (and not more than one byte below [dest0], where a 16-bit
    store for an odd first address begins). *)
Definition output_past {M : Type} (gba gba' : GBA M) (dest0 : Z) : Prop :=
  exists new n_out,
    events gba' = new ++ events gba
    /\ 0 <= n_out < 2 ^ 32
    /\ to_u32 (gpr gba' 1%fin) = to_u32 (dest0 + n_out)
    /\ stores_within dest0 (-1) n_out new.

(** * Properties *)

(** Break a goal into its conjuncts and implications and close what is
    immediate. *)
Ltac split_all :=
  repeat match goal with
         | |- _ /\ _ => split
         | |- _ -> _ => intro
         | |- forall _, _ => intro
         end;
  try reflexivity; try lia; try assumption; auto.

(** Linear arithmetic with division and remainder by constants. *)
Ltac lia_mod := Z.to_euclidean_division_equations; lia.

(** ** Integer conversions *)

Lemma to_u32_range z : 0 <= to_u32 z < 2 ^ 32.
Proof. unfold to_u32. apply Z.mod_pos_bound. lia. Qed.

Lemma to_u32_small z : 0 <= z < 2 ^ 32 -> to_u32 z = z.
Proof. intros H. unfold to_u32. apply Z.mod_small. exact H. Qed.

Lemma to_s32_range z : - 2 ^ 31 <= to_s32 z < 2 ^ 31.
Proof.
  unfold to_s32. pose proof (Z.mod_pos_bound (z + 2 ^ 31) (2 ^ 32)). lia.
Qed.

Lemma to_s32_small z : - 2 ^ 31 <= z < 2 ^ 31 -> to_s32 z = z.
Proof. intros H. unfold to_s32. rewrite Z.mod_small; lia. Qed.

Lemma to_s32_idem z : to_s32 (to_s32 z) = to_s32 z.
Proof. apply to_s32_small, to_s32_range. Qed.

Lemma to_u32_idem z : to_u32 (to_u32 z) = to_u32 z.
Proof. apply to_u32_small, to_u32_range. Qed.

(** ** Registers *)

Section Registers.
Context {M : Type} {bus : MemoryBus M}.

Lemma gpr_set_gpr (gba : GBA M) i v : gpr (set_gpr i v gba) i = to_s32 v.
Proof.
  unfold gpr, set_gpr, set_gprs; simpl. rewrite vlookup_insert. apply to_s32_idem.
Qed.

Lemma gpr_set_gpr_ne (gba : GBA M) i j v :
  i <> j -> gpr (set_gpr i v gba) j = gpr gba j.
Proof.
  intros H. unfold gpr, set_gpr, set_gprs; simpl.
  rewrite vlookup_insert_ne by exact H. reflexivity.
Qed.

Lemma events_set_gpr (gba : GBA M) i v : events (set_gpr i v gba) = events gba.
Proof. reflexivity. Qed.

Lemma memory_set_gpr (gba : GBA M) i v : memory (set_gpr i v gba) = memory gba.
Proof. reflexivity. Qed.

End Registers.

(** ** Division *)

Section Division.
Context {M : Type} {bus : MemoryBus M}.

Lemma quot_rem_facts n d :
  d <> 0 ->
  n = d * Z.quot n d + Z.rem n d
  /\ Z.abs (Z.rem n d) < Z.abs d
  /\ (0 <= n -> 0 <= Z.rem n d)
  /\ (n <= 0 -> Z.rem n d <= 0).
Proof.
  intros Hd. split; [apply Z.quot_rem'|].
  split; [apply Z.rem_bound_abs; exact Hd|].
  split; intros Hn.
  - apply Z.rem_nonneg; assumption.
  - apply Z.rem_nonpos; assumption.
Qed.

Lemma quot_fits n d :
  INT_MIN <= n <= INT_MAX -> INT_MIN <= d <= INT_MAX -> d <> 0 ->
  ~ (n = INT_MIN /\ d = -1) ->
  INT_MIN <= Z.quot n d <= INT_MAX.
Proof.
  unfold INT_MIN, INT_MAX. intros Hn Hd Hd0 Hov.
  destruct (quot_rem_facts n d Hd0) as (Heq & Habs & Hpos & Hneg).
  set (q := Z.quot n d) in *. set (r := Z.rem n d) in *.
  destruct (Z.eq_dec d 1) as [->|Hd1].
  - assert (r = 0) by lia. lia.
  - destruct (Z.eq_dec d (-1)) as [->|Hdm1].
    + assert (r = 0) by lia. lia.
    + nia.
Qed.

(** Away from the overflow, [_Div] returns the truncated quotient, the
    remainder with the sign of the numerator and the absolute value of
    the quotient. *)
Lemma Div_nonzero (gba : GBA M) (n d : Z) :
  INT_MIN <= n <= INT_MAX -> INT_MIN <= d <= INT_MAX -> d <> 0 ->
  ~ (n = INT_MIN /\ d = -1) ->
  exists gba',
    _Div gba n d = Returns gba'
    /\ gpr gba' 0%fin = Z.quot n d
    /\ gpr gba' 1%fin = Z.rem n d
    /\ to_u32 (gpr gba' 3%fin) = Z.abs (Z.quot n d)
    /\ gpr gba' 0%fin * d + gpr gba' 1%fin = n
    /\ (0 <= n -> 0 <= gpr gba' 1%fin)
    /\ (n <= 0 -> gpr gba' 1%fin <= 0)
    /\ memory gba' = memory gba /\ events gba' = events gba.
Proof.
  intros Hn Hd Hd0 Hov.
  pose proof (quot_fits n d Hn Hd Hd0 Hov) as Hq.
  destruct (quot_rem_facts n d Hd0) as (Heq & Habs & Hpos & Hneg).
  unfold _Div, c_div.
  assert (Hdz : (d =? 0) = false) by (apply Z.eqb_neq; exact Hd0).
  rewrite Hdz; simpl.
  assert (Hin : (INT_MIN <=? Z.quot n d) && (Z.quot n d <=? INT_MAX) = true).
  { apply andb_true_iff; split; apply Z.leb_le; lia. }
  rewrite Hin.
  assert (Hr : INT_MIN <= Z.rem n d <= INT_MAX) by (unfold INT_MIN, INT_MAX in *; lia).
  eexists; split; [reflexivity|].
  rewrite gpr_set_gpr_ne, gpr_set_gpr_ne, gpr_set_gpr by discriminate.
  rewrite gpr_set_gpr_ne, gpr_set_gpr by discriminate.
  rewrite gpr_set_gpr.
  rewrite !to_s32_small by (unfold INT_MIN, INT_MAX in *; lia).
  repeat split; try assumption; try lia.
  unfold c_abs. rewrite to_s32_idem. unfold to_s32, to_u32.
  unfold INT_MIN, INT_MAX in *.
  destruct (Z.eq_dec (Z.quot n d) (- 2 ^ 31)) as [->|Hne].
  - reflexivity.
  - rewrite (Z.mod_small (Z.abs _ + _)) by lia.
    rewrite Z.mod_small; lia.
Qed.

End Division.

Section DivisionClaims.
Context {M : Type} {bus : MemoryBus M}.

(** C5: the claim holds for every numerator and nonzero denominator but
    one pair (lemma [Div_nonzero]); dividing [INT_MIN] by [-1], the
    quotient [2^31] is not an [int], [div] has no result and neither has
    [_Div]: no register receives the quotient, the remainder or the
    absolute value. *)
Theorem Div_overflow (gba : GBA M) : _Div gba INT_MIN (-1) = Undefined.
Proof. reflexivity. Qed.

(** C6: with denominator 0 and any signed numerator [n], [_Div] leaves
    [r0 = 1] if [n >= 0] and [r0 = -1] if [n < 0], [r1 = n] and
    [r3 = 1]. *)
Theorem Div_by_zero (gba : GBA M) (n : Z) :
  INT_MIN <= n <= INT_MAX ->
  exists gba',
    _Div gba n 0 = Returns gba'
    /\ (0 <= n -> gpr gba' 0%fin = 1)
    /\ (n < 0 -> gpr gba' 0%fin = -1)
    /\ gpr gba' 1%fin = n
    /\ gpr gba' 3%fin = 1.
Proof.
  intros Hn. unfold _Div; simpl.
  eexists; split; [reflexivity|].
  rewrite gpr_set_gpr_ne, gpr_set_gpr_ne, gpr_set_gpr by discriminate.
  rewrite gpr_set_gpr_ne, gpr_set_gpr by discriminate.
  rewrite gpr_set_gpr.
  unfold INT_MIN, INT_MAX in Hn.
  repeat split.
  - intros H. destruct (Z.ltb_spec n 0); [lia | reflexivity].
  - intros H. destruct (Z.ltb_spec n 0); [reflexivity | lia].
  - apply to_s32_small. lia.
Qed.

End DivisionClaims.

(** [Div(5, 0)], the third division scenario of the specification. *)
Lemma Div_by_zero_witness :
  INT_MIN <= 5 <= INT_MAX
  /\ exists gba',
      _Div (machine 5 0 0 0 (fun _ => 0) false) 5 0 = Returns gba'
      /\ (0 <= 5 -> gpr gba' 0%fin = 1)
      /\ (5 < 0 -> gpr gba' 0%fin = -1)
      /\ gpr gba' 1%fin = 5
      /\ gpr gba' 3%fin = 1.
Proof.
  split.
  - unfold INT_MIN, INT_MAX. lia.
  - apply (Div_by_zero (machine 5 0 0 0 (fun _ => 0) false) 5).
    unfold INT_MIN, INT_MAX. lia.
Defined.

(** ** The dispatcher *)

Section ChecksumFacts.

Lemma shiftr_4k (k : nat) : Z.to_nat (Z.shiftr (4 * Z.of_nat k) 2) = k.
Proof.
  rewrite Z.shiftr_div_pow2 by lia. change (2 ^ 2) with 4.
  rewrite Z.mul_comm, Z.div_mul by lia. apply Nat2Z.id.
Qed.

Lemma GBAChecksum_from_sum (image : list Z) :
  forall (words k : nat) (acc : Z),
    (k + words <= length image)%nat ->
    0 <= acc < 2 ^ 32 ->
    GBAChecksum_from words image (4 * Z.of_nat k) acc
    = Returns (to_u32 (acc + word_sum (firstn words (skipn k image)))).
Proof.
  induction words as [|words IH]; intros k acc Hlen Hacc.
  - simpl. unfold word_sum; simpl. rewrite Z.add_0_r, to_u32_small; auto.
  - simpl GBAChecksum_from. rewrite shiftr_4k.
    destruct (image !! k) as [word|] eqn:Hk.
    2:{ apply lookup_ge_None in Hk. lia. }
    replace (4 * Z.of_nat k + 4) with (4 * Z.of_nat (S k)) by lia.
    rewrite IH by (try apply to_u32_range; lia).
    f_equal.
    assert (Hskip : skipn k image = word :: skipn (S k) image).
    { clear - Hk. revert k Hk. induction image as [|x image IH]; intros [|k] Hk;
        simpl in *; try discriminate.
      - cbn in Hk. injection Hk as ->. reflexivity.
      - cbn in Hk. cbn. apply IH. exact Hk. }
    rewrite Hskip. simpl firstn. unfold word_sum. simpl fold_right.
    unfold to_u32.
    repeat (rewrite ?Zplus_mod_idemp_l, ?Zplus_mod_idemp_r; rewrite ?Z.add_assoc).
    rewrite <- (Z.add_assoc acc), (Z.add_comm acc), <- Z.add_assoc.
    rewrite Zplus_mod_idemp_l. f_equal. lia.
Qed.

Lemma GBAChecksum_sum (image : list Z) (size : Z) :
  size <= 4 * Z.of_nat (length image) ->
  GBAChecksum image size
  = Returns (word_sum (firstn (Z.to_nat ((size + 3) / 4)) image)).
Proof.
  intros Hsize. unfold GBAChecksum.
  change 0 with (4 * Z.of_nat 0) at 1.
  rewrite GBAChecksum_from_sum.
  - simpl skipn. f_equal. rewrite Z.add_0_l. unfold word_sum. apply to_u32_idem.
  - simpl. assert ((size + 3) / 4 < Z.of_nat (length image) + 1).
    { apply Z.div_lt_upper_bound; lia. }
    lia.
  - lia.
Qed.

End ChecksumFacts.

Section DispatcherClaims.
Context {M : Type} {bus : MemoryBus M} {F : Type} {fpu : FPU F} {map : MemoryMap}.

Lemma _BgAffineSet_loop_gprs (i : nat) :
  forall (gba : GBA M) offset destination,
    gprs (_BgAffineSet_loop i gba offset destination) = gprs gba.
Proof.
  induction i as [|i IH]; intros gba offset destination; [reflexivity|].
  simpl. unfold _BgAffineSet_body. simpl. rewrite IH. reflexivity.
Qed.

(** C9: with the full-BIOS flag set, for every immediate and every machine
    the dispatcher logs the SWI, calls [ARMRaiseSWI] exactly once and
    returns; the register file and guest memory are the ones it was
    entered with, and no store was issued. *)
Theorem full_bios_passthrough (fuel : nat) (junk : Z) (gba : GBA M) (immediate : Z) :
  fullBios gba = true ->
  exists gba',
    GBASwi16 fuel junk gba immediate = Returns gba'
    /\ gprs gba' = gprs gba
    /\ memory gba' = memory gba
    /\ events gba'
       = EvRaiseSWI
         :: EvLog GBA_LOG_SWI "SWI: %02X r0: %08X r1: %08X r2: %08X r3: %08X"
         :: events gba
    /\ swi_raised (events gba') = S (swi_raised (events gba))
    /\ stored (events gba') = stored (events gba).
Proof.
  intros Hfull. unfold GBASwi16. simpl. rewrite Hfull.
  eexists. split; [reflexivity|]. repeat split.
Qed.

End DispatcherClaims.

(** SWI 0x2A on a machine in full-BIOS mode. *)
Lemma full_bios_passthrough_witness :
  exists gba',
    GBASwi16 0 0 (machine 1 2 3 4 (fun _ => 0) true) 0x2A = Returns gba'
    /\ gprs gba' = gprs (machine 1 2 3 4 (fun _ => 0) true)
    /\ memory gba' = memory (machine 1 2 3 4 (fun _ => 0) true)
    /\ events gba'
       = EvRaiseSWI
         :: EvLog GBA_LOG_SWI "SWI: %02X r0: %08X r1: %08X r2: %08X r3: %08X"
         :: events (machine 1 2 3 4 (fun _ => 0) true)
    /\ swi_raised (events gba')
       = S (swi_raised (events (machine 1 2 3 4 (fun _ => 0) true)))
    /\ stored (events gba') = stored (events (machine 1 2 3 4 (fun _ => 0) true)).
Proof.
  apply (full_bios_passthrough (F := Rdefinitions.R) 0 0
           (machine 1 2 3 4 (fun _ => 0) true) 0x2A).
  reflexivity.
Defined.

(** ** Huffman: the width check *)

Section HuffmanWidth.
Context {M : Type} {bus : MemoryBus M}.

(** A symbol width between 1 and 15 that does not divide 32 is logged and
    the handler returns: one load (the header), no store, the registers
    and guest memory as they were. *)
Lemma Huffman_unaligned (fuel : nat) (gba : GBA M) :
  let w := symbol_width (header_at gba (aligned_source gba)) in
  w <> 0 -> Z.rem 32 w <> 0 ->
  exists gba',
    _unHuffman fuel gba = Returns gba'
    /\ gprs gba' = gprs gba
    /\ memory gba' = memory gba
    /\ events gba'
       = EvLog GBA_LOG_STUB "Unimplemented unaligned Huffman"
         :: EvLoad 4 Stream (to_u32 (aligned_source gba)) :: events gba
    /\ stored (events gba') = stored (events gba).
Proof.
  intros w Hw0 Hrem. unfold _unHuffman.
  unfold w, symbol_width, header_at, aligned_source in Hw0, Hrem.
  simpl in Hw0, Hrem. simpl.
  apply Z.eqb_neq in Hw0. apply Z.eqb_neq in Hrem.
  rewrite Hw0, Hrem. simpl.
  eexists. split; [reflexivity|]. repeat split.
Qed.

(** C4: the claim holds for the widths 3, 5, 6, 7 and 9 to 15 (lemma
    [Huffman_unaligned]).  The width 0 does not divide 32 either, but for
    it the handler evaluates [32 % 0] and has no result: it neither logs
    nor returns. *)
Theorem Huffman_zero_width (fuel : nat) (gba : GBA M) :
  symbol_width (header_at gba (aligned_source gba)) = 0 ->
  _unHuffman fuel gba = Undefined.
Proof.
  intros Hw. unfold _unHuffman.
  unfold symbol_width, header_at, aligned_source in Hw. simpl in Hw. simpl.
  apply Z.eqb_eq in Hw. rewrite Hw. reflexivity.
Qed.

End HuffmanWidth.

(** The header [0x00000420]: signature 0x20, low nibble 0, length 4. *)
Lemma Huffman_zero_width_witness :
  symbol_width
    (header_at
       (machine 0x02000000 0x03000000 0 0 (ram_of_bytes 0x02000000 [0x20; 0x04; 0; 0]) false)
       (aligned_source
          (machine 0x02000000 0x03000000 0 0
             (ram_of_bytes 0x02000000 [0x20; 0x04; 0; 0]) false))) = 0
  /\ _unHuffman 10
       (machine 0x02000000 0x03000000 0 0 (ram_of_bytes 0x02000000 [0x20; 0x04; 0; 0]) false)
     = Undefined.
Proof.
  split.
  - vm_compute. reflexivity.
  - apply (Huffman_zero_width 10
             (machine 0x02000000 0x03000000 0 0
                (ram_of_bytes 0x02000000 [0x20; 0x04; 0; 0]) false)).
    vm_compute. reflexivity.
Defined.

(** ** UnFilter: one pass of the loop *)

Section UnFilterPass.
Context {M : Type} {bus : MemoryBus M}.

Lemma land_1_mod z : Z.land z 1 = z mod 2.
Proof.
  pose proof (Z.land_ones z 1) as H. change (Z.ones 1) with 1 in H.
  change (2 ^ 1) with 2 in H. apply H. lia.
Qed.

Lemma land_1_cases z : Z.land z 1 = 0 \/ Z.land z 1 = 1.
Proof. rewrite land_1_mod. pose proof (Z.mod_pos_bound z 2). lia. Qed.

(** C2, as the code has it.  For each of the three width combinations, a
    pass of the loop body reads [new] through the stream cursor, adds
    [old], advances the source by [inwidth] and sets [old] to the new
    value.  In the 1->1 and 2->2 cases it stores [new] with the output
    width, advances the destination and decrements [remaining] by
    [outwidth].  In the 1->2 case it shifts the scratch halfword right by 8
    and puts the low byte of [new] in its high half on every pass, and only
    on an odd source address does it commit the halfword with a 16-bit
    store, advance the destination and decrement [remaining]; on an even
    source address destination and [remaining] stay as they are and
    nothing is stored.  The loop runs the body while [remaining > 0] and
    returns as soon as it is not. *)
Theorem unFilter_pass (inwidth outwidth : Z) (s : unfilter_state M) :
  In (inwidth, outwidth) [(1, 1); (1, 2); (2, 2)] ->
  0 < uf_remaining s < 2 ^ 31 ->
  let new := _unFilter_new inwidth s in
  let s' := _unFilter_body inwidth outwidth s in
  let loaded := emit (EvLoad inwidth Stream (to_u32 (uf_source s))) (uf_gba s) in
  let halfword := to_u16 (Z.lor (Z.shiftr (uf_halfword s) 8) (Z.shiftl new 8)) in
  uf_source s' = to_u32 (uf_source s + inwidth)
  /\ uf_old s' = new
  /\ (outwidth = inwidth ->
      spec_unFilter_pass inwidth outwidth s s'
      /\ uf_halfword s' = uf_halfword s
      /\ uf_gba s'
         = (if outwidth =? 1 then store8 else store16) loaded (uf_dest s) new)
  /\ (outwidth > inwidth ->
      uf_halfword s' = halfword
      /\ (Z.land (uf_source s) 1 = 1 ->
          spec_unFilter_pass inwidth outwidth s s'
          /\ uf_gba s' = store16 loaded (uf_dest s) halfword)
      /\ (Z.land (uf_source s) 1 = 0 ->
          uf_remaining s' = uf_remaining s
          /\ uf_dest s' = uf_dest s
          /\ uf_gba s' = loaded))
  /\ (forall fuel,
        _unFilter_loop (S fuel) inwidth outwidth s
        = _unFilter_loop fuel inwidth outwidth s')
  /\ (forall fuel t,
        uf_remaining t <= 0 -> _unFilter_loop fuel inwidth outwidth t = Returns t).
Proof.
  intros Hw Hrem new s' loaded halfword.
  assert (Hloop : forall fuel,
            _unFilter_loop (S fuel) inwidth outwidth s
            = _unFilter_loop fuel inwidth outwidth s').
  { intros fuel. simpl.
    destruct (Z.gtb_spec (uf_remaining s) 0) as [_|Hle]; [reflexivity | lia]. }
  assert (Hstop : forall fuel t,
            uf_remaining t <= 0 -> _unFilter_loop fuel inwidth outwidth t = Returns t).
  { intros fuel t Ht. destruct fuel; simpl;
      destruct (Z.gtb_spec (uf_remaining t) 0); (lia || reflexivity). }
  assert (Hs1 : to_s32 (uf_remaining s - 1) = uf_remaining s - 1)
    by (apply to_s32_small; lia).
  assert (Hs2 : to_s32 (uf_remaining s - 2) = uf_remaining s - 2)
    by (apply to_s32_small; lia).
  simpl in Hw.
  destruct Hw as [Hw | [Hw | [Hw | []]]]; injection Hw as <- <-;
    (split; [|split; [|split; [|split; [|split; [exact Hloop | exact Hstop]]]]]);
    clear Hloop Hstop;
    subst s' new halfword loaded; unfold spec_unFilter_pass, _unFilter_body, _unFilter_new;
    simpl; rewrite ?Hs1, ?Hs2; try solve [split_all];
    destruct (land_1_cases (uf_source s)) as [Hp | Hp]; rewrite Hp; simpl;
    rewrite ?Hs2; split_all.
Qed.

End UnFilterPass.

(** The first pass of SWI 0x17 (1->2) over [unfilter_demo]: the source
    address [0x02000004] is even, so nothing is stored and [remaining] and
    the destination stay as they are. *)
Lemma unFilter_pass_witness :
  In (1, 2) [(1, 1); (1, 2); (2, 2)]
  /\ 0 < uf_remaining (_unFilter_init unfilter_demo) < 2 ^ 31
  /\ uf_remaining (_unFilter_body 1 2 (_unFilter_init unfilter_demo)) = 4
  /\ uf_dest (_unFilter_body 1 2 (_unFilter_init unfilter_demo)) = 0x03000000
  /\ uf_source (_unFilter_body 1 2 (_unFilter_init unfilter_demo)) = 0x02000005.
Proof.
  assert (Hin : In (1, 2) [(1, 1); (1, 2); (2, 2)]) by (simpl; auto).
  assert (Hrem : 0 < uf_remaining (_unFilter_init unfilter_demo) < 2 ^ 31)
    by (vm_compute; split; reflexivity).
  split; [exact Hin|]. split; [exact Hrem|].
  destruct (unFilter_pass 1 2 (_unFilter_init unfilter_demo) Hin Hrem)
    as (Hsrc & _ & _ & Hwide & _).
  destruct Hwide as (_ & _ & Heven); [lia|].
  destruct Heven as (Hr & Hd & _); [vm_compute; reflexivity|].
  rewrite Hr, Hd, Hsrc. vm_compute. repeat split.
Defined.

(** C2 as stated fails on that pass: [remaining] is not decremented and the
    destination does not advance. *)
Lemma unFilter_pass_counterexample :
  ~ spec_unFilter_pass 1 2 (_unFilter_init unfilter_demo)
      (_unFilter_body 1 2 (_unFilter_init unfilter_demo)).
Proof.
  intros (Hrem & _). vm_compute in Hrem. discriminate.
Qed.

(** ** Bookkeeping of a decode *)

Lemma to_u32_add_l a b : to_u32 (to_u32 a + b) = to_u32 (a + b).
Proof. unfold to_u32. apply Zplus_mod_idemp_l. Qed.

Lemma to_u32_parity z : Z.land (to_u32 z) 1 = z mod 2.
Proof.
  rewrite land_1_mod. unfold to_u32. apply Z.mod_mod_divide.
  exists (2 ^ 31). reflexivity.
Qed.

Lemma lxor_1_odd d : Z.land d 1 = 1 -> Z.lxor d 1 = d - 1.
Proof.
  intros Hodd.
  assert (Heven : Z.land (d - 1) 1 = 0).
  { rewrite land_1_mod in *. lia_mod. }
  assert (H : Z.lxor (d - 1) 1 = d).
  { rewrite <- Z.add_nocarry_lxor; [lia | exact Heven]. }
  rewrite <- H at 1.
  rewrite Z.lxor_assoc, Z.lxor_nilpotent, Z.lxor_0_r. reflexivity.
Qed.

Lemma to_u32_pred z : 1 <= to_u32 z -> to_u32 z - 1 = to_u32 (z - 1).
Proof.
  unfold to_u32. intros H.
  rewrite <- (Zminus_mod_idemp_l z 1). rewrite (Z.mod_small (_ - 1)); [reflexivity|].
  pose proof (Z.mod_pos_bound z (2 ^ 32)). lia.
Qed.

Lemma loads_within_weaken c base lo hi hi' evs :
  hi <= hi' -> loads_within c base lo hi evs -> loads_within c base lo hi' evs.
Proof.
  intros Hle H width address Hin.
  destruct (H width address Hin) as (k & Hlo & Hhi & Ha).
  exists k. split_all.
Qed.

Lemma stores_within_weaken base lo hi hi' evs :
  hi <= hi' -> stores_within base lo hi evs -> stores_within base lo hi' evs.
Proof.
  intros Hle H width address value Hin.
  destruct (H width address value Hin) as (k & Hlo & Hhi & Ha).
  exists k. split_all.
Qed.

Lemma stores_within_cons_load base lo hi w c a evs :
  stores_within base lo hi evs -> stores_within base lo hi (EvLoad w c a :: evs).
Proof.
  intros H width address value [Heq | Hin]; [discriminate | eauto].
Qed.

Section Bookkeeping.
Context {M : Type} {bus : MemoryBus M}.
Variables (t0 : list event) (src0 skip dest0 width : Z).

(** A load of [w] bytes at the stream cursor. *)
Lemma decoding_stream_load (gba : GBA M) source dest n_in n_out w :
  0 <= w -> 0 <= n_in ->
  decoding t0 src0 skip dest0 width gba source dest n_in n_out ->
  decoding t0 src0 skip dest0 width (emit (EvLoad w Stream (to_u32 source)) gba)
    (to_u32 (source + w)) dest (n_in + w) n_out.
Proof.
  intros Hw Hin (new & Hev & Hsrc & Hdst & Hout & Hld & Hlw & Hst & Hsw).
  exists (EvLoad w Stream (to_u32 source) :: new). simpl.
  rewrite Hev, Hsrc, to_u32_add_l, Z.add_assoc. split_all.
  - intros width' address [Heq | Hin'].
    + injection Heq as <- <-. exists n_in. rewrite to_u32_idem. split_all.
    + destruct (Hlw width' address Hin') as (k & ? & ? & ?). exists k. split_all.
  - apply stores_within_cons_load. exact Hsw.
Qed.

(** A load through another cursor. *)
Lemma decoding_other_load (gba : GBA M) source dest n_in n_out w c a :
  c <> Stream ->
  decoding t0 src0 skip dest0 width gba source dest n_in n_out ->
  decoding t0 src0 skip dest0 width (emit (EvLoad w c a) gba) source dest n_in n_out.
Proof.
  intros Hc (new & Hev & Hsrc & Hdst & Hout & Hld & Hlw & Hst & Hsw).
  exists (EvLoad w c a :: new).
  destruct c; [congruence | | |]; simpl; rewrite Hev; split_all;
    try (apply stores_within_cons_load; exact Hsw);
    intros width' address [Heq | Hin']; (congruence || eauto).
Qed.

(** A store of [w] bytes at the output cursor, for a decoder that does not
    pair bytes up. *)
Lemma decoding_store (gba gba' : GBA M) source dest n_in n_out w v :
  width <> 2 -> 0 <= w ->
  events gba' = EvStore w (to_u32 dest) v :: events gba ->
  decoding t0 src0 skip dest0 width gba source dest n_in n_out ->
  decoding t0 src0 skip dest0 width gba' source (to_u32 (dest + w)) n_in (n_out + w).
Proof.
  intros Hwidth Hw Hev' (new & Hev & Hsrc & Hdst & Hout & Hld & Hlw & Hst & Hsw).
  exists (EvStore w (to_u32 dest) v :: new). simpl.
  rewrite Hev', Hev, Hdst, to_u32_add_l, Z.add_assoc.
  unfold out_bytes in *. apply Z.eqb_neq in Hwidth. rewrite Hwidth in *.
  split_all.
  - intros width' address [Heq | Hin']; [discriminate | eauto].
  - intros width' address value [Heq | Hin'].
    + injection Heq as <- <- <-. exists n_out. rewrite to_u32_idem. split_all.
    + destruct (Hsw width' address value Hin') as (k & ? & ? & ?).
      exists k. split_all.
Qed.

(** One byte handed to [put_byte]. *)
Lemma decoding_put_byte (gba : GBA M) source dest n_in n_out halfword byte :
  decoding t0 src0 skip dest0 width gba source dest n_in n_out ->
  decoding t0 src0 skip dest0 width (fst (put_byte width gba dest halfword byte))
    source (to_u32 (dest + 1)) n_in (n_out + 1).
Proof.
  intros Hdec. unfold put_byte.
  destruct (Z.eqb_spec width 2) as [Hwidth | Hwidth].
  2:{ simpl.
      apply (decoding_store gba _ source dest n_in n_out 1 (to_s8 byte));
        [exact Hwidth | lia | reflexivity | exact Hdec]. }
  destruct Hdec as (new & Hev & Hsrc & Hdst & Hout & Hld & Hlw & Hst & Hsw).
  unfold out_bytes in *. subst width. simpl in Hst |- *.
  pose proof (to_u32_parity (dest0 + n_out)) as Hpar. rewrite <- Hdst in Hpar.
  destruct (land_1_cases dest) as [Heven | Hodd].
  - rewrite Heven. simpl. exists new.
    rewrite Hdst, to_u32_add_l, Z.add_assoc. split_all.
    + rewrite Hst. rewrite Heven in Hpar. unfold out_bytes. simpl. lia_mod.
    + eapply stores_within_weaken; [|exact Hsw]. lia.
  - rewrite Hodd. simpl.
    exists (EvStore 2 (to_u32 (Z.lxor dest 1))
              (to_s16 (to_s32 (Z.lor halfword (Z.shiftl byte 8)))) :: new).
    simpl. rewrite Hev, Hst.
    split; [reflexivity|]. split; [exact Hsrc|].
    split; [rewrite Hdst, to_u32_add_l, Z.add_assoc; reflexivity|].
    split; [lia|]. split; [exact Hld|].
    split; [intros width' address [Heq | Hin']; [discriminate | eauto]|].
    split; [rewrite Hodd in Hpar; unfold out_bytes; simpl; lia_mod|].
    intros width' address value [Heq | Hin'].
    + injection Heq as <- <- _. exists (n_out - 1).
      rewrite (lxor_1_odd dest Hodd).
      assert (Hge : 1 <= to_u32 (dest0 + n_out)).
      { pose proof (to_u32_range (dest0 + n_out)) as Hrange.
        rewrite <- Hdst in *. rewrite land_1_mod in Hodd. lia_mod. }
      rewrite Hdst, (to_u32_pred _ Hge), to_u32_idem.
      split_all. f_equal. lia.
    + destruct (Hsw width' address value Hin') as (k & ? & ? & ?).
      exists k. split_all.
Qed.

End Bookkeeping.

Section Tracing.
Context {M : Type} {bus : MemoryBus M}.
Variables (t0 : list event) (src0 skip dest0 : Z).

Lemma decoding_tracing width (gba : GBA M) source dest n_in n_out :
  decoding t0 src0 skip dest0 width gba source dest n_in n_out ->
  tracing t0 src0 skip dest0 gba n_in (out_bytes width dest0 n_out) n_out.
Proof.
  intros (new & Hev & Hsrc & Hdst & Hout & Hld & Hlw & Hst & Hsw).
  exists new. split_all.
Qed.

Lemma tracing_events (gba gba' : GBA M) n_in n_stored hi :
  events gba' = events gba ->
  tracing t0 src0 skip dest0 gba n_in n_stored hi ->
  tracing t0 src0 skip dest0 gba' n_in n_stored hi.
Proof.
  intros Heq (new & Hev & Hld & Hlw & Hst & Hsw). exists new. rewrite Heq.
  split_all.
Qed.

Lemma tracing_weaken (gba : GBA M) n_in n_stored hi hi' :
  hi <= hi' ->
  tracing t0 src0 skip dest0 gba n_in n_stored hi ->
  tracing t0 src0 skip dest0 gba n_in n_stored hi'.
Proof.
  intros Hle (new & Hev & Hld & Hlw & Hst & Hsw). exists new. split_all.
  eapply stores_within_weaken; eauto.
Qed.

(** A store of [w] bytes at offset [k] of the output. *)
Lemma tracing_store (gba gba' : GBA M) n_in n_stored hi hi' k w a v :
  events gba' = EvStore w a v :: events gba ->
  a = to_u32 (dest0 + k) -> -1 <= k -> k + w <= hi' -> hi <= hi' ->
  tracing t0 src0 skip dest0 gba n_in n_stored hi ->
  tracing t0 src0 skip dest0 gba' n_in (w + n_stored) hi'.
Proof.
  intros Hev' Ha Hk Hkw Hle (new & Hev & Hld & Hlw & Hst & Hsw).
  exists (EvStore w a v :: new). simpl. rewrite Hev', Hev, Hst. split_all.
  - intros width' address [Heq | Hin']; [discriminate | eauto].
  - intros width' address value [Heq | Hin'].
    + injection Heq as <- <- <-. exists k. split_all.
    + destruct (Hsw width' address value Hin') as (k' & ? & ? & ?).
      exists k'. split_all.
Qed.

(** The state after the header word has been read. *)
Lemma decoding_start width (gba : GBA M) dest :
  events gba = t0 -> skip = 0 -> dest = to_u32 dest0 ->
  decoding t0 src0 skip dest0 width (emit (EvLoad 4 Stream (to_u32 src0)) gba)
    (to_u32 (src0 + 4)) dest 4 0.
Proof.
  intros Hev Hskip Hdest. exists [EvLoad 4 Stream (to_u32 src0)]. simpl.
  rewrite Hev, Hskip, Hdest, Z.add_0_r. split_all.
  - intros width' address [Heq | []]. injection Heq as <- <-.
    exists 0. rewrite Z.add_0_r. split_all.
  - unfold out_bytes. destruct (width =? 2); [|reflexivity].
    pose proof (Z.mod_pos_bound dest0 2). lia_mod.
  - intros width' address value [Heq | []]. discriminate.
Qed.

End Tracing.

(** ** Headers *)

Lemma land_shifted_ones z n k :
  0 <= n ->
  Z.land z (Z.shiftl (Z.ones k) n) = Z.shiftl (Z.land (Z.shiftr z n) (Z.ones k)) n.
Proof.
  intros Hn. apply Z.bits_inj'. intros i Hi.
  rewrite Z.land_spec. destruct (Z.lt_ge_cases i n) as [Hlt | Hge].
  - rewrite !Z.shiftl_spec_low by lia. apply andb_false_r.
  - rewrite !Z.shiftl_spec by lia. rewrite Z.land_spec, Z.shiftr_spec by lia.
    replace (i - n + n) with i by lia. reflexivity.
Qed.

Lemma land_FFFFFFFC z : 0 <= z < 2 ^ 32 -> Z.land z 0xFFFFFFFC = 4 * (z / 4).
Proof.
  intros Hz. change 0xFFFFFFFC with (Z.shiftl (Z.ones 30) 2).
  rewrite land_shifted_ones by lia.
  rewrite Z.land_ones, Z.shiftl_mul_pow2, Z.shiftr_div_pow2 by lia.
  change (2 ^ 2) with 4. rewrite Z.mod_small; [lia|].
  change (2 ^ 30) with 1073741824. change (2 ^ 32) with 4294967296 in Hz. lia_mod.
Qed.

Lemma land_3 z : Z.land z 0x3 = z mod 4.
Proof. change 0x3 with (Z.ones 2). apply Z.land_ones. lia. Qed.

Lemma aligned_source_range {M : Type} (gba : GBA M) :
  0 <= aligned_source gba < 2 ^ 32.
Proof.
  unfold aligned_source. pose proof (to_u32_range (gpr gba 0%fin)) as H.
  rewrite land_FFFFFFFC by exact H.
  change (2 ^ 32) with 4294967296 in *. lia_mod.
Qed.

Lemma declared_length_range header :
  0 <= header < 2 ^ 32 -> 0 <= declared_length header < 2 ^ 24.
Proof.
  intros H. unfold declared_length. rewrite Z.shiftr_div_pow2 by lia.
  change (2 ^ 8) with 256. lia_mod.
Qed.

Lemma declared_length_masked header :
  0 <= header < 2 ^ 32 ->
  Z.shiftr (Z.land header 0xFFFFFF00) 8 = declared_length header.
Proof.
  intros H. unfold declared_length. rewrite Z.shiftr_land.
  change (Z.shiftr 0xFFFFFF00 8) with (Z.ones 24).
  rewrite Z.land_ones by lia. apply Z.mod_small.
  apply (declared_length_range header H).
Qed.

Lemma header_at_range {M : Type} {bus : MemoryBus M} (gba : GBA M) source :
  0 <= header_at gba source < 2 ^ 32.
Proof. apply to_u32_range. Qed.

(** ** Run-length decoding *)

Section RunLength.
Context {M : Type} {bus : MemoryBus M}.
Variables (t0 : list event) (src0 dest0 width : Z).

Lemma _unRl_fill_spec (n : nat) (block : Z) :
  forall (s : rl_state M) n_in n_out,
    decoding t0 src0 0 dest0 width (rl_gba s) (rl_source s) (rl_dest s) n_in n_out ->
    0 <= rl_remaining s ->
    let k := Z.min (Z.of_nat n) (rl_remaining s) in
    let s' := _unRl_fill n width block s in
    decoding t0 src0 0 dest0 width (rl_gba s') (rl_source s') (rl_dest s')
      n_in (n_out + k)
    /\ rl_remaining s' = rl_remaining s - k.
Proof.
  induction n as [|n IH]; intros s n_in n_out Hdec Hrem k s'; subst k s'.
  - simpl. rewrite Z.min_l by lia. rewrite Z.add_0_r, Z.sub_0_r. auto.
  - cbn [_unRl_fill]. destruct (Z.eqb_spec (rl_remaining s) 0) as [Hz | Hnz].
    + rewrite Hz, Z.min_r by lia. rewrite Z.add_0_r, Z.sub_0_r. auto.
    + pose proof (decoding_put_byte t0 src0 0 dest0 width (rl_gba s) (rl_source s)
                    (rl_dest s) n_in n_out (rl_halfword s) block Hdec) as Hput.
      destruct (put_byte width (rl_gba s) (rl_dest s) (rl_halfword s) block)
        as [gba halfword].
      simpl in Hput.
      specialize (IH (mkRl gba (rl_source s) (to_u32 (rl_dest s + 1))
                        (rl_remaining s - 1) halfword) n_in (n_out + 1) Hput).
      simpl in IH. destruct IH as [IHdec IHrem]; [lia|].
      split.
      * replace (n_out + Z.min (Z.of_nat (S n)) (rl_remaining s))
          with (n_out + 1 + Z.min (Z.of_nat n) (rl_remaining s - 1)) by lia.
        exact IHdec.
      * rewrite IHrem. lia.
Qed.

Lemma _unRl_copy_spec (n : nat) :
  forall (s : rl_state M) n_in n_out,
    decoding t0 src0 0 dest0 width (rl_gba s) (rl_source s) (rl_dest s) n_in n_out ->
    0 <= rl_remaining s -> 0 <= n_in ->
    let k := Z.min (Z.of_nat n) (rl_remaining s) in
    let s' := _unRl_copy n width s in
    decoding t0 src0 0 dest0 width (rl_gba s') (rl_source s') (rl_dest s')
      (n_in + k) (n_out + k)
    /\ rl_remaining s' = rl_remaining s - k.
Proof.
  induction n as [|n IH]; intros s n_in n_out Hdec Hrem Hin k s'; subst k s'.
  - simpl. rewrite Z.min_l by lia. rewrite !Z.add_0_r, Z.sub_0_r. auto.
  - cbn [_unRl_copy]. destruct (Z.eqb_spec (rl_remaining s) 0) as [Hz | Hnz].
    + rewrite Hz, Z.min_r by lia. rewrite !Z.add_0_r, Z.sub_0_r. auto.
    + unfold loadU8.
      pose proof (decoding_stream_load t0 src0 0 dest0 width (rl_gba s)
                    (rl_source s) (rl_dest s) n_in n_out 1 ltac:(lia) Hin Hdec)
        as Hload.
      set (byte := to_u8 (bus_loadU8 (memory (rl_gba s)) (to_u32 (rl_source s)))).
      pose proof (decoding_put_byte t0 src0 0 dest0 width _ _ _ _ _
                    (rl_halfword s) byte Hload) as Hput.
      destruct (put_byte width (emit (EvLoad 1 Stream (to_u32 (rl_source s))) (rl_gba s))
                  (rl_dest s) (rl_halfword s) byte) as [gba halfword].
      simpl in Hput.
      specialize (IH (mkRl gba (to_u32 (rl_source s + 1)) (to_u32 (rl_dest s + 1))
                        (rl_remaining s - 1) halfword) (n_in + 1) (n_out + 1) Hput).
      simpl in IH. destruct IH as [IHdec IHrem]; [lia | lia |].
      split.
      * replace (n_in + Z.min (Z.of_nat (S n)) (rl_remaining s))
          with (n_in + 1 + Z.min (Z.of_nat n) (rl_remaining s - 1)) by lia.
        replace (n_out + Z.min (Z.of_nat (S n)) (rl_remaining s))
          with (n_out + 1 + Z.min (Z.of_nat n) (rl_remaining s - 1)) by lia.
        exact IHdec.
      * rewrite IHrem. lia.
Qed.

(** A flag byte announces a block of at least one byte. *)
Lemma rl_block_length_pos blockheader :
  0 <= blockheader -> 1 <= rl_block_length blockheader.
Proof.
  intros H. unfold rl_block_length.
  destruct (negb (Z.land blockheader 128 =? 0)); [|lia].
  assert (0 <= Z.land blockheader 127) by (apply Z.land_nonneg; lia). lia.
Qed.

Lemma to_u8_range z : 0 <= to_u8 z < 2 ^ 8.
Proof. unfold to_u8. apply Z.mod_pos_bound. lia. Qed.

(** One pass of the outer loop keeps the invariant and puts out at least
    one byte. *)
Lemma _unRl_body_inv len (s : rl_state M) n_in n_out :
  rl_inv t0 src0 dest0 width len s n_in n_out ->
  0 < rl_remaining s ->
  exists n_in' n_out',
    rl_inv t0 src0 dest0 width len (_unRl_body width s) n_in' n_out'
    /\ n_out < n_out'.
Proof.
  intros (Hdec & Hrem & Hin & Hout) Hpos.
  unfold _unRl_body, loadU8.
  set (blockheader := to_u8 (bus_loadU8 (memory (rl_gba s)) (to_u32 (rl_source s)))).
  pose proof (to_u8_range (bus_loadU8 (memory (rl_gba s)) (to_u32 (rl_source s))))
    as Hbh. fold blockheader in Hbh.
  pose proof (rl_block_length_pos blockheader ltac:(lia)) as Hlen.
  pose proof (decoding_stream_load t0 src0 0 dest0 width (rl_gba s)
                (rl_source s) (rl_dest s) n_in n_out 1 ltac:(lia) ltac:(lia) Hdec)
    as Hload.
  set (k := Z.min (Z.of_nat (Z.to_nat (rl_block_length blockheader))) (rl_remaining s)).
  assert (Hk : 1 <= k <= rl_remaining s) by (unfold k; lia).
  destruct (negb (Z.land blockheader 128 =? 0)).
  - simpl emit.
    assert (Hin1 : 0 <= n_in + 1) by lia.
    pose proof (decoding_stream_load t0 src0 0 dest0 width _ _ _ (n_in + 1) _ 1
                  ltac:(lia) Hin1 Hload) as Hload2.
    match goal with
    | |- context [_unRl_fill ?n ?w ?b ?st] =>
        destruct (_unRl_fill_spec n b st (n_in + 1 + 1) n_out Hload2) as [Hd Hr];
          [simpl; lia|]
    end.
    simpl in Hd, Hr. fold k in Hd, Hr.
    exists (n_in + 1 + 1), (n_out + k). unfold rl_inv. simpl. split; [|lia].
    split; [exact Hd|]. rewrite Hr. lia.
  - match goal with
    | |- context [_unRl_copy ?n ?w ?st] =>
        destruct (_unRl_copy_spec n st (n_in + 1) n_out Hload) as [Hd Hr];
          [simpl; lia | lia |]
    end.
    simpl in Hd, Hr. fold k in Hd, Hr.
    exists (n_in + 1 + k), (n_out + k). unfold rl_inv. simpl. split; [|lia].
    split; [exact Hd|]. rewrite Hr. lia.
Qed.

Lemma _unRl_loop_stop (fuel : nat) (s : rl_state M) :
  rl_remaining s <= 0 -> _unRl_loop fuel width s = Returns s.
Proof.
  intros H. destruct fuel; simpl;
    destruct (Z.gtb_spec (rl_remaining s) 0); (reflexivity || lia).
Qed.

Lemma _unRl_loop_step (fuel : nat) (s : rl_state M) :
  0 < rl_remaining s ->
  _unRl_loop (S fuel) width s = _unRl_loop fuel width (_unRl_body width s).
Proof.
  intros H. simpl. destruct (Z.gtb_spec (rl_remaining s) 0); (reflexivity || lia).
Qed.

Lemma _unRl_passes_stop (fuel : nat) (s : rl_state M) :
  rl_remaining s <= 0 -> _unRl_passes fuel width s = O.
Proof.
  intros H. destruct fuel; simpl;
    destruct (Z.gtb_spec (rl_remaining s) 0); (reflexivity || lia).
Qed.

(** With the invariant, the loop returns within as many passes as bytes
    remain, and all of the declared length has been put out. *)
Lemma _unRl_loop_total len (n : nat) :
  forall (s : rl_state M) n_in n_out,
    rl_inv t0 src0 dest0 width len s n_in n_out ->
    rl_remaining s <= Z.of_nat n ->
    exists s' n_in',
      (forall fuel, (n <= fuel)%nat -> _unRl_loop fuel width s = Returns s')
      /\ rl_inv t0 src0 dest0 width len s' n_in' len
      /\ (forall fuel, (_unRl_passes fuel width s <= n)%nat).
Proof.
  induction n as [|n IH]; intros s n_in n_out Hinv Hle.
  - pose proof Hinv as (_ & Hrem & _ & Hout).
    assert (n_out = len) by lia. subst n_out.
    exists s, n_in. split; [|split]; [| exact Hinv |].
    + intros fuel _. apply _unRl_loop_stop. lia.
    + intros fuel. rewrite _unRl_passes_stop by lia. lia.
  - pose proof Hinv as (_ & Hrem & _ & Hout).
    destruct (Z.le_gt_cases (rl_remaining s) 0) as [Hdone | Hpos].
    + assert (n_out = len) by lia. subst n_out.
      exists s, n_in. split; [|split]; [| exact Hinv |].
      * intros fuel _. apply _unRl_loop_stop. lia.
      * intros fuel. rewrite _unRl_passes_stop by lia. lia.
    + destruct (_unRl_body_inv len s n_in n_out Hinv Hpos)
        as (n_in1 & n_out1 & Hinv1 & Hlt).
      pose proof Hinv1 as (_ & Hrem1 & _).
      destruct (IH _ _ _ Hinv1 ltac:(lia)) as (s' & n_in' & Hrun & Hinv' & Hpass).
      exists s', n_in'. split; [|split]; [| exact Hinv' |].
      * intros [|fuel] Hfuel; [lia|].
        rewrite _unRl_loop_step by exact Hpos. apply Hrun. lia.
      * intros [|fuel]; simpl;
          destruct (Z.gtb_spec (rl_remaining s) 0); try lia.
        specialize (Hpass fuel). lia.
Qed.

End RunLength.

Lemma to_u32_to_s32 z : to_u32 (to_s32 z) = to_u32 z.
Proof.
  unfold to_u32, to_s32.
  rewrite <- (Zminus_mod_idemp_l _ (2 ^ 31)), Z.mod_mod by lia.
  rewrite Zminus_mod_idemp_l. f_equal. lia.
Qed.

Section RunLengthPadding.
Context {M : Type} {bus : MemoryBus M}.
Variables (t0 : list event) (src0 dest0 : Z).

Lemma _unRl_pad8_spec (n : nat) :
  forall (gba : GBA M) dest n_in n_stored hi off,
    tracing t0 src0 0 dest0 gba n_in n_stored hi ->
    dest = to_u32 (dest0 + off) -> -1 <= off -> hi <= off ->
    tracing t0 src0 0 dest0 (fst (_unRl_pad8 n gba dest)) n_in
      (n_stored + Z.of_nat n) (off + Z.of_nat n)
    /\ snd (_unRl_pad8 n gba dest) = to_u32 (dest0 + (off + Z.of_nat n)).
Proof.
  induction n as [|n IH]; intros gba dest n_in n_stored hi off Htr Hdest Hoff Hhi.
  - simpl. rewrite !Z.add_0_r. split; [|exact Hdest].
    eapply tracing_weaken; eauto.
  - cbn [_unRl_pad8].
    assert (Hst : tracing t0 src0 0 dest0 (store8 gba dest 0) n_in (1 + n_stored)
                    (off + 1)).
    { eapply tracing_store; [reflexivity | | exact Hoff | | | exact Htr]; try lia.
      rewrite Hdest. apply to_u32_idem. }
    destruct (IH (store8 gba dest 0) (to_u32 (dest + 1)) n_in (1 + n_stored)
                (off + 1) (off + 1) Hst) as [Htr' Hd']; try lia.
    { rewrite Hdest, to_u32_add_l. f_equal. lia. }
    replace (n_stored + Z.of_nat (S n)) with (1 + n_stored + Z.of_nat n) by lia.
    replace (off + Z.of_nat (S n)) with (off + 1 + Z.of_nat n) by lia.
    split; assumption.
Qed.

Lemma _unRl_pad16_spec (n : nat) :
  forall (gba : GBA M) dest padding n_in n_stored hi off,
    tracing t0 src0 0 dest0 gba n_in n_stored hi ->
    dest = to_u32 (dest0 + off) -> -1 <= off -> hi <= off ->
    padding <= 2 * Z.of_nat n ->
    let bytes := if padding >? 0 then 2 * ((padding + 1) / 2) else 0 in
    tracing t0 src0 0 dest0 (fst (_unRl_pad16 n gba dest padding)) n_in
      (n_stored + bytes) (off + bytes)
    /\ snd (_unRl_pad16 n gba dest padding) = to_u32 (dest0 + (off + bytes)).
Proof.
  induction n as [|n IH];
    intros gba dest padding n_in n_stored hi off Htr Hdest Hoff Hhi Hpad bytes;
    subst bytes.
  - simpl. destruct (Z.gtb_spec padding 0); [lia|].
    rewrite !Z.add_0_r. split; [|exact Hdest]. eapply tracing_weaken; eauto.
  - cbn [_unRl_pad16]. destruct (Z.gtb_spec padding 0) as [Hpos | Hnpos].
    + assert (Hst : tracing t0 src0 0 dest0 (store16 gba dest 0) n_in (2 + n_stored)
                      (off + 2)).
      { eapply tracing_store; [reflexivity | | exact Hoff | | | exact Htr]; try lia.
        rewrite Hdest. apply to_u32_idem. }
      destruct (IH (store16 gba dest 0) (to_u32 (dest + 2)) (padding - 2) n_in
                  (2 + n_stored) (off + 2) (off + 2) Hst) as [Htr' Hd']; try lia.
      { rewrite Hdest, to_u32_add_l. f_equal. lia. }
      assert (Hbytes : 2 + (if padding - 2 >? 0 then 2 * ((padding - 2 + 1) / 2) else 0)
                       = 2 * ((padding + 1) / 2)).
      { destruct (Z.gtb_spec (padding - 2) 0); lia_mod. }
      replace (n_stored + 2 * ((padding + 1) / 2))
        with (2 + n_stored + (if padding - 2 >? 0
                              then 2 * ((padding - 2 + 1) / 2) else 0)) by lia.
      replace (off + 2 * ((padding + 1) / 2))
        with (off + 2 + (if padding - 2 >? 0
                         then 2 * ((padding - 2 + 1) / 2) else 0)) by lia.
      split; assumption.
    + simpl. rewrite !Z.add_0_r. split; [|exact Hdest].
      eapply tracing_weaken; eauto.
Qed.

Lemma rl_padding_range len : 0 <= rl_padding len <= 3.
Proof.
  unfold rl_padding. rewrite land_3. pose proof (Z.mod_pos_bound (4 - len) 4). lia.
Qed.

(** The padding code, after the whole declared length has been put out. *)
Lemma _unRl_pad_spec width len (gba : GBA M) source dest n_in :
  decoding t0 src0 0 dest0 width gba source dest n_in len ->
  tracing t0 src0 0 dest0 (fst (_unRl_pad width gba dest (rl_padding len))) n_in
    (out_bytes width dest0 len + rl_pad_stored width dest0 len)
    (len + rl_pad_advance width dest0 len)
  /\ snd (_unRl_pad width gba dest (rl_padding len))
     = to_u32 (dest0 + (len + rl_pad_advance width dest0 len)).
Proof.
  intros Hdec. pose proof (decoding_tracing _ _ _ _ _ _ _ _ _ _ Hdec) as Htr.
  destruct Hdec as (_ & _ & _ & Hdest & Hlen & _).
  pose proof (rl_padding_range len) as Hpad.
  unfold _unRl_pad, rl_pad_advance, rl_pad_stored.
  destruct (Z.eqb_spec width 2) as [-> | Hwidth].
  - pose proof (to_u32_parity (dest0 + len)) as Hpar. rewrite <- Hdest in Hpar.
    destruct (land_1_cases dest) as [Heven | Hodd].
    + rewrite Heven in *. simpl negb. cbv iota. rewrite <- Hpar, Z.sub_0_r, Z.add_0_l.
      apply (_unRl_pad16_spec _ gba dest (rl_padding len) n_in _ len len Htr Hdest);
        lia.
    + rewrite Hodd in *. simpl negb. cbv iota. rewrite <- Hpar.
      replace (len + (1 + (if rl_padding len - 1 >? 0
                           then 2 * ((rl_padding len - 1 + 1) / 2) else 0)))
        with (len + 1 + (if rl_padding len - 1 >? 0
                         then 2 * ((rl_padding len - 1 + 1) / 2) else 0)) by lia.
      apply (_unRl_pad16_spec _ gba (to_u32 (dest + 1)) (rl_padding len - 1) n_in
               _ len (len + 1) Htr); try lia.
      rewrite Hdest, to_u32_add_l. f_equal. lia.
  - pose proof (_unRl_pad8_spec (Z.to_nat (rl_padding len)) gba dest n_in _ len len
                  Htr Hdest ltac:(lia) ltac:(lia)) as H.
    rewrite Z2Nat.id in H by lia. exact H.
Qed.

End RunLengthPadding.

Section RunLengthRun.
Context {M : Type} {bus : MemoryBus M}.

Lemma _unRl_fill_remaining width block (n : nat) :
  forall s : rl_state M,
    0 <= rl_remaining s ->
    rl_remaining (_unRl_fill n width block s)
    = rl_remaining s - Z.min (Z.of_nat n) (rl_remaining s).
Proof.
  induction n as [|n IH]; intros s Hrem; [simpl; lia|].
  cbn [_unRl_fill]. destruct (Z.eqb_spec (rl_remaining s) 0) as [Hz | Hnz]; [lia|].
  destruct (put_byte width (rl_gba s) (rl_dest s) (rl_halfword s) block) as [gba halfword].
  rewrite IH; simpl; lia.
Qed.

Lemma _unRl_copy_remaining width (n : nat) :
  forall s : rl_state M,
    0 <= rl_remaining s ->
    rl_remaining (_unRl_copy n width s)
    = rl_remaining s - Z.min (Z.of_nat n) (rl_remaining s).
Proof.
  induction n as [|n IH]; intros s Hrem; [simpl; lia|].
  cbn [_unRl_copy]. destruct (Z.eqb_spec (rl_remaining s) 0) as [Hz | Hnz]; [lia|].
  unfold loadU8.
  match goal with
  | |- context [put_byte ?w ?g ?d ?h ?b] => destruct (put_byte w g d h b) as [gba halfword]
  end.
  rewrite IH; simpl; lia.
Qed.

(** Every pass of the outer loop strictly decreases [remaining], and never
    below zero. *)
Lemma _unRl_body_decreases width (s : rl_state M) :
  0 < rl_remaining s ->
  0 <= rl_remaining (_unRl_body width s) < rl_remaining s.
Proof.
  intros Hpos. unfold _unRl_body, loadU8.
  set (blockheader := to_u8 (bus_loadU8 (memory (rl_gba s)) (to_u32 (rl_source s)))).
  pose proof (to_u8_range (bus_loadU8 (memory (rl_gba s)) (to_u32 (rl_source s))))
    as Hbh. fold blockheader in Hbh.
  pose proof (rl_block_length_pos blockheader ltac:(lia)) as Hlen.
  destruct (negb (Z.land blockheader 128 =? 0)).
  - rewrite _unRl_fill_remaining; simpl; lia.
  - rewrite _unRl_copy_remaining; simpl; lia.
Qed.

(** The whole of [_unRl]. *)
Lemma _unRl_run (gba : GBA M) (width : Z) :
  let src0 := aligned_source gba in
  let dest0 := to_u32 (gpr gba 1%fin) in
  let len := declared_length (header_at gba src0) in
  exists gba' n_in,
    (forall fuel, (Z.to_nat len <= fuel)%nat -> _unRl fuel gba width = Returns gba')
    /\ decoded gba gba' src0 0 dest0 n_in
         (out_bytes width dest0 len + rl_pad_stored width dest0 len)
         (len + rl_pad_advance width dest0 len)
         (len + rl_pad_advance width dest0 len)
    /\ 4 <= n_in <= 4 + 2 * len
    /\ (forall fuel,
          (_unRl_passes fuel width (fst (_unRl_init gba)) <= Z.to_nat len)%nat).
Proof.
  intros src0 dest0 len.
  pose proof (aligned_source_range gba) as Hsrc. fold src0 in Hsrc.
  pose proof (declared_length_range _ (header_at_range gba src0)) as Hlen.
  fold len in Hlen.
  set (s0 := mkRl (emit (EvLoad 4 Stream (to_u32 src0)) gba) (to_u32 (src0 + 4))
               (to_u32 (gpr gba 1%fin)) len 0).
  assert (Hinit : _unRl_init gba = (s0, rl_padding len)).
  { unfold _unRl_init, load32. cbn [fst snd].
    rewrite declared_length_masked by apply to_u32_range. reflexivity. }
  unfold _unRl. rewrite Hinit.
  assert (Hinv : rl_inv (events gba) src0 dest0 width len s0 4 0).
  { split; [|simpl; lia].
    apply decoding_start; auto. unfold dest0. symmetry. apply to_u32_idem. }
  destruct (_unRl_loop_total (events gba) src0 dest0 width len (Z.to_nat len)
              s0 4 0 Hinv ltac:(simpl; lia))
    as (s' & n_in & Hrun & (Hdec & Hrem & Hin & _) & Hpass).
  destruct (_unRl_pad_spec (events gba) src0 dest0 width len _ _ _ _ Hdec)
    as [Htr Hdest].
  eexists. exists n_in. split; [|split; [|split]].
  - intros fuel Hfuel. rewrite (Hrun fuel Hfuel). reflexivity.
  - unfold _unRl_exit.
    destruct (_unRl_pad width (rl_gba s') (rl_dest s') (rl_padding len))
      as [gba1 dest1]. simpl in Htr, Hdest.
    split; [|split].
    + eapply tracing_events; [|exact Htr]. reflexivity.
    + rewrite gpr_set_gpr_ne, gpr_set_gpr by discriminate.
      destruct Hdec as (_ & _ & -> & _).
      rewrite to_u32_to_s32. apply to_u32_idem.
    + rewrite gpr_set_gpr, Hdest, to_u32_to_s32. apply to_u32_idem.
  - exact Hin.
  - exact Hpass.
Qed.

(** C10: the run-length decoder terminates on every machine.  A flag byte
    announces a block of at least one byte; every pass of the outer loop
    therefore lowers [remaining], which never falls below zero; the
    decoder returns whenever the fuel is at least the declared length, and
    it never makes more passes of the outer loop than the declared length,
    whatever the fuel. *)
Theorem unRl_terminates (gba : GBA M) (width : Z) :
  let len := declared_length (header_at gba (aligned_source gba)) in
  (forall flag, 0 <= flag < 2 ^ 8 -> 1 <= rl_block_length flag)
  /\ (forall s : rl_state M,
        0 < rl_remaining s ->
        0 <= rl_remaining (_unRl_body width s) < rl_remaining s)
  /\ (exists gba',
        forall fuel, (Z.to_nat len <= fuel)%nat -> _unRl fuel gba width = Returns gba')
  /\ (forall fuel,
        (_unRl_passes fuel width (fst (_unRl_init gba)) <= Z.to_nat len)%nat).
Proof.
  intros len. split; [|split; [|split]].
  - intros flag Hflag. apply rl_block_length_pos. lia.
  - apply _unRl_body_decreases.
  - destruct (_unRl_run gba width) as (gba' & n_in & Hrun & _). exists gba'. exact Hrun.
  - destruct (_unRl_run gba width) as (gba' & n_in & _ & _ & _ & Hpass). exact Hpass.
Qed.

End RunLengthRun.

(** ** LZ77 decoding *)

Section Lz77.
Context {M : Type} {bus : MemoryBus M}.
Variables (t0 : list event) (src0 dest0 width : Z).

Lemma _unLz77_copy_spec (n : nat) :
  forall (gba : GBA M) disp source dest remaining halfword n_in n_out,
    decoding t0 src0 0 dest0 width gba source dest n_in n_out ->
    0 <= remaining ->
    let k := Z.min (Z.of_nat n) remaining in
    let '(gba', dest', remaining', _) :=
      _unLz77_copy n width gba disp dest remaining halfword in
    decoding t0 src0 0 dest0 width gba' source dest' n_in (n_out + k)
    /\ remaining' = remaining - k.
Proof.
  induction n as [|n IH];
    intros gba disp source dest remaining halfword n_in n_out Hdec Hrem.
  - simpl. rewrite Z.min_l by lia. rewrite Z.add_0_r, Z.sub_0_r. auto.
  - cbn [_unLz77_copy]. destruct (Z.eqb_spec remaining 0) as [Hz | Hnz].
    + rewrite Hz, Z.min_r by lia. rewrite Z.add_0_r, Z.sub_0_r.
      split; [exact Hdec | reflexivity].
    + unfold loadU8.
      pose proof (decoding_other_load t0 src0 0 dest0 width gba source dest n_in
                    n_out 1 Window (to_u32 disp) ltac:(discriminate) Hdec) as Hload.
      set (byte := to_u8 (bus_loadU8 (memory gba) (to_u32 disp))).
      pose proof (decoding_put_byte t0 src0 0 dest0 width _ _ _ _ _
                    halfword byte Hload) as Hput.
      destruct (put_byte width (emit (EvLoad 1 Window (to_u32 disp)) gba)
                  dest halfword byte) as [gba1 halfword1].
      simpl in Hput.
      specialize (IH gba1 (to_u32 (disp + 1)) source (to_u32 (dest + 1))
                    (remaining - 1) halfword1 n_in (n_out + 1) Hput ltac:(lia)).
      destruct (_unLz77_copy n width gba1 (to_u32 (disp + 1)) (to_u32 (dest + 1))
                  (remaining - 1) halfword1) as [[[gba' dest'] remaining'] halfword'].
      destruct IH as [IHdec IHrem]. split.
      * replace (n_out + Z.min (Z.of_nat (S n)) remaining)
          with (n_out + 1 + Z.min (Z.of_nat n) (remaining - 1)) by lia.
        exact IHdec.
      * rewrite IHrem. lia.
Qed.

Lemma lz77_bytes_min block : 0 <= block -> 3 <= lz77_bytes block.
Proof.
  intros H. unfold lz77_bytes.
  assert (0 <= Z.shiftr (Z.land block 240) 4).
  { apply Z.shiftr_nonneg. apply Z.land_nonneg. lia. }
  lia.
Qed.

Lemma _unLz77_body_inv len (s : lz77_state M) n_in n_out :
  lz_inv t0 src0 dest0 width len s n_in n_out ->
  0 < lz_remaining s ->
  exists n_in' n_out',
    lz_inv t0 src0 dest0 width len (_unLz77_body width s) n_in' n_out'
    /\ lz_measure (_unLz77_body width s) < lz_measure s.
Proof.
  intros (Hdec & Hrem & Hin & Hout & Hpot) Hpos.
  unfold _unLz77_body, loadU8.
  pose proof (decoding_stream_load t0 src0 0 dest0 width (lz_gba s)
                (lz_source s) (lz_dest s) n_in n_out 1 ltac:(lia) ltac:(lia) Hdec)
    as Hload.
  unfold lz_measure in *.
  destruct (Z.eqb_spec (lz_blocksRemaining s) 0) as [Hzero | Hblocks]; simpl negb;
    cbv iota.
  - (* fetch a flag byte *)
    exists (n_in + 1), n_out. unfold lz_inv, lz_measure. simpl.
    split; [|lia]. split; [exact Hload|]. lia.
  - destruct (negb (Z.land (lz_blockheader s) 128 =? 0)).
    + (* compressed *)
      assert (Hin1 : 0 <= n_in + 1) by lia.
      pose proof (decoding_stream_load t0 src0 0 dest0 width _ _ _ (n_in + 1) _ 1
                    ltac:(lia) Hin1 Hload) as Hload2.
      rewrite to_u32_idem, to_u32_add_l in Hload2.
      replace (lz_source s + 1 + 1) with (lz_source s + 2) in Hload2 by lia.
      set (b0 := to_u8 (bus_loadU8 (memory (lz_gba s)) (to_u32 (lz_source s)))) in *.
      simpl memory.
      set (b1 := to_u8 (bus_loadU8 (memory (lz_gba s)) (to_u32 (lz_source s + 1)))) in *.
      set (block := Z.lor b0 (Z.shiftl b1 8)).
      assert (Hblock : 0 <= block).
      { unfold block. apply Z.lor_nonneg. split.
        - apply to_u8_range.
        - apply Z.shiftl_nonneg. apply to_u8_range. }
      pose proof (lz77_bytes_min block Hblock) as Hbytes.
      pose proof (_unLz77_copy_spec (Z.to_nat (lz77_bytes block)) _
                    (to_u32 (lz_dest s - lz77_displacement block - 1))
                    _ _ (lz_remaining s) (lz_halfword s) _ _ Hload2 ltac:(lia))
        as Hcopy.
      simpl in Hcopy.
      destruct (_unLz77_copy (Z.to_nat (lz77_bytes block)) width _ _ _ _ _)
        as [[[gba' dest'] remaining'] halfword'].
      destruct Hcopy as [Hd Hr].
      set (k := Z.min (Z.of_nat (Z.to_nat (lz77_bytes block))) (lz_remaining s)) in *.
      assert (Hk : 1 <= k <= lz_remaining s) by (unfold k; lia).
      exists (n_in + 1 + 1), (n_out + k). unfold lz_inv, lz_measure. simpl.
      split; [|destruct (lz_blocksRemaining s - 1 =? 0); lia].
      split; [exact Hd|].
      destruct (lz_blocksRemaining s - 1 =? 0); lia.
    + (* literal *)
      set (byte := to_u8 (bus_loadU8 (memory (lz_gba s)) (to_u32 (lz_source s)))).
      pose proof (decoding_put_byte t0 src0 0 dest0 width _ _ _ _ _
                    (lz_halfword s) byte Hload) as Hput.
      destruct (put_byte width (emit (EvLoad 1 Stream (to_u32 (lz_source s))) (lz_gba s))
                  (lz_dest s) (lz_halfword s) byte) as [gba' halfword'].
      simpl in Hput.
      exists (n_in + 1), (n_out + 1). unfold lz_inv, lz_measure. simpl.
      split; [|destruct (lz_blocksRemaining s - 1 =? 0); lia].
      split; [exact Hput|].
      destruct (lz_blocksRemaining s - 1 =? 0); lia.
Qed.

Lemma _unLz77_loop_stop (fuel : nat) (s : lz77_state M) :
  lz_remaining s <= 0 -> _unLz77_loop fuel width s = Returns s.
Proof.
  intros H. destruct fuel; simpl;
    destruct (Z.gtb_spec (lz_remaining s) 0); (reflexivity || lia).
Qed.

Lemma _unLz77_loop_step (fuel : nat) (s : lz77_state M) :
  0 < lz_remaining s ->
  _unLz77_loop (S fuel) width s = _unLz77_loop fuel width (_unLz77_body width s).
Proof.
  intros H. simpl. destruct (Z.gtb_spec (lz_remaining s) 0); (reflexivity || lia).
Qed.

Lemma _unLz77_loop_total len (n : nat) :
  forall (s : lz77_state M) n_in n_out,
    lz_inv t0 src0 dest0 width len s n_in n_out ->
    lz_measure s <= Z.of_nat n ->
    exists s' n_in',
      (forall fuel, (n <= fuel)%nat -> _unLz77_loop fuel width s = Returns s')
      /\ lz_inv t0 src0 dest0 width len s' n_in' len.
Proof.
  induction n as [|n IH]; intros s n_in n_out Hinv Hle.
  - pose proof Hinv as (_ & Hrem & _ & Hout & _).
    assert (n_out = len).
    { unfold lz_measure in Hle. destruct (lz_blocksRemaining s =? 0); lia. }
    subst n_out. exists s, n_in. split; [| exact Hinv].
    intros fuel _. apply _unLz77_loop_stop. lia.
  - pose proof Hinv as (_ & Hrem & _ & Hout & _).
    destruct (Z.le_gt_cases (lz_remaining s) 0) as [Hdone | Hpos].
    + assert (n_out = len) by lia. subst n_out.
      exists s, n_in. split; [| exact Hinv].
      intros fuel _. apply _unLz77_loop_stop. lia.
    + destruct (_unLz77_body_inv len s n_in n_out Hinv Hpos)
        as (n_in1 & n_out1 & Hinv1 & Hlt).
      destruct (IH _ _ _ Hinv1 ltac:(lia)) as (s' & n_in' & Hrun & Hinv').
      exists s', n_in'. split; [| exact Hinv'].
      intros [|fuel] Hfuel; [lia|].
      rewrite _unLz77_loop_step by exact Hpos. apply Hrun. lia.
Qed.

End Lz77.

Section Lz77Run.
Context {M : Type} {bus : MemoryBus M}.

(** The whole of [_unLz77]. *)
Lemma _unLz77_run (junk : Z) (gba : GBA M) (width : Z) :
  let src0 := to_u32 (gpr gba 0%fin) in
  let dest0 := to_u32 (gpr gba 1%fin) in
  let len := declared_length (header_at gba src0) in
  exists gba' n_in,
    (forall fuel, (Z.to_nat (2 * len + 1) <= fuel)%nat ->
                  _unLz77 fuel junk gba width = Returns gba')
    /\ decoded gba gba' src0 0 dest0 n_in (out_bytes width dest0 len) len len
    /\ 4 <= n_in <= 4 + 2 * (2 * len + 1)
    /\ gpr gba' 3%fin = 0.
Proof.
  intros src0 dest0 len.
  pose proof (declared_length_range _ (header_at_range gba src0)) as Hlen.
  fold len in Hlen.
  set (s0 := mkLz77 (emit (EvLoad 4 Stream (to_u32 src0)) gba) (to_u32 (src0 + 4))
               dest0 len 0 0 junk).
  assert (Hinit : _unLz77_init junk gba = s0).
  { unfold _unLz77_init, load32. cbn [fst snd].
    rewrite declared_length_masked by apply to_u32_range. reflexivity. }
  assert (Hinv : lz_inv (events gba) src0 dest0 width len s0 4 0).
  { split; [|unfold lz_measure; simpl; lia].
    apply decoding_start; auto. unfold dest0. symmetry. apply to_u32_idem. }
  destruct (_unLz77_loop_total (events gba) src0 dest0 width len
              (Z.to_nat (2 * len + 1)) s0 4 0 Hinv
              ltac:(unfold lz_measure; simpl; lia))
    as (s' & n_in & Hrun & (Hdec & Hrem & Hin & _ & Hpot)).
  exists (_unLz77_exit s'), n_in. split; [|split; [|split]].
  - intros fuel Hfuel. unfold _unLz77. rewrite Hinit, (Hrun fuel Hfuel). reflexivity.
  - unfold _unLz77_exit. split; [|split].
    + eapply tracing_events; [|apply (decoding_tracing _ _ _ _ _ _ _ _ _ _ Hdec)].
      reflexivity.
    + rewrite !gpr_set_gpr_ne, gpr_set_gpr by discriminate.
      destruct Hdec as (_ & _ & -> & _).
      rewrite to_u32_to_s32. apply to_u32_idem.
    + rewrite gpr_set_gpr_ne, gpr_set_gpr by discriminate.
      destruct Hdec as (_ & _ & _ & -> & _).
      rewrite to_u32_to_s32. apply to_u32_idem.
  - unfold lz_measure in Hpot. destruct (lz_blocksRemaining s' =? 0); lia.
  - unfold _unLz77_exit. rewrite gpr_set_gpr. reflexivity.
Qed.

End Lz77Run.

(** ** UnFilter decoding *)

Section UnFilterRun.
Context {M : Type} {bus : MemoryBus M}.
Variables (t0 : list event) (src0 dest0 : Z).

Lemma _unFilter_body_inv inwidth outwidth len (s : unfilter_state M) n_in n_out :
  In (inwidth, outwidth) [(1, 1); (1, 2); (2, 2)] ->
  src0 mod 2 = 0 -> len < 2 ^ 24 ->
  uf_inv t0 src0 dest0 inwidth outwidth len s n_in n_out ->
  0 < uf_remaining s ->
  exists n_in' n_out',
    uf_inv t0 src0 dest0 inwidth outwidth len (_unFilter_body inwidth outwidth s)
      n_in' n_out'
    /\ (len - n_out') + (if outwidth >? inwidth then 1 - n_in' mod 2 else 0)
       < (len - n_out) + (if outwidth >? inwidth then 1 - n_in mod 2 else 0).
Proof.
  intros Hw Hsrc0 Hlen (Hdec & Hrem & Hin & Hrel & Hmod & Hout & Hmid) Hpos.
  pose proof Hdec as (_ & _ & _ & _ & Hn_out & _).
  assert (Hs1 : to_s32 (uf_remaining s - 1) = uf_remaining s - 1)
    by (apply to_s32_small; lia).
  assert (Hs2 : to_s32 (uf_remaining s - 2) = uf_remaining s - 2)
    by (apply to_s32_small; lia).
  pose proof (decoding_stream_load t0 src0 0 dest0 1 (uf_gba s)
                (uf_source s) (uf_dest s) n_in n_out) as Hload.
  pose proof Hdec as (_ & _ & Hsource & _).
  pose proof (to_u32_parity (src0 + n_in)) as Hpar. rewrite <- Hsource in Hpar.
  simpl in Hw. destruct Hw as [Hw | [Hw | [Hw | []]]]; injection Hw as <- <-;
    unfold _unFilter_body, loadU8, loadU16; simpl.
  - specialize (Hload 1 ltac:(lia) ltac:(lia) Hdec).
    match goal with
    | |- context [store8 ?g ?d ?v] =>
        pose proof (decoding_store t0 src0 0 dest0 1 g (store8 g d v) _ _ _ _ 1 _
                      ltac:(lia) ltac:(lia) eq_refl Hload) as Hst
    end.
    exists (n_in + 1), (n_out + 1). unfold uf_inv. simpl. rewrite Hs1.
    split; [|lia]. split; [exact Hst|]. lia_mod.
  - specialize (Hload 1 ltac:(lia) ltac:(lia) Hdec).
    destruct (land_1_cases (uf_source s)) as [Hp | Hp]; rewrite Hp in *; simpl.
    + exists (n_in + 1), n_out. unfold uf_inv. simpl.
      split; [|lia_mod]. split; [exact Hload|]. lia_mod.
    + match goal with
      | |- context [store16 ?g ?d ?v] =>
          pose proof (decoding_store t0 src0 0 dest0 1 g (store16 g d v) _ _ _ _ 2 _
                        ltac:(lia) ltac:(lia) eq_refl Hload) as Hst
      end.
      exists (n_in + 1), (n_out + 2). unfold uf_inv. simpl. rewrite Hs2.
      split; [|lia_mod]. split; [exact Hst|]. lia_mod.
  - specialize (Hload 2 ltac:(lia) ltac:(lia) Hdec).
    match goal with
    | |- context [store16 ?g ?d ?v] =>
        pose proof (decoding_store t0 src0 0 dest0 1 g (store16 g d v) _ _ _ _ 2 _
                      ltac:(lia) ltac:(lia) eq_refl Hload) as Hst
    end.
    exists (n_in + 2), (n_out + 2). unfold uf_inv. simpl. rewrite Hs2.
    split; [|lia]. split; [exact Hst|]. lia_mod.
Qed.

Lemma _unFilter_loop_stop inwidth outwidth (fuel : nat) (s : unfilter_state M) :
  uf_remaining s <= 0 -> _unFilter_loop fuel inwidth outwidth s = Returns s.
Proof.
  intros H. destruct fuel; simpl;
    destruct (Z.gtb_spec (uf_remaining s) 0); (reflexivity || lia).
Qed.

Lemma _unFilter_loop_step inwidth outwidth (fuel : nat) (s : unfilter_state M) :
  0 < uf_remaining s ->
  _unFilter_loop (S fuel) inwidth outwidth s
  = _unFilter_loop fuel inwidth outwidth (_unFilter_body inwidth outwidth s).
Proof.
  intros H. simpl. destruct (Z.gtb_spec (uf_remaining s) 0); (reflexivity || lia).
Qed.

Lemma _unFilter_loop_total inwidth outwidth len (n : nat) :
  In (inwidth, outwidth) [(1, 1); (1, 2); (2, 2)] ->
  src0 mod 2 = 0 -> len < 2 ^ 24 ->
  forall (s : unfilter_state M) n_in n_out,
    uf_inv t0 src0 dest0 inwidth outwidth len s n_in n_out ->
    (len - n_out) + (if outwidth >? inwidth then 1 - n_in mod 2 else 0)
    <= Z.of_nat n ->
    exists s' n_in' n_out',
      (forall fuel, (n <= fuel)%nat ->
                    _unFilter_loop fuel inwidth outwidth s = Returns s')
      /\ uf_inv t0 src0 dest0 inwidth outwidth len s' n_in' n_out'
      /\ uf_remaining s' <= 0.
Proof.
  intros Hw Hsrc0 Hlen.
  induction n as [|n IH]; intros s n_in n_out Hinv Hle;
    pose proof Hinv as (_ & Hrem & _);
    destruct (Z.le_gt_cases (uf_remaining s) 0) as [Hdone | Hpos].
  - exists s, n_in, n_out. split; [|split]; auto.
    intros fuel _. apply _unFilter_loop_stop. exact Hdone.
  - exfalso. destruct (outwidth >? inwidth); lia_mod.
  - exists s, n_in, n_out. split; [|split]; auto.
    intros fuel _. apply _unFilter_loop_stop. exact Hdone.
  - destruct (_unFilter_body_inv inwidth outwidth len s n_in n_out Hw Hsrc0 Hlen
                Hinv Hpos) as (n_in1 & n_out1 & Hinv1 & Hlt).
    destruct (IH _ _ _ Hinv1 ltac:(lia)) as (s' & n_in' & n_out' & Hrun & Hinv' & Hend).
    exists s', n_in', n_out'. split; [|split]; auto.
    intros [|fuel] Hfuel; [lia|].
    rewrite _unFilter_loop_step by exact Hpos. apply Hrun. lia.
Qed.

End UnFilterRun.

Section UnFilterWhole.
Context {M : Type} {bus : MemoryBus M}.

(** The whole of [_unFilter], for the three width combinations. *)
Lemma _unFilter_run (gba : GBA M) (inwidth outwidth : Z) :
  In (inwidth, outwidth) [(1, 1); (1, 2); (2, 2)] ->
  let src0 := aligned_source gba in
  let dest0 := to_u32 (gpr gba 1%fin) in
  let len := declared_length (header_at gba src0) in
  let n_out := outwidth * ((len + outwidth - 1) / outwidth) in
  exists gba',
    (forall fuel, (Z.to_nat (len + 1) <= fuel)%nat ->
                  _unFilter fuel gba inwidth outwidth = Returns gba')
    /\ decoded gba gba' src0 0 dest0 (4 + n_out) n_out n_out n_out.
Proof.
  intros Hw src0 dest0 len n_out.
  pose proof (declared_length_range _ (header_at_range gba src0)) as Hlen.
  fold len in Hlen.
  assert (Hsrc0 : src0 mod 2 = 0).
  { unfold src0, aligned_source. rewrite land_FFFFFFFC by apply to_u32_range.
    lia_mod. }
  set (s0 := mkUnFilter (emit (EvLoad 4 Stream (to_u32 src0)) gba)
               (to_u32 (src0 + 4)) dest0 len 0 0).
  assert (Hinit : _unFilter_init gba = s0) by reflexivity.
  assert (Hcases : (inwidth = 1 \/ inwidth = 2) /\ (outwidth = 1 \/ outwidth = 2)
                   /\ inwidth <= outwidth).
  { simpl in Hw. destruct Hw as [Hw | [Hw | [Hw | []]]]; injection Hw as <- <-; lia. }
  assert (Hinv : uf_inv (events gba) src0 dest0 inwidth outwidth len s0 4 0).
  { split; [|simpl; replace (4 - 4) with 0 by lia;
             destruct Hcases as ([-> | ->] & [-> | ->] & _); simpl; lia_mod].
    apply decoding_start; auto. unfold dest0. symmetry. apply to_u32_idem. }
  destruct (_unFilter_loop_total (events gba) src0 dest0 inwidth outwidth len
              (Z.to_nat (len + 1)) Hw Hsrc0 ltac:(lia) s0 4 0 Hinv
              ltac:(destruct (outwidth >? inwidth); simpl; lia_mod))
    as (s' & n_in' & n_out' & Hrun & (Hdec & Hrem & Hin & Hrel & Hmod & Hout & Hmid)
        & Hend).
  assert (Hfinal : n_out' = n_out /\ n_in' = 4 + n_out).
  { unfold n_out. destruct Hcases as ([-> | ->] & [-> | ->] & Hle);
      try lia; lia_mod. }
  destruct Hfinal as [-> ->].
  exists (_unFilter_exit s'). split.
  - intros fuel Hfuel. unfold _unFilter. rewrite Hinit, (Hrun fuel Hfuel). reflexivity.
  - unfold _unFilter_exit. split; [|split].
    + eapply tracing_events; [|apply (decoding_tracing _ _ _ _ _ _ _ _ _ _ Hdec)].
      reflexivity.
    + rewrite gpr_set_gpr_ne, gpr_set_gpr by discriminate.
      destruct Hdec as (_ & _ & -> & _).
      rewrite to_u32_to_s32. apply to_u32_idem.
    + rewrite gpr_set_gpr.
      destruct Hdec as (_ & _ & _ & -> & _).
      rewrite to_u32_to_s32. apply to_u32_idem.
Qed.

End UnFilterWhole.

(** ** Huffman decoding *)

Section Huffman.
Context {M : Type} {bus : MemoryBus M}.
Variables (t0 : list event) (src0 dest0 : Z).

(** The stream cursor steps over [k] bytes without loading them. *)
Lemma decoding_skip skip width (gba : GBA M) source dest n_in n_out k :
  0 <= k ->
  decoding t0 src0 skip dest0 width gba source dest n_in n_out ->
  decoding t0 src0 (skip + k) dest0 width gba (to_u32 (source + k)) dest
    (n_in + k) n_out.
Proof.
  intros Hk (new & Hev & Hsrc & Hdst & Hout & Hld & Hlw & Hst & Hsw).
  exists new. rewrite Hsrc, to_u32_add_l, Z.add_assoc. split_all.
  eapply loads_within_weaken; [|exact Hlw]. lia.
Qed.

Lemma _unHuffman_bit_inv skip len4 bits treeBase bitstream
    (s : huffman_state M) n_in n_out :
  hf_inv t0 src0 skip dest0 len4 s n_in n_out ->
  0 < hf_remaining s ->
  exists n_out',
    hf_inv t0 src0 skip dest0 len4 (_unHuffman_bit bits treeBase bitstream s)
      n_in n_out'.
Proof.
  intros (Hdec & Hrem & Hin & Hpos & Hmod) Hgt.
  unfold _unHuffman_bit, load8.
  set (next := to_u32 (Z.land (hf_nPointer s) 4294967294
                       + HuffmanNodeGetOffset (hf_node s) * 2 + 2)).
  set (right := negb (Z.land bitstream 2147483648 =? 0)).
  set (child := if right then to_u32 (next + 1) else next).
  destruct (if right then HuffmanNodeIsRTerm (hf_node s)
            else HuffmanNodeIsLTerm (hf_node s)).
  - pose proof (decoding_other_load t0 src0 skip dest0 1 _ _ _ _ _ 1 Tree
                  (to_u32 child) ltac:(discriminate) Hdec) as Hl1.
    pose proof (decoding_other_load t0 src0 skip dest0 1 _ _ _ _ _ 1 Tree
                  (to_u32 treeBase) ltac:(discriminate) Hl1) as Hl2.
    simpl. destruct (hf_bitsSeen s + bits =? 32).
    + match goal with
      | |- context [store32 ?g ?d ?v] =>
          pose proof (decoding_store t0 src0 skip dest0 1 g (store32 g d v) _ _ _ _ 4 _
                        ltac:(lia) ltac:(lia) eq_refl Hl2) as Hst
      end.
      exists (n_out + 4). unfold hf_inv. simpl.
      split; [exact Hst|]. split; [lia|]. split; [lia|]. lia_mod.
    + exists n_out. unfold hf_inv. simpl. split_all.
  - pose proof (decoding_other_load t0 src0 skip dest0 1 _ _ _ _ _ 1 Tree
                  (to_u32 child) ltac:(discriminate) Hdec) as Hl1.
    exists n_out. unfold hf_inv. simpl. split_all.
Qed.

Lemma _unHuffman_word_inv skip len4 bits treeBase (n : nat) :
  forall bitstream (s : huffman_state M) n_in n_out,
    hf_inv t0 src0 skip dest0 len4 s n_in n_out ->
    exists n_out',
      hf_inv t0 src0 skip dest0 len4 (_unHuffman_word n bits treeBase bitstream s)
        n_in n_out'.
Proof.
  induction n as [|n IH]; intros bitstream s n_in n_out Hinv.
  - exists n_out. exact Hinv.
  - cbn [_unHuffman_word]. destruct (Z.gtb_spec (hf_remaining s) 0) as [Hgt | Hle].
    + destruct (_unHuffman_bit_inv skip len4 bits treeBase bitstream s n_in n_out
                  Hinv Hgt) as (n_out1 & Hinv1).
      apply (IH _ _ _ _ Hinv1).
    + exists n_out. exact Hinv.
Qed.

Lemma _unHuffman_body_inv skip len4 bits treeBase (s : huffman_state M) n_in n_out :
  hf_inv t0 src0 skip dest0 len4 s n_in n_out ->
  exists n_out',
    hf_inv t0 src0 skip dest0 len4 (_unHuffman_body bits treeBase s)
      (n_in + 4) n_out'.
Proof.
  intros (Hdec & Hrem & Hin & Hpos & Hmod).
  unfold _unHuffman_body, load32.
  apply _unHuffman_word_inv with (n_out := n_out).
  unfold hf_inv. simpl. split; [|split_all].
  apply decoding_stream_load; auto. lia.
Qed.

(** If the loop returns, all of the rounded length has been put out. *)
Lemma _unHuffman_loop_inv skip len4 bits treeBase (fuel : nat) :
  forall (s s' : huffman_state M) n_in n_out,
    _unHuffman_loop fuel bits treeBase s = Returns s' ->
    hf_inv t0 src0 skip dest0 len4 s n_in n_out ->
    exists n_in', n_in <= n_in' /\ hf_inv t0 src0 skip dest0 len4 s' n_in' len4.
Proof.
  induction fuel as [|fuel IH]; intros s s' n_in n_out Hrun Hinv;
    simpl in Hrun; destruct (Z.gtb_spec (hf_remaining s) 0) as [Hgt | Hle];
    try discriminate.
  - injection Hrun as <-. exists n_in. split; [lia|].
    destruct Hinv as (Hdec & Hrem & Hin & Hpos & Hmod).
    assert (n_out = len4) by lia. subst n_out. unfold hf_inv. split_all.
  - destruct (_unHuffman_body_inv skip len4 bits treeBase s n_in n_out Hinv)
      as (n_out1 & Hinv1).
    destruct (IH _ _ _ _ Hrun Hinv1) as (n_in' & Hle & Hinv').
    exists n_in'. split; [lia | exact Hinv'].
  - injection Hrun as <-. exists n_in. split; [lia|].
    destruct Hinv as (Hdec & Hrem & Hin & Hpos & Hmod).
    assert (n_out = len4) by lia. subst n_out. unfold hf_inv. split_all.
Qed.

End Huffman.

Section HuffmanRun.
Context {M : Type} {bus : MemoryBus M}.

(** The whole of [_unHuffman], when the symbol width passes the check and
    the run returns. *)
Lemma _unHuffman_run (fuel : nat) (gba gba' : GBA M) :
  let src0 := aligned_source gba in
  let dest0 := to_u32 (gpr gba 1%fin) in
  let header := header_at gba src0 in
  let len := declared_length header in
  let treesize := huffman_treesize gba src0 in
  symbol_width header <> 0 ->
  Z.rem 32 (symbol_width header) = 0 ->
  _unHuffman fuel gba = Returns gba' ->
  exists n_in,
    5 + treesize <= n_in
    /\ decoded gba gba' src0 treesize dest0 n_in
         (4 * ((len + 3) / 4)) (4 * ((len + 3) / 4)) (4 * (len / 4)).
Proof.
  intros src0 dest0 header len treesize Hw0 Hrem Hrun.
  pose proof (declared_length_range _ (header_at_range gba src0)) as Hlen.
  fold header in Hlen. fold len in Hlen.
  assert (Hsize : 1 <= treesize).
  { unfold treesize, huffman_treesize, loadU8. cbn [fst].
    rewrite Z.shiftl_mul_pow2 by lia.
    pose proof (to_u8_range (bus_loadU8 (memory gba) (to_u32 (src0 + 4)))). lia. }
  apply Z.eqb_neq in Hw0. apply Z.eqb_eq in Hrem.
  unfold _unHuffman, load32, loadU8, load8 in Hrun. cbn [fst snd] in Hrun.
  change (Z.land (to_u32 (to_s32 (bus_load32 (memory gba)
                                    (to_u32 (Z.land (to_u32 (gpr gba 0%fin)) 4294967292)))))
            15) with (symbol_width header) in Hrun.
  rewrite Hw0, Hrem in Hrun. cbn [negb] in Hrun.
  change (Z.land (to_u32 (gpr gba 0%fin)) 4294967292) with src0 in Hrun.
  change (to_u32 (to_s32 (bus_load32 (memory gba) (to_u32 src0)))) with header in Hrun.
  fold (declared_length header) in Hrun. fold len in Hrun.
  change (Z.shiftl (to_u8 (bus_loadU8 (memory (emit (EvLoad 4 Stream (to_u32 src0)) gba))
                             (to_u32 (src0 + 4)))) 1 + 1)
    with treesize in Hrun.
  rewrite land_FFFFFFFC in Hrun by lia.
  rewrite land_3 in Hrun.
  match type of Hrun with
  | match _unHuffman_loop _ _ _ ?s0 with _ => _ end = _ =>
      assert (Hinv : hf_inv (events gba) src0 (0 + treesize) dest0 (4 * (len / 4)) s0
                       (4 + 1 + treesize) 0)
  end.
  { unfold hf_inv. cbn [hf_gba hf_source hf_dest hf_remaining].
    split; [|split; [|split; [|split]]];
      try lia; try lia_mod.
    apply decoding_other_load; [discriminate|].
    replace (to_u32 (src0 + (5 + treesize)))
      with (to_u32 (to_u32 (to_u32 (src0 + 4) + 1) + treesize)).
    2:{ rewrite to_u32_add_l, <- Z.add_assoc, to_u32_add_l. f_equal. lia. }
    apply decoding_skip; [lia|].
    rewrite <- (to_u32_idem (src0 + 4)) at 1.
    apply decoding_stream_load; [lia | lia |].
    apply decoding_start; auto. unfold dest0. symmetry. apply to_u32_idem. }
  destruct (_unHuffman_loop fuel _ _ _) as [s | |] eqn:Hloop; try discriminate.
  injection Hrun as <-.
  destruct (_unHuffman_loop_inv (events gba) src0 dest0 _ _ _ _ fuel _ _ _ _ Hloop Hinv)
    as (n_in & Hn_in & (Hdec & Hrem' & _)).
  exists n_in. split; [lia|].
  pose proof (decoding_tracing _ _ _ _ _ _ _ _ _ _ Hdec) as Htr.
  simpl out_bytes in Htr. rewrite Z.add_0_l in Htr.
  pose proof Hdec as (_ & _ & Hsource & Hdest & _).
  split; [|split].
  - destruct (Z.eqb_spec ((4 - len) mod 4) 0) as [Hpad | Hpad]; cbn [negb].
    + replace (4 * ((len + 3) / 4)) with (4 * (len / 4)) by lia_mod.
      eapply tracing_events; [|exact Htr]. reflexivity.
    + replace (4 * ((len + 3) / 4)) with (4 + 4 * (len / 4)) by lia_mod.
      eapply tracing_events; [reflexivity|].
      eapply tracing_store with (k := 4 * (len / 4));
        [reflexivity | | | | | exact Htr]; try lia_mod.
      rewrite Hdest. apply to_u32_idem.
  - rewrite gpr_set_gpr_ne, gpr_set_gpr by discriminate.
    rewrite Hsource, to_u32_to_s32. apply to_u32_idem.
  - rewrite gpr_set_gpr. rewrite Hdest, to_u32_to_s32. apply to_u32_idem.
Qed.

End HuffmanRun.

(** ** Huffman: a walk that finds no leaf

    Nothing bounds the descent through the tree.  Where no byte that the
    bus returns has a leaf flag set, no symbol is ever produced,
    [remaining] stays as it is and the outer loop does not end. *)

Section HuffmanEndless.
Context {M : Type} {bus : MemoryBus M}.
Variable m : M.
Hypothesis no_leaf : forall a, inner_node (to_u8 (to_s8 (bus_load8 m a))) = true.

Lemma _unHuffman_bit_endless bits treeBase bitstream (s : huffman_state M) :
  hf_endless m s -> hf_endless m (_unHuffman_bit bits treeBase bitstream s).
Proof.
  intros (Hm & Hnode & Hrem). unfold inner_node in Hnode.
  apply andb_prop in Hnode. destruct Hnode as [Hr Hl].
  apply negb_true_iff in Hr. apply negb_true_iff in Hl.
  unfold _unHuffman_bit. rewrite Hr, Hl.
  destruct (negb (Z.land bitstream 0x80000000 =? 0));
    unfold hf_endless, load8; cbn [fst snd hf_gba hf_node hf_remaining];
    simpl memory; rewrite Hm; auto.
Qed.

Lemma _unHuffman_word_endless bits treeBase (n : nat) :
  forall bitstream (s : huffman_state M),
    hf_endless m s -> hf_endless m (_unHuffman_word n bits treeBase bitstream s).
Proof.
  induction n as [|n IH]; intros bitstream s Hs; simpl; [exact Hs|].
  destruct (hf_remaining s >? 0); [|exact Hs].
  apply IH. apply _unHuffman_bit_endless. exact Hs.
Qed.

Lemma _unHuffman_body_endless bits treeBase (s : huffman_state M) :
  hf_endless m s -> hf_endless m (_unHuffman_body bits treeBase s).
Proof.
  intros (Hm & Hnode & Hrem). unfold _unHuffman_body, load32. cbn [fst snd].
  apply _unHuffman_word_endless. unfold hf_endless. simpl. auto.
Qed.

(** Whatever the fuel, the loop uses it up. *)
Lemma _unHuffman_loop_endless bits treeBase (fuel : nat) :
  forall s : huffman_state M,
    hf_endless m s -> _unHuffman_loop fuel bits treeBase s = OutOfFuel.
Proof.
  induction fuel as [|fuel IH]; intros s Hs; pose proof Hs as (_ & _ & Hrem);
    simpl; destruct (Z.gtb_spec (hf_remaining s) 0); try lia; [reflexivity|].
  apply IH. apply _unHuffman_body_endless. exact Hs.
Qed.

End HuffmanEndless.

Section HuffmanEndlessCall.
Context {M : Type} {bus : MemoryBus M}.

(** A Huffman call with a symbol width that divides 32 and a declared
    length of 4 or more, over a memory without a leaf, does not return. *)
Lemma _unHuffman_endless (fuel : nat) (gba : GBA M) :
  let header := header_at gba (aligned_source gba) in
  symbol_width header <> 0 ->
  Z.rem 32 (symbol_width header) = 0 ->
  4 <= declared_length header ->
  (forall a, inner_node (to_u8 (to_s8 (bus_load8 (memory gba) a))) = true) ->
  _unHuffman fuel gba = OutOfFuel.
Proof.
  intros header Hw Hrem Hlen Hleaf. unfold _unHuffman.
  unfold header, symbol_width, declared_length, header_at, aligned_source in *.
  simpl in Hw, Hrem, Hlen. simpl.
  apply Z.eqb_neq in Hw. apply Z.eqb_eq in Hrem. rewrite Hw, Hrem. simpl.
  rewrite (_unHuffman_loop_endless (memory gba) Hleaf); [reflexivity|].
  unfold hf_endless. simpl. split; [reflexivity|]. split; [apply Hleaf|].
  match goal with
  | |- 0 < Z.land ?r _ =>
      pose proof (to_u32_range (to_s32 (bus_load32 (memory gba)
        (to_u32 (Z.land (to_u32 (gpr gba 0%fin)) 0xFFFFFFFC))))) as Hh;
      assert (Hr : 0 <= r < 2 ^ 32)
  end.
  { split; [apply Z.shiftr_nonneg; lia|].
    rewrite Z.shiftr_div_pow2 by lia. change (2 ^ 8) with 256.
    change (2 ^ 32) with 4294967296 in *. lia_mod. }
  rewrite (land_FFFFFFFC _ Hr). lia_mod.
Qed.

End HuffmanEndlessCall.

(** SWI 0x13 over [huffman_demo_endless] runs out of any fuel. *)
Lemma huffman_demo_endless_runs_on (fuel : nat) :
  _unHuffman fuel huffman_demo_endless = OutOfFuel.
Proof.
  apply _unHuffman_endless.
  - vm_compute. discriminate.
  - vm_compute. reflexivity.
  - vm_compute. discriminate.
  - intros a. simpl. unfold ram_get, ram_of_bytes, ram_place. cbn [length].
    destruct ((0x02000000 <=? to_u32 a) && (to_u32 a <? 0x02000000 + Z.of_nat 2));
      [|reflexivity].
    destruct (Z.to_nat (to_u32 a - 0x02000000)) as [|[|[|n]]]; reflexivity.
Qed.

(** ** The scenarios of the specification, run *)

Example Div_100_by_7 :
  on_return (fun gba => (gpr gba 0%fin, gpr gba 1%fin, gpr gba 3%fin))
    (_Div (machine 100 7 0 0 (ram_of_bytes 0 []) false) 100 7)
  = Some (14, 2, 14).
Proof. vm_compute. reflexivity. Qed.

Example Div_minus_100_by_7 :
  on_return (fun gba => (gpr gba 0%fin, gpr gba 1%fin, gpr gba 3%fin))
    (_Div (machine (-100) 7 0 0 (ram_of_bytes 0 []) false) (-100) 7)
  = Some (-14, -2, 14).
Proof. vm_compute. reflexivity. Qed.

Example Div_5_by_0 :
  on_return (fun gba => (gpr gba 0%fin, gpr gba 1%fin, gpr gba 3%fin))
    (_Div (machine 5 0 0 0 (ram_of_bytes 0 []) false) 5 0)
  = Some (1, 5, 1).
Proof. vm_compute. reflexivity. Qed.

(** Eight literals: r0 moves on by 13 and r1 by 8. *)
Example lz77_scenario_literals :
  on_return (decode_result 8) (_unLz77 9 0 lz77_demo_literals 1)
  = Some ([0x41; 0x42; 0x43; 0x44; 0x45; 0x46; 0x47; 0x48],
          0x02000000 + 13, 0x03000000 + 8, 0).
Proof. vm_compute. reflexivity. Qed.

(** [b0 = 0x10], [b1 = 0x03]: displacement 3, length 4, so the read
    cursor starts four bytes below the destination and the chunk copies
    ["ABCD"] once more. *)
Example lz77_scenario_window :
  on_return (decode_result 8) (_unLz77 6 0 lz77_demo_window 1)
  = Some ([0x41; 0x42; 0x43; 0x44; 0x41; 0x42; 0x43; 0x44],
          0x02000000 + 11, 0x03000000 + 8, 0).
Proof. vm_compute. reflexivity. Qed.

(** The same stream with 16-bit stores (SWI 0x12). *)
Example lz77_scenario_window16 :
  on_return (decode_result 8) (_unLz77 6 0 lz77_demo_window 2)
  = Some ([0x41; 0x42; 0x43; 0x44; 0x41; 0x42; 0x43; 0x44],
          0x02000000 + 11, 0x03000000 + 8, 0).
Proof. vm_compute. reflexivity. Qed.

(** ["AAAAABCDEE"] and two bytes of zero padding. *)
Example rl_scenario :
  on_return (decode_result 12) (_unRl 3 rl_demo 1)
  = Some ([0x41; 0x41; 0x41; 0x41; 0x41; 0x42; 0x43; 0x44; 0x45; 0x45; 0; 0],
          0x02000000 + 12, 0x03000000 + 12, 0).
Proof. vm_compute. reflexivity. Qed.

(** The Huffman stream [huffman_demo] decodes to ["ABAB"]. *)
Example huffman_scenario :
  on_return (decode_result 4) (_unHuffman 1 huffman_demo)
  = Some ([0x41; 0x42; 0x41; 0x42], 0x0200000C, 0x03000004, 0).
Proof. vm_compute. reflexivity. Qed.

(** ** Whole decode calls *)

Section DecodeCalls.
Context {M : Type} {bus : MemoryBus M}.

Lemma decoded_stores_bytes (gba gba' : GBA M) src0 skip dest0 n_in n_stored hi n_out :
  decoded gba gba' src0 skip dest0 n_in n_stored hi n_out ->
  stores_bytes gba gba' n_stored.
Proof.
  intros ((new & Hev & _ & _ & Hst & _) & _). exists new. split; assumption.
Qed.

(** C1, as the code has it.  [_unLz77] and [_unRl] return on every machine
    and [_unFilter] does for its three width combinations; [_unHuffman],
    which need not return, is described for the runs that do.

    - LZ77 with 8-bit stores writes the declared length; with [width == 2]
      it writes two bytes for every odd destination address it passes, so
      a last byte for an even address is not written and a first byte for
      an odd address drags the byte below it along.
    - RLE writes what LZ77 writes for the declared length, and then its
      padding: with 8-bit stores [(4 - len) & 3] zero bytes; with
      [width == 2] halfwords from the next even address on, as
      [rl_pad_stored] counts them.
    - UnFilter writes the declared length rounded up to a multiple of the
      output width.
    - Huffman writes the declared length rounded up to a multiple of 4
      when the symbol width divides 32, and nothing when the width is not
      zero and does not divide 32. *)
Theorem decoders_stored (junk : Z) (gba : GBA M) (width inwidth outwidth : Z) :
  let dest0 := to_u32 (gpr gba 1%fin) in
  let len_lz := declared_length (header_at gba (to_u32 (gpr gba 0%fin))) in
  let header := header_at gba (aligned_source gba) in
  let len := declared_length header in
  (exists gba',
      (forall fuel, (Z.to_nat (2 * len_lz + 1) <= fuel)%nat ->
                    _unLz77 fuel junk gba width = Returns gba')
      /\ stores_bytes gba gba' (lz77_stored width dest0 len_lz))
  /\ (exists gba',
        (forall fuel, (Z.to_nat len <= fuel)%nat -> _unRl fuel gba width = Returns gba')
        /\ stores_bytes gba gba' (rl_stored width dest0 len))
  /\ (In (inwidth, outwidth) [(1, 1); (1, 2); (2, 2)] ->
      exists gba',
        (forall fuel, (Z.to_nat (len + 1) <= fuel)%nat ->
                      _unFilter fuel gba inwidth outwidth = Returns gba')
        /\ stores_bytes gba gba' (unfilter_stored outwidth len))
  /\ (forall fuel gba',
        symbol_width header <> 0 ->
        _unHuffman fuel gba = Returns gba' ->
        stores_bytes gba gba'
          (if Z.rem 32 (symbol_width header) =? 0 then huffman_stored len else 0)).
Proof.
  intros dest0 len_lz header len. split; [|split; [|split]].
  - destruct (_unLz77_run junk gba width) as (gba' & n_in & Hrun & Hdec & _).
    exists gba'. split; [exact Hrun|]. eapply decoded_stores_bytes. exact Hdec.
  - destruct (_unRl_run gba width) as (gba' & n_in & Hrun & Hdec & _).
    exists gba'. split; [exact Hrun|]. eapply decoded_stores_bytes. exact Hdec.
  - intros Hw. destruct (_unFilter_run gba inwidth outwidth Hw) as (gba' & Hrun & Hdec).
    exists gba'. split; [exact Hrun|]. eapply decoded_stores_bytes. exact Hdec.
  - intros fuel gba' Hw0 Hrun.
    destruct (Z.eqb_spec (Z.rem 32 (symbol_width header)) 0) as [Hrem | Hrem].
    + destruct (_unHuffman_run fuel gba gba' Hw0 Hrem Hrun) as (n_in & _ & Hdec).
      eapply decoded_stores_bytes. exact Hdec.
    + destruct (Huffman_unaligned fuel gba Hw0 Hrem)
        as (gba1 & Hrun1 & _ & _ & Hev & _).
      rewrite Hrun1 in Hrun. injection Hrun as <-.
      eexists. split; [rewrite Hev; apply (app_comm_cons [_] (events gba))|].
      reflexivity.
Qed.

(** Where the decoders leave r0 and r1.  On return from [_unLz77],
    [_unRl] and [_unFilter], r0 is the stream address advanced by the
    bytes read through the stream cursor, all of which lie below it, and
    r1 is the destination advanced past every byte stored (LZ77 by the
    declared length, UnFilter by that length rounded up to the output
    width, RLE past its padding as well); [_unLz77] also leaves r3 = 0.
    On return from [_unHuffman] with a symbol width that divides 32, r0 is
    advanced by the bytes read through the stream cursor and by the tree
    as the stream declares it, which is stepped over (the loads of tree
    nodes go where the nodes point and are not bounded by r0), and r1 is
    advanced by the declared length rounded down to a multiple of 4. *)
Lemma decoders_cursors (junk : Z) (gba : GBA M) (width inwidth outwidth : Z) :
  let src0 := aligned_source gba in
  let dest0 := to_u32 (gpr gba 1%fin) in
  let len_lz := declared_length (header_at gba (to_u32 (gpr gba 0%fin))) in
  let header := header_at gba src0 in
  let len := declared_length header in
  (exists gba' n_in,
      (forall fuel, (Z.to_nat (2 * len_lz + 1) <= fuel)%nat ->
                    _unLz77 fuel junk gba width = Returns gba')
      /\ decoded gba gba' (to_u32 (gpr gba 0%fin)) 0 dest0 n_in
           (lz77_stored width dest0 len_lz) len_lz len_lz
      /\ cursors_past gba gba' (to_u32 (gpr gba 0%fin)) dest0
      /\ gpr gba' 3%fin = 0)
  /\ (exists gba' n_in,
        (forall fuel, (Z.to_nat len <= fuel)%nat -> _unRl fuel gba width = Returns gba')
        /\ decoded gba gba' src0 0 dest0 n_in (rl_stored width dest0 len)
             (len + rl_pad_advance width dest0 len)
             (len + rl_pad_advance width dest0 len)
        /\ cursors_past gba gba' src0 dest0)
  /\ (In (inwidth, outwidth) [(1, 1); (1, 2); (2, 2)] ->
      exists gba',
        (forall fuel, (Z.to_nat (len + 1) <= fuel)%nat ->
                      _unFilter fuel gba inwidth outwidth = Returns gba')
        /\ decoded gba gba' src0 0 dest0 (4 + unfilter_stored outwidth len)
             (unfilter_stored outwidth len) (unfilter_stored outwidth len)
             (unfilter_stored outwidth len)
        /\ cursors_past gba gba' src0 dest0)
  /\ (forall fuel gba',
        symbol_width header <> 0 ->
        Z.rem 32 (symbol_width header) = 0 ->
        _unHuffman fuel gba = Returns gba' ->
        exists n_in,
          5 + huffman_treesize gba src0 <= n_in
          /\ decoded gba gba' src0 (huffman_treesize gba src0) dest0 n_in
               (huffman_stored len) (huffman_stored len) (4 * (len / 4))
          /\ (len mod 4 = 0 -> cursors_past gba gba' src0 dest0)).
Proof.
  intros src0 dest0 len_lz header len.
  pose proof (declared_length_range _ (header_at_range gba src0)) as Hlen.
  fold header in Hlen. fold len in Hlen.
  pose proof (declared_length_range _ (header_at_range gba (to_u32 (gpr gba 0%fin))))
    as Hlen_lz. fold len_lz in Hlen_lz.
  subst len. subst len_lz. subst header. subst src0. subst dest0.
  split; [|split; [|split]].
  - destruct (_unLz77_run junk gba width) as (gba' & n_in & Hrun & Hdec & _ & Hr3).
    exists gba', n_in. split; [exact Hrun|]. split; [exact Hdec|].
    split; [|exact Hr3].
    eexists 0, n_in, _, _. split; [|exact Hdec]. lia.
  - destruct (_unRl_run gba width) as (gba' & n_in & Hrun & Hdec & _).
    exists gba', n_in. split; [exact Hrun|]. split; [exact Hdec|].
    eexists 0, n_in, _, _. split; [|exact Hdec].
    pose proof (rl_padding_range
                  (declared_length (header_at gba (aligned_source gba)))) as Hpad.
    unfold rl_pad_advance, rl_pad_stored.
    destruct (width =? 2); [|lia].
    match goal with
    | |- context [if ?c then _ else _] => destruct c
    end; lia_mod.
  - intros Hw. destruct (_unFilter_run gba inwidth outwidth Hw) as (gba' & Hrun & Hdec).
    exists gba'. split; [exact Hrun|]. split; [exact Hdec|].
    eexists 0, _, _, _. split; [|exact Hdec].
    unfold unfilter_stored. simpl in Hw.
    destruct Hw as [Hw | [Hw | [Hw | []]]]; injection Hw as <- <-; lia_mod.
  - intros fuel gba' Hw0 Hrem Hrun.
    destruct (_unHuffman_run fuel gba gba' Hw0 Hrem Hrun) as (n_in & Hn_in & Hdec).
    exists n_in. split; [exact Hn_in|]. split; [exact Hdec|].
    intros Hmod. unfold huffman_stored in Hdec.
    match type of Hdec with
    | decoded _ _ _ _ _ _ ?st _ ?n_out =>
        replace st with n_out in Hdec by lia_mod
    end.
    eexists _, n_in, _, _. split; [|exact Hdec]. lia_mod.
Qed.

End DecodeCalls.

Lemma on_return_Returns {A B : Type} (f : A -> B) (o : outcome A) (b : B) :
  on_return f o = Some b -> exists a, o = Returns a /\ f a = b.
Proof.
  destruct o as [a| |]; simpl; intros H; try discriminate.
  exists a. split; [reflexivity | congruence].
Qed.

(** The Huffman example returns within five words of fuel and stores the
    four declared bytes. *)
Lemma decoders_stored_witness :
  In (1, 2) [(1, 1); (1, 2); (2, 2)]
  /\ symbol_width (header_at huffman_demo (aligned_source huffman_demo)) <> 0
  /\ exists gba',
      _unHuffman 5 huffman_demo = Returns gba' /\ stores_bytes huffman_demo gba' 4.
Proof.
  split; [simpl; auto|].
  assert (Hw : symbol_width (header_at huffman_demo (aligned_source huffman_demo)) <> 0)
    by (vm_compute; discriminate).
  split; [exact Hw|].
  assert (Hret : on_return (fun _ => tt) (_unHuffman 5 huffman_demo) = Some tt)
    by (vm_compute; reflexivity).
  destruct (on_return_Returns _ _ _ Hret) as (gba' & Hrun & _).
  exists gba'. split; [exact Hrun|].
  destruct (decoders_stored 0 huffman_demo 1 1 2) as (_ & _ & _ & Hhuff).
  exact (Hhuff 5%nat gba' Hw Hrun).
Defined.

(** C1 as stated fails for SWI 0x12 on a stream of one byte: the byte is
    kept in the scratch halfword and never stored. *)
Lemma decoders_stored_counterexample :
  declared_length (header_at lz77_demo_short (to_u32 (gpr lz77_demo_short 0%fin))) = 1
  /\ exists gba',
      _unLz77 3 0 lz77_demo_short 2 = Returns gba'
      /\ ~ stores_bytes lz77_demo_short gba' 1.
Proof.
  split; [vm_compute; reflexivity|].
  assert (Hret : on_return (fun gba => stored (events gba))
                   (_unLz77 3 0 lz77_demo_short 2) = Some 0)
    by (vm_compute; reflexivity).
  destruct (on_return_Returns _ _ _ Hret) as (gba' & Hrun & Hstored).
  exists gba'. split; [exact Hrun|].
  intros (new & Hev & Hst). simpl in Hev. rewrite app_nil_r in Hev. subst new.
  rewrite Hstored in Hst. discriminate.
Qed.

(** The Huffman example, whose length is a multiple of 4: on return r1 is
    past every store and r0 past every load through the stream cursor. *)
Lemma decoders_cursors_witness :
  In (1, 2) [(1, 1); (1, 2); (2, 2)]
  /\ symbol_width (header_at huffman_demo (aligned_source huffman_demo)) <> 0
  /\ Z.rem 32 (symbol_width (header_at huffman_demo (aligned_source huffman_demo))) = 0
  /\ exists gba',
      _unHuffman 5 huffman_demo = Returns gba'
      /\ cursors_past huffman_demo gba' (aligned_source huffman_demo)
           (to_u32 (gpr huffman_demo 1%fin)).
Proof.
  split; [simpl; auto|].
  assert (Hw : symbol_width (header_at huffman_demo (aligned_source huffman_demo)) <> 0)
    by (vm_compute; discriminate).
  assert (Hrem : Z.rem 32 (symbol_width
                              (header_at huffman_demo (aligned_source huffman_demo))) = 0)
    by (vm_compute; reflexivity).
  split; [exact Hw|]. split; [exact Hrem|].
  assert (Hret : on_return (fun _ => tt) (_unHuffman 5 huffman_demo) = Some tt)
    by (vm_compute; reflexivity).
  destruct (on_return_Returns _ _ _ Hret) as (gba' & Hrun & _).
  exists gba'. split; [exact Hrun|].
  destruct (decoders_cursors 0 huffman_demo 1 1 2) as (_ & _ & _ & Hhuff).
  destruct (Hhuff 5%nat gba' Hw Hrem Hrun) as (n_in & _ & _ & Hpast).
  apply Hpast. vm_compute. reflexivity.
Defined.


(** ** LZ77 back-references *)

Lemma lor_shiftl_8 b0 b1 :
  0 <= b0 < 2 ^ 8 -> Z.lor b0 (Z.shiftl b1 8) = b0 + 2 ^ 8 * b1.
Proof.
  intros Hb0.
  assert (Hland : Z.land b0 (Z.shiftl b1 8) = 0).
  { apply Z.bits_inj'. intros i Hi. rewrite Z.land_spec, Z.bits_0.
    destruct (Z.lt_ge_cases i 8) as [Hlt | Hge].
    - rewrite Z.shiftl_spec_low by lia. apply andb_false_r.
    - destruct (Z.eq_dec b0 0) as [-> | Hnz]; [rewrite Z.bits_0; reflexivity|].
      rewrite Z.bits_above_log2; [reflexivity | lia |].
      assert (Z.log2 b0 < 8) by (apply Z.log2_lt_pow2; lia). lia. }
  pose proof (Z.add_lor_land b0 (Z.shiftl b1 8)) as H.
  rewrite Hland in H. rewrite Z.mul_comm, <- Z.shiftl_mul_pow2 by lia. lia.
Qed.

(** The fields of a back-reference are the ones the specification reads
    from its two bytes. *)
Lemma lz77_fields b0 b1 :
  0 <= b0 < 2 ^ 8 -> 0 <= b1 < 2 ^ 8 ->
  lz77_displacement (Z.lor b0 (Z.shiftl b1 8)) = spec_displacement b0 b1
  /\ lz77_bytes (Z.lor b0 (Z.shiftl b1 8)) = spec_length b0.
Proof.
  intros Hb0 Hb1. rewrite lor_shiftl_8 by exact Hb0.
  unfold lz77_displacement, lz77_bytes, spec_displacement, spec_length.
  change (2 ^ 8) with 256 in *.
  assert (H1 : Z.land (b0 + 256 * b1) 15 = Z.land b0 15).
  { change 15 with (Z.ones 4). rewrite !Z.land_ones by lia.
    change (2 ^ 4) with 16. lia_mod. }
  assert (H2 : Z.shiftr (Z.land (b0 + 256 * b1) 65280) 8 = b1).
  { change 65280 with (Z.shiftl (Z.ones 8) 8).
    rewrite land_shifted_ones, Z.shiftr_shiftl_l by lia.
    rewrite Z.land_ones, Z.shiftr_div_pow2 by lia.
    change (8 - 8) with 0. rewrite Z.shiftl_0_r.
    change (2 ^ 8) with 256. lia_mod. }
  assert (H3 : Z.shiftr (Z.land (b0 + 256 * b1) 240) 4 = Z.shiftr b0 4).
  { change 240 with (Z.shiftl (Z.ones 4) 4).
    rewrite land_shifted_ones, Z.shiftr_shiftl_l by lia.
    rewrite Z.land_ones, !Z.shiftr_div_pow2 by lia.
    change (4 - 4) with 0. rewrite Z.shiftl_0_r.
    change (2 ^ 4) with 16. lia_mod. }
  rewrite H1, H2, H3. split; reflexivity.
Qed.

Lemma to_u32_sub_l a b : to_u32 (to_u32 a - b) = to_u32 (a - b).
Proof. unfold to_u32. apply Zminus_mod_idemp_l. Qed.

Lemma to_u8_small z : 0 <= z < 2 ^ 8 -> to_u8 z = z.
Proof. intros H. unfold to_u8. apply Z.mod_small. exact H. Qed.

Lemma to_u8_to_s8 z : to_u8 (to_s8 z) = to_u8 z.
Proof.
  unfold to_u8, to_s8.
  rewrite <- (Zminus_mod_idemp_l _ (2 ^ 7)), Z.mod_mod by lia.
  rewrite Zminus_mod_idemp_l. f_equal. lia.
Qed.

Lemma spec_displacement_range b0 b1 :
  0 <= b1 < 2 ^ 8 -> 0 <= spec_displacement b0 b1 < 2 ^ 12.
Proof.
  intros Hb1. unfold spec_displacement.
  rewrite Z.lor_comm, lor_shiftl_8 by exact Hb1.
  change 15 with (Z.ones 4). rewrite Z.land_ones by lia.
  change (2 ^ 4) with 16. change (2 ^ 8) with 256 in *. change (2 ^ 12) with 4096.
  lia_mod.
Qed.

Lemma spec_length_range b0 : 0 <= b0 < 2 ^ 8 -> 3 <= spec_length b0 <= 18.
Proof.
  intros Hb0. unfold spec_length. rewrite Z.shiftr_div_pow2 by lia.
  change (2 ^ 4) with 16. change (2 ^ 8) with 256 in *. lia_mod.
Qed.

Section BackReference.
Context {M : Type} {bus : MemoryBus M}.

(** The copy moves the destination on by the bytes it copies, which are as
    many as the length asks for unless the output is complete first. *)
Lemma _unLz77_copy_counts width (n : nat) :
  forall (gba : GBA M) disp dest remaining halfword,
    0 <= remaining ->
    let k := Z.min (Z.of_nat n) remaining in
    let '(_, dest', remaining', _) :=
      _unLz77_copy n width gba disp dest remaining halfword in
    to_u32 dest' = to_u32 (dest + k)
    /\ remaining' = remaining - k
    /\ Z.of_nat (length (_unLz77_copied n width gba disp dest remaining halfword)) = k.
Proof.
  induction n as [|n IH]; intros gba disp dest remaining halfword Hrem.
  - simpl. rewrite Z.min_l by lia. rewrite Z.add_0_r, Z.sub_0_r. auto.
  - cbn [_unLz77_copy _unLz77_copied].
    destruct (Z.eqb_spec remaining 0) as [Hz | Hnz].
    + rewrite Hz, Z.min_r by lia. rewrite Z.add_0_r. auto.
    + unfold loadU8.
      destruct (put_byte width _ dest halfword _) as [gba1 halfword1].
      specialize (IH gba1 (to_u32 (disp + 1)) (to_u32 (dest + 1)) (remaining - 1)
                    halfword1 ltac:(lia)).
      destruct (_unLz77_copy n width gba1 (to_u32 (disp + 1)) (to_u32 (dest + 1))
                  (remaining - 1) halfword1) as [[[gba' dest'] remaining'] halfword'].
      destruct IH as (Hd & Hr & Hl). split; [|split].
      * rewrite Hd, to_u32_add_l. f_equal. lia.
      * lia.
      * cbn [length]. lia.
Qed.

(** With 8-bit stores behind which bytes are kept as in a RAM, the copy
    reads its first [D + 1] bytes from memory as it was, from the read
    cursor on, and every later byte is the one it produced [D + 1]
    positions earlier. *)
Lemma _unLz77_copied_overlap width (D : Z) (n : nat) :
  ByteRam bus -> width <> 2 -> 0 <= D ->
  forall (gba : GBA M) disp dest remaining halfword,
    D + 1 + Z.of_nat n <= 2 ^ 32 ->
    0 <= dest < 2 ^ 32 ->
    disp = to_u32 (dest - D - 1) ->
    let out := _unLz77_copied n width gba disp dest remaining halfword in
    forall i : nat,
      (i < length out)%nat ->
      nth i out 0
      = if Z.of_nat i <? D + 1 then byte_at gba (disp + Z.of_nat i)
        else nth (i - Z.to_nat (D + 1)) out 0.
Proof.
  intros Hram Hwidth HD.
  induction n as [|n IH]; intros gba disp dest remaining halfword Hn Hdest Hdisp out i Hi;
    subst out.
  - simpl in Hi. lia.
  - cbn [_unLz77_copied] in *.
    destruct (Z.eqb_spec remaining 0) as [Hz | Hnz]; [simpl in Hi; lia|].
    unfold loadU8 in *.
    set (byte := to_u8 (bus_loadU8 (memory gba) (to_u32 disp))) in *.
    assert (Hput : put_byte width (emit (EvLoad 1 Window (to_u32 disp)) gba)
                     dest halfword byte
                   = (store8 (emit (EvLoad 1 Window (to_u32 disp)) gba) dest byte,
                      halfword)).
    { unfold put_byte. apply Z.eqb_neq in Hwidth. rewrite Hwidth. reflexivity. }
    rewrite Hput in *.
    set (gba1 := store8 (emit (EvLoad 1 Window (to_u32 disp)) gba) dest byte) in *.
    specialize (IH gba1 (to_u32 (disp + 1)) (to_u32 (dest + 1)) (remaining - 1)
                  halfword ltac:(lia) (to_u32_range _)).
    assert (Hdisp' : to_u32 (disp + 1) = to_u32 (to_u32 (dest + 1) - D - 1)).
    { rewrite Hdisp, to_u32_add_l. replace (to_u32 (dest + 1) - D - 1)
        with (to_u32 (dest + 1) - (D + 1)) by lia.
      rewrite to_u32_sub_l. f_equal. lia. }
    specialize (IH Hdisp').
    destruct i as [|i].
    + cbn [nth]. change (Z.of_nat 0) with 0.
      destruct (Z.ltb_spec 0 (D + 1)); [|lia].
      unfold byte_at, loadU8. cbn [fst]. rewrite Z.add_0_r. reflexivity.
    + cbn [length] in Hi. specialize (IH i ltac:(lia)).
      cbn [nth]. rewrite IH.
      destruct (Z.ltb_spec (Z.of_nat i) (D + 1)) as [Hlt | Hge].
      * (* the tail reads memory after the first store *)
        unfold byte_at, loadU8. cbn [fst]. unfold gba1, store8. simpl memory.
        rewrite loadU8_store8 by apply to_u32_range.
        assert (Haddr : to_u32 (to_u32 (disp + 1) + Z.of_nat i)
                        = to_u32 (disp + Z.of_nat (S i))).
        { rewrite to_u32_add_l. f_equal. lia. }
        rewrite Haddr.
        destruct (Z.eqb_spec (to_u32 (disp + Z.of_nat (S i))) (to_u32 dest))
          as [Heq | Hne].
        -- (* the address of the first byte: position D + 1 *)
           assert (Z.of_nat i = D).
           { rewrite Hdisp, to_u32_add_l in Heq. unfold to_u32 in Heq.
             change (2 ^ 32) with 4294967296 in *. lia_mod. }
           destruct (Z.ltb_spec (Z.of_nat (S i)) (D + 1)); [lia|].
           replace (S i - Z.to_nat (D + 1))%nat with O by lia.
           cbn [nth]. rewrite to_u8_to_s8. apply to_u8_small. apply to_u8_range.
        -- assert (Z.of_nat i <> D).
           { intros Heq. apply Hne. rewrite Hdisp, to_u32_add_l. f_equal. lia. }
           destruct (Z.ltb_spec (Z.of_nat (S i)) (D + 1)); [reflexivity | lia].
      * destruct (Z.ltb_spec (Z.of_nat (S i)) (D + 1)); [lia|].
        replace (S i - Z.to_nat (D + 1))%nat with (S (i - Z.to_nat (D + 1))) by lia.
        reflexivity.
Qed.

End BackReference.

Section BackReference16.
Context {M : Type} {bus : MemoryBus M}.



(** That condition holds throughout a run with [width == 2] once it holds:
    a byte put out for an even address replaces [halfword]. *)
Lemma put_byte_waiting (gba : GBA M) dest halfword byte :
  0 <= byte < 2 ^ 8 ->
  Z.land (to_u32 (dest + 1)) 1 = 1 ->
  0 <= snd (put_byte 2 gba dest halfword byte) < 2 ^ 8.
Proof.
  intros Hbyte Hodd. rewrite to_u32_parity in Hodd. unfold put_byte.
  destruct (land_1_cases dest) as [Heven | Hodd']; [rewrite Heven; exact Hbyte|].
  exfalso. rewrite land_1_mod in Hodd'. lia_mod.
Qed.

Lemma _unLz77_copy_waiting (n : nat) :
  forall (gba : GBA M) disp dest remaining halfword,
    (Z.land dest 1 = 1 -> 0 <= halfword < 2 ^ 8) ->
    let '(_, dest', _, halfword') := _unLz77_copy n 2 gba disp dest remaining halfword in
    Z.land dest' 1 = 1 -> 0 <= halfword' < 2 ^ 8.
Proof.
  induction n as [|n IH]; intros gba disp dest remaining halfword Hwait; [exact Hwait|].
  cbn [_unLz77_copy]. destruct (remaining =? 0); [exact Hwait|].
  unfold loadU8.
  pose proof (put_byte_waiting (emit (EvLoad 1 Window (to_u32 disp)) gba) dest halfword
                (to_u8 (bus_loadU8 (memory gba) (to_u32 disp))) (to_u8_range _)) as Hput.
  destruct (put_byte 2 _ dest halfword _) as [gba1 halfword1].
  apply IH. exact Hput.
Qed.

Lemma _unLz77_body_waiting (s : lz77_state M) :
  lz_waiting s -> lz_waiting (_unLz77_body 2 s).
Proof.
  unfold lz_waiting, _unLz77_body. intros Hwait.
  destruct (lz_blocksRemaining s =? 0); [exact Hwait|]. cbn [negb].
  destruct (Z.land (lz_blockheader s) 0x80 =? 0); cbn [negb]; unfold loadU8; cbn [fst snd].
  - match goal with
    | |- context [put_byte 2 ?g ?d ?h ?b] =>
        pose proof (put_byte_waiting g d h b (to_u8_range _)) as Hput;
        destruct (put_byte 2 g d h b) as [gba1 halfword1]
    end.
    exact Hput.
  - match goal with
    | |- context [_unLz77_copy ?n 2 ?g ?p ?d ?r ?h] =>
        pose proof (_unLz77_copy_waiting n g p d r h Hwait) as Hcopy;
        destruct (_unLz77_copy n 2 g p d r h) as [[[gba1 dest1] remaining1] halfword1]
    end.
    exact Hcopy.
Qed.

(** It holds from the start when the output begins at an even address, and
    so at every loop head of such a run. *)
Lemma _unLz77_run_waiting (junk : Z) (gba : GBA M) (passes : nat) :
  Z.land (to_u32 (gpr gba 1%fin)) 1 = 0 ->
  lz_waiting (Nat.iter passes (_unLz77_body 2) (_unLz77_init junk gba)).
Proof.
  intros Heven. induction passes as [|passes IH].
  - unfold lz_waiting, _unLz77_init, load32. simpl. rewrite Heven. discriminate.
  - simpl. apply _unLz77_body_waiting. exact IH.
Qed.

End BackReference16.

Section BackReferenceClaim.
Context {M : Type} {bus : MemoryBus M}.


End BackReferenceClaim.

(** The flat RAM keeps bytes as the law asks. *)
Lemma ram_byte_ram : ByteRam ram_bus.
Proof.
  constructor. intros m a v b Ha Hb. simpl. unfold ram_get, ram_set.
  rewrite (to_u32_small a Ha), (to_u32_small b Hb).
  destruct (b =? a); unfold to_u8; rewrite !Z.mod_mod by lia; reflexivity.
Qed.

Lemma ram_halfword_ram : HalfwordRam ram_bus.
Proof.
  constructor. intros m a v b Ha Heven Hb. simpl. unfold ram_get, ram_set.
  assert (Hnext : a + 1 < 2 ^ 32).
  { rewrite land_1_mod in Heven. change (2 ^ 32) with 4294967296 in *. lia_mod. }
  rewrite (to_u32_small a Ha), (to_u32_small b Hb), (to_u32_small (a + 1)) by lia.
  destruct (Z.eqb_spec b (a + 1)) as [-> | Hne1].
  - destruct (Z.eqb_spec (a + 1) a); [lia|].
    unfold to_u8. rewrite !Z.mod_mod by lia. reflexivity.
  - destruct (b =? a); unfold to_u8; rewrite !Z.mod_mod by lia; reflexivity.
Qed.



(** * Further properties of the handlers *)

(** ** The dispatcher *)

Section DispatcherTable.
Context {M : Type} {bus : MemoryBus M} {F : Type} {fpu : FPU F} {map : MemoryMap}.

(** X1: an immediate for which the [switch] has no case, negative and
    large ones included, is logged as a stub and nothing else happens: the
    registers and guest memory stay as they are, and the two log lines are
    the only events. *)
Theorem swi_unhandled_stub (fuel : nat) (junk : Z) (gba : GBA M) (immediate : Z) :
  fullBios gba = false ->
  ~ In immediate swi_handled ->
  GBASwi16 fuel junk gba immediate
  = Returns (emit (EvLog GBA_LOG_STUB "Stub software interrupt: %02X") (swi_logged gba)).
Proof.
  intros Hfull Hnot. unfold GBASwi16. simpl fullBios. rewrite Hfull.
  destruct immediate as [|p|p]; [reflexivity| |reflexivity].
  do 6 (try destruct p as [p|p|]);
    first [reflexivity | exfalso; apply Hnot; cbv [swi_handled In]; lia].
Qed.

(** X2: [GBASwi32] looks at the upper half of its immediate only: the 16
    low bits make no difference, and the SWI that runs is the one that
    [GBASwi16] runs for the upper half. *)
Theorem GBASwi32_upper_half (fuel : nat) (junk : Z) (gba : GBA M) (number low : Z) :
  0 <= low < 2 ^ 16 ->
  GBASwi32 fuel junk gba (number * 2 ^ 16 + low) = GBASwi16 fuel junk gba number.
Proof.
  intros Hlow. unfold GBASwi32. f_equal.
  rewrite Z.shiftr_div_pow2 by lia. change (2 ^ 16) with 65536 in *. lia_mod.
Qed.

End DispatcherTable.

(** SWI 0x2A is not in the table. *)
Lemma swi_unhandled_stub_witness :
  fullBios (machine 1 2 3 4 (fun _ => 0) false) = false
  /\ ~ In 0x2A swi_handled
  /\ on_return (fun gba => (stored (events gba), length (events gba)))
       (GBASwi16 (F := Rdefinitions.R) 0 0 (machine 1 2 3 4 (fun _ => 0) false) 0x2A)
     = Some (0, 2%nat).
Proof.
  assert (Hnot : ~ In 0x2A swi_handled) by (cbv [swi_handled In]; lia).
  split; [reflexivity|]. split; [exact Hnot|].
  rewrite (swi_unhandled_stub (F := Rdefinitions.R) 0 0
             (machine 1 2 3 4 (fun _ => 0) false) 0x2A eq_refl Hnot).
  reflexivity.
Defined.

(** The ARM-state immediate [0x061234] selects SWI 0x06. *)
Lemma GBASwi32_upper_half_witness :
  0 <= 0x1234 < 2 ^ 16
  /\ GBASwi32 (F := Rdefinitions.R) 0 0 (machine 100 7 0 0 (fun _ => 0) false) 0x061234
     = GBASwi16 (F := Rdefinitions.R) 0 0 (machine 100 7 0 0 (fun _ => 0) false) 0x06.
Proof.
  assert (Hlow : 0 <= 0x1234 < 2 ^ 16) by (change (2 ^ 16) with 65536; lia).
  split; [exact Hlow|].
  exact (GBASwi32_upper_half (F := Rdefinitions.R) 0 0
           (machine 100 7 0 0 (fun _ => 0) false) 0x06 0x1234 Hlow).
Defined.

(** ** What a handler leaves alone *)

Section SameCpu.
Context {M : Type} {bus : MemoryBus M}.

Lemma same_cpu_refl (gba : GBA M) : same_cpu gba gba.
Proof. repeat split. Qed.

Lemma same_cpu_trans (gba1 gba2 gba3 : GBA M) :
  same_cpu gba1 gba2 -> same_cpu gba2 gba3 -> same_cpu gba1 gba3.
Proof.
  intros (H1 & H2 & H3) (H4 & H5 & H6). repeat split; congruence.
Qed.

Lemma same_cpu_put_byte width (gba : GBA M) dest halfword byte :
  same_cpu gba (fst (put_byte width gba dest halfword byte)).
Proof.
  unfold put_byte. destruct (width =? 2); [destruct (negb _)|]; repeat split.
Qed.

Lemma same_cpu_unLz77_copy width (n : nat) :
  forall (gba : GBA M) disp dest remaining halfword,
    let '(gba', _, _, _) := _unLz77_copy n width gba disp dest remaining halfword in
    same_cpu gba gba'.
Proof.
  induction n as [|n IH]; intros gba disp dest remaining halfword;
    [apply same_cpu_refl|].
  cbn [_unLz77_copy]. destruct (remaining =? 0); [apply same_cpu_refl|].
  unfold loadU8.
  pose proof (same_cpu_put_byte width (emit (EvLoad 1 Window (to_u32 disp)) gba) dest
                halfword (to_u8 (bus_loadU8 (memory gba) (to_u32 disp)))) as Hput.
  destruct (put_byte width _ dest halfword _) as [gba1 halfword1]. cbn [fst] in Hput.
  specialize (IH gba1 (to_u32 (disp + 1)) (to_u32 (dest + 1)) (remaining - 1) halfword1).
  destruct (_unLz77_copy n width gba1 _ _ _ _) as [[[gba' dest'] remaining'] halfword'].
  eapply same_cpu_trans; [|exact IH]. eapply same_cpu_trans; [|exact Hput].
  repeat split.
Qed.

Lemma same_cpu_unLz77_body width (s : lz77_state M) :
  same_cpu (lz_gba s) (lz_gba (_unLz77_body width s)).
Proof.
  unfold _unLz77_body.
  destruct (lz_blocksRemaining s =? 0); cbn [negb]; [repeat split|].
  destruct (Z.land (lz_blockheader s) 0x80 =? 0); cbn [negb]; unfold loadU8; cbn [fst snd].
  - match goal with
    | |- context [put_byte width ?g ?d ?h ?b] =>
        pose proof (same_cpu_put_byte width g d h b) as Hput;
        destruct (put_byte width g d h b) as [gba1 halfword1]
    end.
    cbn [fst lz_gba] in *. eapply same_cpu_trans; [|exact Hput]. repeat split.
  - match goal with
    | |- context [_unLz77_copy ?n width ?g ?p ?d ?r ?h] =>
        pose proof (same_cpu_unLz77_copy width n g p d r h) as Hcopy;
        destruct (_unLz77_copy n width g p d r h) as [[[gba1 dest1] remaining1] halfword1]
    end.
    cbn [lz_gba]. eapply same_cpu_trans; [|exact Hcopy]. repeat split.
Qed.

Lemma same_cpu_unLz77_loop width (fuel : nat) :
  forall s s' : lz77_state M,
    _unLz77_loop fuel width s = Returns s' -> same_cpu (lz_gba s) (lz_gba s').
Proof.
  induction fuel as [|fuel IH]; intros s s'; simpl;
    destruct (lz_remaining s >? 0); intros H; try discriminate;
    try (injection H as <-; apply same_cpu_refl).
  eapply same_cpu_trans; [apply same_cpu_unLz77_body|]. eapply IH. exact H.
Qed.

Lemma same_cpu_unHuffman_bit bits treeBase bitstream (s : huffman_state M) :
  same_cpu (hf_gba s) (hf_gba (_unHuffman_bit bits treeBase bitstream s)).
Proof.
  unfold _unHuffman_bit, load8. cbn [fst snd].
  destruct (if negb _ then _ else _); [destruct (_ =? 32)|]; repeat split.
Qed.

Lemma same_cpu_unHuffman_word bits treeBase (n : nat) :
  forall bitstream (s : huffman_state M),
    same_cpu (hf_gba s) (hf_gba (_unHuffman_word n bits treeBase bitstream s)).
Proof.
  induction n as [|n IH]; intros bitstream s; simpl; [apply same_cpu_refl|].
  destruct (hf_remaining s >? 0); [|apply same_cpu_refl].
  eapply same_cpu_trans; [apply same_cpu_unHuffman_bit | apply IH].
Qed.

Lemma same_cpu_unHuffman_loop bits treeBase (fuel : nat) :
  forall s s' : huffman_state M,
    _unHuffman_loop fuel bits treeBase s = Returns s' -> same_cpu (hf_gba s) (hf_gba s').
Proof.
  induction fuel as [|fuel IH]; intros s s'; simpl;
    destruct (hf_remaining s >? 0); intros H; try discriminate;
    try (injection H as <-; apply same_cpu_refl).
  eapply same_cpu_trans; [|eapply IH; exact H].
  unfold _unHuffman_body, load32. cbn [fst snd].
  eapply same_cpu_trans; [|apply same_cpu_unHuffman_word]. repeat split.
Qed.

Lemma same_cpu_unRl_fill width block (n : nat) :
  forall s : rl_state M, same_cpu (rl_gba s) (rl_gba (_unRl_fill n width block s)).
Proof.
  induction n as [|n IH]; intros s; simpl; [apply same_cpu_refl|].
  destruct (rl_remaining s =? 0); [apply same_cpu_refl|].
  pose proof (same_cpu_put_byte width (rl_gba s) (rl_dest s) (rl_halfword s) block) as Hput.
  destruct (put_byte width _ _ _ _) as [gba1 halfword1]. cbn [fst] in Hput.
  eapply same_cpu_trans; [exact Hput | apply IH].
Qed.

Lemma same_cpu_unRl_copy width (n : nat) :
  forall s : rl_state M, same_cpu (rl_gba s) (rl_gba (_unRl_copy n width s)).
Proof.
  induction n as [|n IH]; intros s; simpl; [apply same_cpu_refl|].
  destruct (rl_remaining s =? 0); [apply same_cpu_refl|].
  match goal with
  | |- context [put_byte width ?g ?d ?h ?b] =>
      pose proof (same_cpu_put_byte width g d h b) as Hput;
      destruct (put_byte width g d h b) as [gba1 halfword1]
  end.
  cbn [fst] in Hput.
  eapply same_cpu_trans; [|apply IH]. cbn [rl_gba].
  eapply same_cpu_trans; [|exact Hput]. repeat split.
Qed.

Lemma same_cpu_unRl_loop width (fuel : nat) :
  forall s s' : rl_state M,
    _unRl_loop fuel width s = Returns s' -> same_cpu (rl_gba s) (rl_gba s').
Proof.
  induction fuel as [|fuel IH]; intros s s'; simpl;
    destruct (rl_remaining s >? 0); intros H; try discriminate;
    try (injection H as <-; apply same_cpu_refl).
  eapply same_cpu_trans; [|eapply IH; exact H].
  unfold _unRl_body, loadU8. cbn [fst snd].
  destruct (negb _).
  - eapply same_cpu_trans; [|apply same_cpu_unRl_fill]. repeat split.
  - eapply same_cpu_trans; [|apply same_cpu_unRl_copy]. repeat split.
Qed.

Lemma same_cpu_unRl_pad16 (n : nat) :
  forall (gba : GBA M) dest padding, same_cpu gba (fst (_unRl_pad16 n gba dest padding)).
Proof.
  induction n as [|n IH]; intros gba dest padding; simpl; [apply same_cpu_refl|].
  destruct (padding >? 0); [|apply same_cpu_refl].
  eapply same_cpu_trans; [|apply IH]. repeat split.
Qed.

Lemma same_cpu_unRl_pad8 (n : nat) :
  forall (gba : GBA M) dest, same_cpu gba (fst (_unRl_pad8 n gba dest)).
Proof.
  induction n as [|n IH]; intros gba dest; simpl; [apply same_cpu_refl|].
  eapply same_cpu_trans; [|apply IH]. repeat split.
Qed.

Lemma same_cpu_unRl_pad width (gba : GBA M) dest padding :
  same_cpu gba (fst (_unRl_pad width gba dest padding)).
Proof.
  unfold _unRl_pad. destruct (width =? 2); [|apply same_cpu_unRl_pad8].
  destruct (negb _); apply same_cpu_unRl_pad16.
Qed.

Lemma same_cpu_unFilter_loop inwidth outwidth (fuel : nat) :
  forall s s' : unfilter_state M,
    _unFilter_loop fuel inwidth outwidth s = Returns s' ->
    same_cpu (uf_gba s) (uf_gba s').
Proof.
  induction fuel as [|fuel IH]; intros s s'; simpl;
    destruct (uf_remaining s >? 0); intros H; try discriminate;
    try (injection H as <-; apply same_cpu_refl).
  eapply same_cpu_trans; [|eapply IH; exact H].
  unfold _unFilter_body, loadU8, loadU16.
  destruct (inwidth =? 1); cbn [fst snd];
    (destruct (outwidth >? inwidth);
     [destruct (negb _) | destruct (outwidth =? 1)]); repeat split.
Qed.

(** Writing r0, r1 or r3 keeps the frame. *)
Lemma reg_frame_of_same_cpu (gba gba' : GBA M) : same_cpu gba gba' -> reg_frame gba gba'.
Proof. intros (H1 & H2 & H3). repeat split; try assumption. intros. congruence. Qed.

Lemma reg_frame_trans (gba1 gba2 gba3 : GBA M) :
  reg_frame gba1 gba2 -> reg_frame gba2 gba3 -> reg_frame gba1 gba3.
Proof.
  intros (H1 & H2 & H3) (H4 & H5 & H6). repeat split; try congruence.
  intros i Hi0 Hi1 Hi3. rewrite H6, H3; auto.
Qed.

Lemma reg_frame_set_gpr (i : fin 16) v (gba : GBA M) :
  i = 0%fin \/ i = 1%fin \/ i = 3%fin -> reg_frame gba (set_gpr i v gba).
Proof.
  intros Hi. repeat split. intros j Hj0 Hj1 Hj3. unfold set_gpr, set_gprs. simpl.
  apply vlookup_insert_ne. intuition congruence.
Qed.

End SameCpu.

Section HandlerFrames.
Context {M : Type} {bus : MemoryBus M} {F : Type} {fpu : FPU F} {map : MemoryMap}.

Lemma same_cpu_BgAffineSet_loop (i : nat) :
  forall (gba : GBA M) offset destination,
    same_cpu gba (_BgAffineSet_loop i gba offset destination).
Proof.
  induction i as [|i IH]; intros gba offset destination; [apply same_cpu_refl|].
  simpl. unfold _BgAffineSet_body. simpl.
  eapply same_cpu_trans; [|apply IH]. repeat split.
Qed.

Lemma same_cpu_ObjAffineSet_loop (i : nat) :
  forall (gba : GBA M) offset destination diff,
    same_cpu gba (_ObjAffineSet_loop i gba offset destination diff).
Proof.
  induction i as [|i IH]; intros gba offset destination diff; [apply same_cpu_refl|].
  simpl. unfold _ObjAffineSet_body. simpl.
  eapply same_cpu_trans; [|apply IH]. repeat split.
Qed.

Lemma same_cpu_checks (gba : GBA M) source_message destination_message :
  same_cpu gba
    (check_destination (check_source (swi_logged gba) source_message) destination_message).
Proof.
  unfold check_destination, check_source, GBALog, swi_logged.
  destruct (gpr _ 0%fin <? BASE_WORKING_RAM); destruct (_ || _); repeat split.
Qed.

Lemma reg_frame_Div (gba gba' : GBA M) num denom :
  _Div gba num denom = Returns gba' -> reg_frame gba gba'.
Proof.
  unfold _Div. destruct (negb (denom =? 0)).
  - destruct (c_div num denom) as [[quot rem]|]; [|discriminate].
    intros H. injection H as <-.
    repeat (eapply reg_frame_trans; [|apply reg_frame_set_gpr; auto]).
    apply reg_frame_of_same_cpu, same_cpu_refl.
  - intros H. injection H as <-.
    repeat (eapply reg_frame_trans; [|apply reg_frame_set_gpr; auto]).
    apply reg_frame_of_same_cpu. repeat split.
Qed.

Lemma reg_frame_unLz77 (fuel : nat) junk (gba gba' : GBA M) width :
  _unLz77 fuel junk gba width = Returns gba' -> reg_frame gba gba'.
Proof.
  unfold _unLz77.
  destruct (_unLz77_loop fuel width (_unLz77_init junk gba)) as [s| |] eqn:Hloop;
    try discriminate.
  intros H. injection H as <-. apply same_cpu_unLz77_loop in Hloop.
  unfold _unLz77_exit.
  repeat (eapply reg_frame_trans; [|apply reg_frame_set_gpr; auto]).
  apply reg_frame_of_same_cpu. eapply same_cpu_trans; [|exact Hloop]. repeat split.
Qed.

Lemma reg_frame_unHuffman (fuel : nat) (gba gba' : GBA M) :
  _unHuffman fuel gba = Returns gba' -> reg_frame gba gba'.
Proof.
  unfold _unHuffman, load32, loadU8, load8. cbn [fst snd].
  destruct (_ =? 0); [discriminate|].
  destruct (negb _).
  { intros H. injection H as <-. apply reg_frame_of_same_cpu. repeat split. }
  match goal with
  | |- context [_unHuffman_loop fuel ?b ?t ?s0] =>
      destruct (_unHuffman_loop fuel b t s0) as [s| |] eqn:Hloop; try discriminate
  end.
  intros H. injection H as <-. apply same_cpu_unHuffman_loop in Hloop.
  cbn [hf_gba] in Hloop.
  repeat (eapply reg_frame_trans; [|apply reg_frame_set_gpr; auto]).
  apply reg_frame_of_same_cpu.
  destruct (negb _); (eapply same_cpu_trans; [|eapply same_cpu_trans; [exact Hloop|]]);
    repeat split.
Qed.

Lemma reg_frame_unRl (fuel : nat) (gba gba' : GBA M) width :
  _unRl fuel gba width = Returns gba' -> reg_frame gba gba'.
Proof.
  unfold _unRl, _unRl_init, load32. cbn [fst snd].
  match goal with
  | |- context [_unRl_loop fuel width ?s0] =>
      destruct (_unRl_loop fuel width s0) as [s| |] eqn:Hloop; try discriminate
  end.
  intros H. injection H as <-. apply same_cpu_unRl_loop in Hloop. cbn [rl_gba] in Hloop.
  unfold _unRl_exit.
  match goal with
  | |- context [_unRl_pad width ?g ?d ?p] =>
      pose proof (same_cpu_unRl_pad width g d p) as Hpad;
      destruct (_unRl_pad width g d p) as [gba1 dest1]
  end.
  cbn [fst] in Hpad.
  repeat (eapply reg_frame_trans; [|apply reg_frame_set_gpr; auto]).
  apply reg_frame_of_same_cpu.
  eapply same_cpu_trans; [|exact Hpad]. eapply same_cpu_trans; [|exact Hloop].
  repeat split.
Qed.

Lemma reg_frame_unFilter (fuel : nat) (gba gba' : GBA M) inwidth outwidth :
  _unFilter fuel gba inwidth outwidth = Returns gba' -> reg_frame gba gba'.
Proof.
  unfold _unFilter.
  destruct (_unFilter_loop fuel inwidth outwidth (_unFilter_init gba)) as [s| |] eqn:Hloop;
    try discriminate.
  intros H. injection H as <-. apply same_cpu_unFilter_loop in Hloop.
  unfold _unFilter_exit.
  repeat (eapply reg_frame_trans; [|apply reg_frame_set_gpr; auto]).
  apply reg_frame_of_same_cpu. eapply same_cpu_trans; [|exact Hloop]. repeat split.
Qed.

(** X3: whatever the immediate and the mode, a SWI that returns has left
    the registers other than r0, r1 and r3 as they were, and with them the
    full-BIOS flag and the BIOS image. *)
Theorem swi_register_frame (fuel : nat) (junk : Z) (gba gba' : GBA M) (immediate : Z) :
  GBASwi16 fuel junk gba immediate = Returns gba' -> reg_frame gba gba'.
Proof.
  unfold GBASwi16. simpl fullBios.
  set (logged := GBALog gba GBA_LOG_SWI _).
  assert (Hlog : same_cpu gba logged) by repeat split.
  destruct (fullBios gba).
  { intros H. injection H as <-. apply reg_frame_of_same_cpu. repeat split. }
  intros H. eapply reg_frame_trans; [apply reg_frame_of_same_cpu; exact Hlog|].
  clearbody logged. clear Hlog.
  assert (Hchecks : forall a b,
             same_cpu logged (check_destination (check_source logged a) b)).
  { intros a b. unfold check_destination, check_source, GBALog.
    destruct (gpr _ 0%fin <? BASE_WORKING_RAM); destruct (_ || _); repeat split. }
  revert H.
  destruct immediate as [|p|p];
    [intros H; injection H as <-; apply reg_frame_of_same_cpu; repeat split | |
     intros H; injection H as <-; apply reg_frame_of_same_cpu; repeat split].
  do 6 (try destruct p as [p|p|]);
    cbv beta iota; intros H;
    try (injection H as <-; apply reg_frame_of_same_cpu; repeat split; fail);
    try (apply reg_frame_Div in H; exact H);
    try (injection H as <-; apply reg_frame_set_gpr; auto; fail);
    try (eapply reg_frame_trans;
         [apply reg_frame_of_same_cpu, Hchecks|];
         first [ eapply reg_frame_unLz77; exact H
               | eapply reg_frame_unHuffman; exact H
               | eapply reg_frame_unRl; exact H
               | eapply reg_frame_unFilter; exact H ]).
  - (* 0x1F *)
    injection H as <-. unfold _MidiKey2Freq, load32. cbn [fst snd].
    eapply reg_frame_trans; [|apply reg_frame_set_gpr; auto].
    apply reg_frame_of_same_cpu. repeat split.
  - (* 0xF *)
    injection H as <-. apply reg_frame_of_same_cpu, same_cpu_ObjAffineSet_loop.
  - (* 0xD *)
    unfold case_0xD in H.
    destruct (GBAChecksum (bios logged) SIZE_BIOS) as [sum| |]; try discriminate.
    injection H as <-.
    eapply reg_frame_trans; [apply (reg_frame_set_gpr 0%fin sum); auto|].
    apply reg_frame_of_same_cpu, same_cpu_BgAffineSet_loop.
  - (* 0xE *)
    injection H as <-. apply reg_frame_of_same_cpu, same_cpu_BgAffineSet_loop.
Qed.

(** X4: only the affine solvers and the decoders (SWI 0x0D-0x0F and
    0x11-0x18) write to guest memory.  In full-BIOS mode, and for every
    other immediate, a SWI that returns has issued no store and has left
    guest memory as it was. *)
Theorem swi_memory_frame (fuel : nat) (junk : Z) (gba gba' : GBA M) (immediate : Z) :
  fullBios gba = true \/ ~ In immediate swi_storing ->
  GBASwi16 fuel junk gba immediate = Returns gba' ->
  memory gba' = memory gba /\ stored (events gba') = stored (events gba).
Proof.
  intros Hmode. unfold GBASwi16. simpl fullBios.
  destruct (fullBios gba).
  { intros H. injection H as <-. split; reflexivity. }
  destruct Hmode as [Hfull | Hnot]; [discriminate|].
  destruct immediate as [|p|p];
    [intros H; injection H as <-; split; reflexivity | |
     intros H; injection H as <-; split; reflexivity].
  do 6 (try destruct p as [p|p|]);
    try (exfalso; apply Hnot; cbv [swi_storing In]; lia);
    cbv beta iota; intros H;
    try (injection H as <-; split; reflexivity);
    unfold _Div in H;
    match type of H with
    | context [negb (?d =? 0)] => destruct (negb (d =? 0))
    end;
    try match type of H with
        | context [c_div ?n ?d] => destruct (c_div n d) as [[quot rem]|]
        end;
    try discriminate; injection H as <-; split; reflexivity.
Qed.

End HandlerFrames.

(** SWI 0x06 with r0 = 100 and r1 = 7 writes r0, r1 and r3 and leaves r2
    and the others alone. *)
Lemma swi_register_frame_witness :
  reg_frame (machine 100 7 3 4 (fun _ => 0) false)
    (set_gpr 3%fin 14 (set_gpr 1%fin 2 (set_gpr 0%fin 14
       (swi_logged (machine 100 7 3 4 (fun _ => 0) false))))).
Proof.
  apply (swi_register_frame (F := Rdefinitions.R) 0 0
           (machine 100 7 3 4 (fun _ => 0) false) _ 0x6).
  reflexivity.
Defined.

(** SWI 0x1F (MidiKey2Freq) loads a word and stores nothing. *)
Lemma swi_memory_frame_witness :
  (fullBios (machine 0x02000000 0 0 0 (fun _ => 0) false) = true
   \/ ~ In 0x1F swi_storing)
  /\ memory (_MidiKey2Freq (F := Rdefinitions.R)
               (swi_logged (machine 0x02000000 0 0 0 (fun _ => 0) false)))
     = memory (machine 0x02000000 0 0 0 (fun _ => 0) false).
Proof.
  assert (Hnot : fullBios (machine 0x02000000 0 0 0 (fun _ => 0) false) = true
                 \/ ~ In 0x1F swi_storing)
    by (right; cbv [swi_storing In]; lia).
  split; [exact Hnot|].
  exact (proj1 (swi_memory_frame (F := Rdefinitions.R) 0 0
                  (machine 0x02000000 0 0 0 (fun _ => 0) false) _ 0x1F Hnot eq_refl)).
Defined.

(** ** Division through the dispatcher *)

Section DispatchedDivision.
Context {M : Type} {bus : MemoryBus M} {F : Type} {fpu : FPU F} {map : MemoryMap}.

(** X5: SWI 0x06 divides r0 by r1 and SWI 0x07 divides r1 by r0.  Unless
    the denominator is zero or the pair is [INT_MIN], [-1], r0 receives the
    quotient truncated towards zero, r1 the remainder, which is smaller in
    magnitude than the denominator and never of the opposite sign to the
    numerator, and r3 the magnitude of the quotient; guest memory is not
    touched. *)
Theorem swi_Div_DivArm (fuel : nat) (junk : Z) (gba : GBA M) (immediate : Z) :
  fullBios gba = false ->
  immediate = 0x6 \/ immediate = 0x7 ->
  let n := if immediate =? 0x6 then gpr gba 0%fin else gpr gba 1%fin in
  let d := if immediate =? 0x6 then gpr gba 1%fin else gpr gba 0%fin in
  d <> 0 ->
  ~ (n = INT_MIN /\ d = -1) ->
  exists gba',
    GBASwi16 fuel junk gba immediate = Returns gba'
    /\ gpr gba' 0%fin = Z.quot n d
    /\ gpr gba' 1%fin = Z.rem n d
    /\ to_u32 (gpr gba' 3%fin) = Z.abs (Z.quot n d)
    /\ n = d * gpr gba' 0%fin + gpr gba' 1%fin
    /\ Z.abs (gpr gba' 1%fin) < Z.abs d
    /\ 0 <= gpr gba' 1%fin * n
    /\ memory gba' = memory gba.
Proof.
  intros Hfull Himm n d Hd Hov.
  pose proof (to_s32_range (gprs gba !!! 0%fin)) as Hr0.
  pose proof (to_s32_range (gprs gba !!! 1%fin)) as Hr1.
  assert (Hn : INT_MIN <= n <= INT_MAX).
  { unfold n, gpr, INT_MIN, INT_MAX. destruct (immediate =? 6); lia. }
  assert (Hd' : INT_MIN <= d <= INT_MAX).
  { unfold d, gpr, INT_MIN, INT_MAX. destruct (immediate =? 6); lia. }
  destruct (Div_nonzero (swi_logged gba) n d Hn Hd' Hd Hov)
    as (gba' & Hrun & H0 & H1 & H3 & Heq & Hpos & Hneg & Hmem & _).
  exists gba'. split.
  { unfold GBASwi16. simpl fullBios. rewrite Hfull.
    destruct Himm as [-> | ->]; exact Hrun. }
  split; [exact H0|]. split; [exact H1|]. split; [exact H3|].
  split; [lia|]. split; [|split; [|exact Hmem]].
  - rewrite H1. pose proof (Z.rem_bound_abs n d Hd). lia.
  - rewrite H1. pose proof (Z.rem_sign_mul n d Hd). lia.
Qed.

End DispatchedDivision.

(** [DivArm] with r0 = 7 and r1 = -100: -100 / 7 = -14, remainder -2. *)
Lemma swi_Div_DivArm_witness :
  fullBios (machine 7 (-100) 0 0 (fun _ => 0) false) = false
  /\ (0x7 = 0x6 \/ 0x7 = 0x7)
  /\ gpr (machine 7 (-100) 0 0 (fun _ => 0) false) 0%fin <> 0
  /\ exists gba',
      GBASwi16 (F := Rdefinitions.R) 0 0 (machine 7 (-100) 0 0 (fun _ => 0) false) 0x7
      = Returns gba'
      /\ gpr gba' 0%fin = -14 /\ gpr gba' 1%fin = -2 /\ to_u32 (gpr gba' 3%fin) = 14.
Proof.
  assert (Hd : gpr (machine 7 (-100) 0 0 (fun _ => 0) false) 0%fin <> 0)
    by (vm_compute; discriminate).
  assert (Hov : ~ (gpr (machine 7 (-100) 0 0 (fun _ => 0) false) 1%fin = INT_MIN
                   /\ gpr (machine 7 (-100) 0 0 (fun _ => 0) false) 0%fin = -1))
    by (vm_compute; intros [H _]; discriminate).
  split; [reflexivity|]. split; [right; reflexivity|]. split; [exact Hd|].
  destruct (swi_Div_DivArm (F := Rdefinitions.R) 0 0
              (machine 7 (-100) 0 0 (fun _ => 0) false) 0x7 eq_refl
              (or_intror eq_refl) Hd Hov)
    as (gba' & Hrun & H0 & H1 & H3 & _).
  exists gba'. split; [exact Hrun|]. split; [exact H0|]. split; [exact H1|]. exact H3.
Defined.

(** ** Decoding through the dispatcher *)

Lemma stored_app (evs evs' : list event) : stored (evs ++ evs') = stored evs + stored evs'.
Proof. induction evs as [|e evs IH]; simpl; lia. Qed.

Section DispatchedDecoders.
Context {M : Type} {bus : MemoryBus M} {F : Type} {fpu : FPU F} {map : MemoryMap}.

(** The address checks log and do nothing else. *)
Lemma checks_machine (gba : GBA M) source_message destination_message :
  let checked :=
    check_destination (check_source (swi_logged gba) source_message)
      destination_message in
  gprs checked = gprs gba
  /\ memory checked = memory gba
  /\ events checked
     = address_errors gba source_message destination_message ++ events (swi_logged gba).
Proof.
  unfold check_destination, check_source, address_errors, GBALog, swi_logged.
  change (gpr (emit ?e gba) ?i) with (gpr gba i).
  destruct (gpr gba 0%fin <? BASE_WORKING_RAM);
    change (gpr (emit ?e (emit ?e' gba)) ?i) with (gpr gba i);
    change (gpr (emit ?e gba) ?i) with (gpr gba i);
    destruct (_ || _); repeat split.
Qed.

Lemma gpr_same (gba gba' : GBA M) i : gprs gba' = gprs gba -> gpr gba' i = gpr gba i.
Proof. intros H. unfold gpr. rewrite H. reflexivity. Qed.

Lemma header_at_same (gba gba' : GBA M) source :
  memory gba' = memory gba -> header_at gba' source = header_at gba source.
Proof. intros H. unfold header_at, load32. cbn [fst]. rewrite H. reflexivity. Qed.

(** X6: the address checks of the dispatcher never stop a decode.  For
    every source and destination, in working RAM or not, the LZ77, RLE and
    UnFilter SWIs log what they find wrong with the addresses, then decode
    and return: the events of the call are those errors followed by the
    events of the decode, which stores the bytes that the header and the
    destination call for. *)
Theorem swi_decode_unchecked (junk : Z) (gba : GBA M) (immediate : Z) :
  fullBios gba = false ->
  let dest0 := to_u32 (gpr gba 1%fin) in
  let len_lz := declared_length (header_at gba (to_u32 (gpr gba 0%fin))) in
  let len := declared_length (header_at gba (aligned_source gba)) in
  (In immediate [0x11; 0x12] ->
   exists gba' new,
     (forall fuel, (Z.to_nat (2 * len_lz + 1) <= fuel)%nat ->
                   GBASwi16 fuel junk gba immediate = Returns gba')
     /\ events gba'
        = new ++ address_errors gba "Bad LZ77 source" "Bad LZ77 destination"
              ++ events (swi_logged gba)
     /\ stored new = lz77_stored (if immediate =? 0x11 then 1 else 2) dest0 len_lz)
  /\ (In immediate [0x14; 0x15] ->
      exists gba' new,
        (forall fuel, (Z.to_nat len <= fuel)%nat ->
                      GBASwi16 fuel junk gba immediate = Returns gba')
        /\ events gba'
           = new ++ address_errors gba "Bad RL source" "Bad RL destination"
                 ++ events (swi_logged gba)
        /\ stored new = rl_stored (if immediate =? 0x14 then 1 else 2) dest0 len)
  /\ (In immediate [0x16; 0x17; 0x18] ->
      exists gba' new,
        (forall fuel, (Z.to_nat (len + 1) <= fuel)%nat ->
                      GBASwi16 fuel junk gba immediate = Returns gba')
        /\ events gba'
           = new ++ address_errors gba "Bad UnFilter source" "Bad UnFilter destination"
                 ++ events (swi_logged gba)
        /\ stored new = unfilter_stored (if immediate =? 0x16 then 1 else 2) len).
Proof.
  intros Hfull dest0 len_lz len. split; [|split].
  - intros Himm.
    set (width := if immediate =? 0x11 then 1 else 2).
    destruct (checks_machine gba "Bad LZ77 source" "Bad LZ77 destination")
      as (Hregs & Hmem & Hev).
    set (checked := check_destination _ _) in *.
    destruct (_unLz77_run junk checked width) as (gba' & n_in & Hrun & Hdec & _).
    rewrite !(gpr_same gba checked) in * by exact Hregs.
    rewrite (header_at_same gba checked) in * by exact Hmem.
    destruct Hdec as ((new & Hnew & _ & _ & Hstored & _) & _).
    exists gba', new. split; [|split].
    + intros fuel Hfuel. unfold GBASwi16. simpl fullBios. rewrite Hfull.
      specialize (Hrun fuel Hfuel).
      simpl in Himm. destruct Himm as [<- | [<- | []]]; exact Hrun.
    + rewrite Hnew, Hev. reflexivity.
    + exact Hstored.
  - intros Himm.
    set (width := if immediate =? 0x14 then 1 else 2).
    destruct (checks_machine gba "Bad RL source" "Bad RL destination")
      as (Hregs & Hmem & Hev).
    set (checked := check_destination _ _) in *.
    destruct (_unRl_run checked width) as (gba' & n_in & Hrun & Hdec & _).
    unfold aligned_source in *.
    rewrite !(gpr_same gba checked) in * by exact Hregs.
    rewrite (header_at_same gba checked) in * by exact Hmem.
    destruct Hdec as ((new & Hnew & _ & _ & Hstored & _) & _).
    exists gba', new. split; [|split].
    + intros fuel Hfuel. unfold GBASwi16. simpl fullBios. rewrite Hfull.
      specialize (Hrun fuel Hfuel).
      simpl in Himm. destruct Himm as [<- | [<- | []]]; exact Hrun.
    + rewrite Hnew, Hev. reflexivity.
    + exact Hstored.
  - intros Himm.
    set (inwidth := if immediate =? 0x18 then 2 else 1).
    set (outwidth := if immediate =? 0x16 then 1 else 2).
    assert (Hw : In (inwidth, outwidth) [(1, 1); (1, 2); (2, 2)]).
    { simpl in Himm. destruct Himm as [<- | [<- | [<- | []]]]; simpl; auto. }
    destruct (checks_machine gba "Bad UnFilter source" "Bad UnFilter destination")
      as (Hregs & Hmem & Hev).
    set (checked := check_destination _ _) in *.
    destruct (_unFilter_run checked inwidth outwidth Hw) as (gba' & Hrun & Hdec).
    unfold aligned_source in *.
    rewrite !(gpr_same gba checked) in * by exact Hregs.
    rewrite (header_at_same gba checked) in * by exact Hmem.
    destruct Hdec as ((new & Hnew & _ & _ & Hstored & _) & _).
    exists gba', new. split; [|split].
    + intros fuel Hfuel. unfold GBASwi16. simpl fullBios. rewrite Hfull.
      specialize (Hrun fuel Hfuel).
      simpl in Himm. destruct Himm as [<- | [<- | [<- | []]]]; exact Hrun.
    + rewrite Hnew, Hev. reflexivity.
    + exact Hstored.
Qed.

End DispatchedDecoders.

(** SWI 0x11 over [lz77_demo_misplaced] logs both errors and stores the
    byte all the same. *)
Lemma swi_decode_unchecked_witness :
  fullBios lz77_demo_misplaced = false
  /\ In 0x11 [0x11; 0x12]
  /\ address_errors lz77_demo_misplaced "Bad LZ77 source" "Bad LZ77 destination"
     = [EvLog GBA_LOG_GAME_ERROR "Bad LZ77 destination";
        EvLog GBA_LOG_GAME_ERROR "Bad LZ77 source"]
  /\ exists gba' new,
      GBASwi16 (F := Rdefinitions.R) 3 0 lz77_demo_misplaced 0x11 = Returns gba'
      /\ events gba'
         = new ++ address_errors lz77_demo_misplaced "Bad LZ77 source"
                    "Bad LZ77 destination"
               ++ events (swi_logged lz77_demo_misplaced)
      /\ stored new = 1.
Proof.
  assert (Himm : In 0x11 [0x11; 0x12]) by (simpl; auto).
  split; [reflexivity|]. split; [exact Himm|]. split; [vm_compute; reflexivity|].
  destruct (swi_decode_unchecked (F := Rdefinitions.R) 0 lz77_demo_misplaced 0x11 eq_refl)
    as (Hlz & _).
  destruct (Hlz Himm) as (gba' & new & Hrun & Hev & Hstored).
  exists gba', new. split; [|split; [exact Hev|]].
  - apply Hrun. vm_compute. lia.
  - rewrite Hstored. vm_compute. reflexivity.
Defined.

(** ** The BIOS checksum *)

Section Checksum.

Lemma GBAChecksum_from_short (image : list Z) :
  forall (words k : nat) (acc : Z),
    (k <= length image < k + words)%nat ->
    GBAChecksum_from words image (4 * Z.of_nat k) acc = Undefined.
Proof.
  induction words as [|words IH]; intros k acc Hlen; [lia|].
  simpl GBAChecksum_from. rewrite shiftr_4k.
  destruct (image !! k) as [word|] eqn:Hk; [|reflexivity].
  apply lookup_lt_Some in Hk.
  replace (4 * Z.of_nat k + 4) with (4 * Z.of_nat (S k)) by lia.
  apply IH. lia.
Qed.

(** X7: [GBAChecksum] adds up the first [ceil(size / 4)] words of the
    image modulo 2^32: a size that is not a multiple of 4 takes in the
    whole of the last word, a size of 0 gives 0, and a size that reaches
    past the image reads past it, which has no defined result. *)
Theorem GBAChecksum_words (image : list Z) (size : Z) :
  0 <= size ->
  let words := Z.to_nat ((size + 3) / 4) in
  GBAChecksum image size
  = if (words <=? length image)%nat then Returns (word_sum (firstn words image))
    else Undefined.
Proof.
  intros Hsize words. unfold GBAChecksum. fold words.
  destruct (Nat.leb_spec words (length image)) as [Hle | Hgt].
  - change 0 with (4 * Z.of_nat 0) at 1.
    rewrite GBAChecksum_from_sum by (simpl; lia).
    simpl skipn. f_equal. rewrite Z.add_0_l. unfold word_sum. apply to_u32_idem.
  - change 0 with (4 * Z.of_nat 0) at 1. apply GBAChecksum_from_short. lia.
Qed.

Lemma word_sum_app (a b : list Z) : word_sum (a ++ b) = to_u32 (word_sum a + word_sum b).
Proof.
  unfold word_sum.
  assert (Hraw : fold_right (fun word acc => to_u32 word + acc) 0 (a ++ b)
                 = fold_right (fun word acc => to_u32 word + acc) 0 a
                   + fold_right (fun word acc => to_u32 word + acc) 0 b).
  { induction a as [|x a IH]; simpl; lia. }
  rewrite Hraw. unfold to_u32. apply Zplus_mod.
Qed.

(** X8: the checksum is additive.  The checksum of two images laid end to
    end is the sum modulo 2^32 of their checksums, so it does not change
    when the two are exchanged. *)
Theorem GBAChecksum_additive (a b : list Z) :
  let size_of (image : list Z) := 4 * Z.of_nat (length image) in
  exists sum_a sum_b,
    GBAChecksum a (size_of a) = Returns sum_a
    /\ GBAChecksum b (size_of b) = Returns sum_b
    /\ GBAChecksum (a ++ b) (size_of (a ++ b)) = Returns (to_u32 (sum_a + sum_b))
    /\ GBAChecksum (b ++ a) (size_of (b ++ a)) = GBAChecksum (a ++ b) (size_of (a ++ b)).
Proof.
  intros size_of.
  assert (Hwhole : forall image : list Z,
             GBAChecksum image (size_of image) = Returns (word_sum image)).
  { intros image. unfold size_of. rewrite GBAChecksum_sum by lia.
    replace ((4 * Z.of_nat (length image) + 3) / 4) with (Z.of_nat (length image))
      by lia_mod.
    rewrite Nat2Z.id, firstn_all. reflexivity. }
  exists (word_sum a), (word_sum b).
  rewrite !Hwhole, !word_sum_app. repeat split. f_equal. f_equal. lia.
Qed.

End Checksum.

(** Five bytes of a two-word image take in both words. *)
Lemma GBAChecksum_words_witness :
  0 <= 5 /\ GBAChecksum [0xFFFFFFFF; 2] 5 = Returns 1 /\ GBAChecksum [0xFFFFFFFF; 2] 9 = Undefined.
Proof.
  split; [lia|]. split.
  - exact (GBAChecksum_words [0xFFFFFFFF; 2] 5 ltac:(lia)).
  - reflexivity.
Defined.

(** ** The affine solvers *)

Lemma loaded_app c (evs evs' : list event) :
  loaded c (evs ++ evs') = loaded c evs + loaded c evs'.
Proof. induction evs as [|e evs IH]; simpl; lia. Qed.

Lemma to_u32_to_s32_add z c : to_u32 (to_s32 z + c) = to_u32 (z + c).
Proof. rewrite <- to_u32_add_l, to_u32_to_s32, to_u32_add_l. reflexivity. Qed.

Section AffineFootprint.
Context {M : Type} {bus : MemoryBus M} {F : Type} {fpu : FPU F}.

(** One entry of [_BgAffineSet]: seven loads from the entry, six stores
    to the result. *)
Lemma _BgAffineSet_body_events (gba : GBA M) offset destination :
  exists a b c d rx ry,
    _BgAffineSet_body gba offset destination
    = (fst (fst (_BgAffineSet_body gba offset destination)),
       to_s32 (offset + 20), to_s32 (destination + 16))
    /\ events (fst (fst (_BgAffineSet_body gba offset destination)))
       = [EvStore 4 (to_u32 (destination + 12)) ry;
          EvStore 4 (to_u32 (destination + 8)) rx;
          EvStore 2 (to_u32 (destination + 6)) d;
          EvStore 2 (to_u32 (destination + 4)) c;
          EvStore 2 (to_u32 (destination + 2)) b;
          EvStore 2 (to_u32 (destination + 0)) a;
          EvLoad 2 Block (to_u32 (offset + 16));
          EvLoad 2 Block (to_u32 (offset + 14));
          EvLoad 2 Block (to_u32 (offset + 12));
          EvLoad 2 Block (to_u32 (offset + 10));
          EvLoad 2 Block (to_u32 (offset + 8));
          EvLoad 4 Block (to_u32 (offset + 4));
          EvLoad 4 Block (to_u32 (offset + 0))]
         ++ events gba.
Proof.
  unfold _BgAffineSet_body. simpl. rewrite !Z.add_0_r.
  do 6 eexists. split; reflexivity.
Qed.

Lemma _BgAffineSet_loop_footprint (base dbase : Z) (i : nat) :
  forall (gba : GBA M) offset destination j,
    0 <= j ->
    (forall c, to_u32 (offset + c) = to_u32 (base + (20 * j + c))) ->
    (forall c, to_u32 (destination + c) = to_u32 (dbase + (16 * j + c))) ->
    exists new,
      events (_BgAffineSet_loop i gba offset destination) = new ++ events gba
      /\ loaded Block new = 18 * Z.of_nat i
      /\ stored new = 16 * Z.of_nat i
      /\ loads_within Block base (20 * j) (20 * (j + Z.of_nat i)) new
      /\ stores_within dbase (16 * j) (16 * (j + Z.of_nat i)) new.
Proof.
  induction i as [|i IH]; intros gba offset destination j Hj Hoff Hdest.
  - exists []. simpl. repeat split; intros ? ? *; contradiction.
  - cbn [_BgAffineSet_loop].
    destruct (_BgAffineSet_body_events gba offset destination)
      as (a & b & c & d & rx & ry & Hbody & Hev).
    rewrite Hbody.
    set (gba1 := fst (fst (_BgAffineSet_body gba offset destination))) in *.
    destruct (IH gba1 (to_s32 (offset + 20)) (to_s32 (destination + 16)) (j + 1)
                ltac:(lia)) as (new & Hnew & Hloaded & Hstored & Hlw & Hsw).
    { intros k. rewrite to_u32_to_s32_add, <- Z.add_assoc, Hoff. f_equal. lia. }
    { intros k. rewrite to_u32_to_s32_add, <- Z.add_assoc, Hdest. f_equal. lia. }
    rewrite Hev in Hnew. rewrite app_assoc in Hnew.
    eexists. split; [exact Hnew|].
    rewrite loaded_app, stored_app, Hloaded, Hstored.
    split; [simpl; lia|]. split; [simpl; lia|]. split.
    + intros width address Hin. apply in_app_or in Hin. destruct Hin as [Hin | Hin].
      * destruct (Hlw width address Hin) as (k & Hk1 & Hk2 & Hk3).
        exists k. split; [lia|]. split; [lia | exact Hk3].
      * simpl in Hin.
        repeat (destruct Hin as [Hin | Hin];
                [first [ discriminate Hin
                       | injection Hin as <- <-; rewrite Hoff;
                         eexists; split; [|split; [|reflexivity]]; lia ]|]).
        contradiction.
    + intros width address value Hin. apply in_app_or in Hin.
      destruct Hin as [Hin | Hin].
      * destruct (Hsw width address value Hin) as (k & Hk1 & Hk2 & Hk3).
        exists k. split; [lia|]. split; [lia | exact Hk3].
      * simpl in Hin.
        repeat (destruct Hin as [Hin | Hin];
                [first [ discriminate Hin
                       | injection Hin as <- <- <-; rewrite Hdest;
                         eexists; split; [|split; [|reflexivity]]; lia ]|]).
        contradiction.
Qed.





End AffineFootprint.

(** ** Decoding nothing *)

Section EmptyStreams.
Context {M : Type} {bus : MemoryBus M}.

(** X11: a header that declares a length of zero makes LZ77, RLE and
    UnFilter return at once, whatever the fuel: the header is the only
    thing read, nothing is stored and guest memory is as it was, r0 is
    four bytes past the header and r1 is still the destination, except
    that RLE with 16-bit stores moves an odd destination on to the next
    even address.  Huffman, for a symbol width that divides 32, reads the
    header, the tree size and the root node, stores nothing and leaves r0
    past the tree. *)
Theorem decode_nothing (fuel : nat) (junk : Z) (gba : GBA M) (width inwidth outwidth : Z) :
  let src_lz := to_u32 (gpr gba 0%fin) in
  let src0 := aligned_source gba in
  let dest0 := to_u32 (gpr gba 1%fin) in
  let header := header_at gba src0 in
  (declared_length (header_at gba src_lz) = 0 ->
   exists gba',
     _unLz77 fuel junk gba width = Returns gba'
     /\ memory gba' = memory gba
     /\ events gba' = EvLoad 4 Stream src_lz :: events gba
     /\ to_u32 (gpr gba' 0%fin) = to_u32 (src_lz + 4)
     /\ to_u32 (gpr gba' 1%fin) = dest0)
  /\ (declared_length header = 0 ->
      (exists gba',
          _unRl fuel gba width = Returns gba'
          /\ memory gba' = memory gba
          /\ events gba' = EvLoad 4 Stream src0 :: events gba
          /\ to_u32 (gpr gba' 0%fin) = to_u32 (src0 + 4)
          /\ to_u32 (gpr gba' 1%fin)
             = if (width =? 2) && negb (Z.land dest0 1 =? 0) then to_u32 (dest0 + 1)
               else dest0)
      /\ (exists gba',
             _unFilter fuel gba inwidth outwidth = Returns gba'
             /\ memory gba' = memory gba
             /\ events gba' = EvLoad 4 Stream src0 :: events gba
             /\ to_u32 (gpr gba' 0%fin) = to_u32 (src0 + 4)
             /\ to_u32 (gpr gba' 1%fin) = dest0)
      /\ (symbol_width header <> 0 -> Z.rem 32 (symbol_width header) = 0 ->
          exists gba',
            _unHuffman fuel gba = Returns gba'
            /\ memory gba' = memory gba
            /\ stored (events gba') = stored (events gba)
            /\ to_u32 (gpr gba' 0%fin) = to_u32 (src0 + (5 + huffman_treesize gba src0))
            /\ to_u32 (gpr gba' 1%fin) = dest0)).
Proof.
  intros src_lz src0 dest0 header.
  pose proof (aligned_source_range gba) as Hsrc0.
  assert (Hsrc : to_u32 (aligned_source gba) = aligned_source gba)
    by (apply to_u32_small; exact Hsrc0).
  unfold header, src0, dest0, src_lz.
  split; [|intros Hlen; split; [|split]].
  - intros Hlen.
    unfold declared_length, header_at, load32 in Hlen. cbn [fst] in Hlen.
    unfold _unLz77, _unLz77_init, load32. cbn [fst snd].
    rewrite declared_length_masked by apply to_u32_range.
    unfold declared_length. rewrite Hlen.
    rewrite _unLz77_loop_stop by (simpl; lia).
    eexists. split; [reflexivity|]. unfold _unLz77_exit. cbn [lz_gba lz_source lz_dest].
    split; [reflexivity|]. split.
    + simpl. rewrite to_u32_idem. reflexivity.
    + rewrite !gpr_set_gpr_ne, gpr_set_gpr by discriminate.
      rewrite gpr_set_gpr_ne, gpr_set_gpr by discriminate.
      rewrite !to_u32_to_s32, !to_u32_idem. split; reflexivity.
  - unfold declared_length, header_at, load32 in Hlen. cbn [fst] in Hlen.
    unfold _unRl, _unRl_init, load32. cbn [fst snd].
    fold (aligned_source gba).
    rewrite declared_length_masked by apply to_u32_range.
    unfold declared_length. rewrite Hlen.
    rewrite _unRl_loop_stop by (simpl; lia).
    eexists. split; [reflexivity|]. unfold _unRl_exit, _unRl_pad. cbn [rl_gba rl_source rl_dest].
    change (Z.land (4 - 0) 3) with 0.
    destruct (width =? 2); [destruct (negb _)|]; cbn [andb];
      change (Z.to_nat (0 - 1)) with O; change (Z.to_nat 0) with O;
      cbn [_unRl_pad16 _unRl_pad8];
      (split; [reflexivity|]; split; [simpl; rewrite Hsrc; reflexivity|]);
      rewrite gpr_set_gpr_ne, !gpr_set_gpr by discriminate;
      rewrite !to_u32_to_s32, !to_u32_idem; split; reflexivity.
  - unfold declared_length, header_at, load32 in Hlen. cbn [fst] in Hlen.
    unfold _unFilter, _unFilter_init, load32. cbn [fst snd].
    fold (aligned_source gba). rewrite Hlen.
    rewrite _unFilter_loop_stop by (simpl; lia).
    eexists. split; [reflexivity|]. unfold _unFilter_exit.
    cbn [uf_gba uf_source uf_dest].
    split; [reflexivity|]. split; [simpl; rewrite Hsrc; reflexivity|].
    rewrite gpr_set_gpr_ne, !gpr_set_gpr by discriminate.
    rewrite !to_u32_to_s32, !to_u32_idem. split; reflexivity.
  - intros Hw Hrem.
    unfold declared_length, header_at, load32 in Hlen. cbn [fst] in Hlen.
    unfold symbol_width, header_at, load32 in Hw, Hrem. cbn [fst] in Hw, Hrem.
    apply Z.eqb_neq in Hw. apply Z.eqb_eq in Hrem.
    unfold _unHuffman, load32, loadU8, load8. cbn [fst snd].
    fold (aligned_source gba). rewrite Hsrc in *. rewrite Hw, Hrem, Hlen. cbn [negb].
    change (Z.land 0 4294967292) with 0. change (Z.land (4 - 0) 3) with 0.
    cbn [_unHuffman_loop hf_remaining Z.gtb Z.compare Z.eqb negb].
    destruct fuel; cbn [_unHuffman_loop hf_remaining Z.gtb Z.compare];
      (eexists; split; [reflexivity|]); cbn [hf_gba hf_source hf_dest];
      (split; [reflexivity|]; split; [reflexivity|]);
      rewrite gpr_set_gpr_ne, !gpr_set_gpr by discriminate;
      rewrite !to_u32_to_s32, !to_u32_idem; unfold huffman_treesize, loadU8; cbn [fst];
      split; reflexivity.
Qed.

End EmptyStreams.

(** ** How much of the stream a decode reads *)

Section InputBounds.
Context {M : Type} {bus : MemoryBus M}.

Lemma lz77_bytes_least block : 3 <= lz77_bytes block.
Proof.
  unfold lz77_bytes.
  assert (0 <= Z.shiftr (Z.land block 0x00F0) 4)
    by (apply Z.shiftr_nonneg, Z.land_nonneg; right; lia).
  lia.
Qed.

Lemma loaded_Stream_put_byte width (gba : GBA M) dest halfword byte :
  loaded Stream (events (fst (put_byte width gba dest halfword byte)))
  = loaded Stream (events gba).
Proof.
  unfold put_byte. destruct (width =? 2); [destruct (negb _)|]; reflexivity.
Qed.

Lemma loaded_Stream_unLz77_copy width (n : nat) :
  forall (gba : GBA M) disp dest remaining halfword,
    let '(gba', _, _, _) := _unLz77_copy n width gba disp dest remaining halfword in
    loaded Stream (events gba') = loaded Stream (events gba).
Proof.
  induction n as [|n IH]; intros gba disp dest remaining halfword; [reflexivity|].
  cbn [_unLz77_copy]. destruct (remaining =? 0); [reflexivity|].
  unfold loadU8.
  pose proof (loaded_Stream_put_byte width (emit (EvLoad 1 Window (to_u32 disp)) gba)
                dest halfword (to_u8 (bus_loadU8 (memory gba) (to_u32 disp)))) as Hput.
  destruct (put_byte width _ dest halfword _) as [gba1 halfword1]. cbn [fst] in Hput.
  specialize (IH gba1 (to_u32 (disp + 1)) (to_u32 (dest + 1)) (remaining - 1) halfword1).
  destruct (_unLz77_copy n width gba1 _ _ _ _) as [[[gba' dest'] remaining'] halfword'].
  rewrite IH, Hput. reflexivity.
Qed.

(** A pass of the LZ77 loop: a flag byte costs one byte of stream and
    covers eight chunks, a literal costs one byte and a back-reference two,
    and each of them puts out at least one byte. *)
Lemma _unLz77_body_potential width (s : lz77_state M) :
  0 < lz_remaining s -> 0 <= lz_blocksRemaining s <= 8 ->
  lz_potential (_unLz77_body width s) <= lz_potential s
  /\ 0 <= lz_remaining (_unLz77_body width s)
  /\ 0 <= lz_blocksRemaining (_unLz77_body width s) <= 8.
Proof.
  intros Hrem Hblocks. unfold lz_potential, _unLz77_body.
  destruct (Z.eqb_spec (lz_blocksRemaining s) 0) as [Hz | Hnz]; cbn [negb].
  - unfold loadU8. simpl. lia.
  - destruct (Z.land (lz_blockheader s) 0x80 =? 0); cbn [negb]; unfold loadU8;
      cbn [fst snd].
    + match goal with
      | |- context [put_byte width ?g ?d ?h ?b] =>
          pose proof (loaded_Stream_put_byte width g d h b) as Hput;
          destruct (put_byte width g d h b) as [gba1 halfword1]
      end.
      cbn [fst] in Hput. cbn [lz_gba lz_remaining lz_blocksRemaining]. rewrite Hput.
      cbn [events emit loaded event_loaded cursor_eqb]. lia.
    + match goal with
      | |- context [_unLz77_copy (Z.to_nat ?bytes) width ?g ?p ?d ?r ?h] =>
          assert (Hmin : 3 <= bytes) by apply lz77_bytes_least;
          set (k := bytes) in *; clearbody k;
          pose proof (loaded_Stream_unLz77_copy width (Z.to_nat k) g p d r h) as Hcopy;
          pose proof (_unLz77_copy_counts width (Z.to_nat k) g p d r h ltac:(lia))
            as Hcount;
          destruct (_unLz77_copy (Z.to_nat k) width g p d r h)
            as [[[gba1 dest1] remaining1] halfword1]
      end.
      destruct Hcount as (_ & Hr & _).
      cbn [lz_gba lz_remaining lz_blocksRemaining]. rewrite Hcopy, Hr.
      cbn [events emit loaded event_loaded cursor_eqb]. lia.
Qed.

Lemma _unLz77_loop_potential width (fuel : nat) :
  forall s s' : lz77_state M,
    0 <= lz_remaining s -> 0 <= lz_blocksRemaining s <= 8 ->
    _unLz77_loop fuel width s = Returns s' ->
    lz_potential s' <= lz_potential s
    /\ lz_remaining s' = 0
    /\ 0 <= lz_blocksRemaining s' <= 8.
Proof.
  induction fuel as [|fuel IH]; intros s s' Hrem Hblocks; simpl;
    destruct (Z.gtb_spec (lz_remaining s) 0) as [Hpos | Hdone]; intros H;
    try discriminate; try (injection H as <-; lia).
  destruct (_unLz77_body_potential width s Hpos Hblocks) as (Hpot & Hrem1 & Hblocks1).
  destruct (IH _ _ Hrem1 Hblocks1 H) as (Hpot' & Hzero & Hblocks').
  lia.
Qed.

End InputBounds.

Section InputBoundsClaim.
Context {M : Type} {bus : MemoryBus M}.

(** X12: how far a decode can run through its input.  With [len] the
    declared length, LZ77 reads the 4 header bytes and then at most 17
    bytes for every 8 bytes of output, and one more: a flag byte for every
    eight chunks and at most two bytes for a chunk, which puts out at least
    one byte.  RLE reads the header and then at most two bytes for every
    byte of output.  In both cases r0 is left that many bytes past where
    it started and nothing beyond it has been read from the stream. *)
Theorem decode_input_bounds (junk : Z) (gba : GBA M) (width : Z) :
  let src_lz := to_u32 (gpr gba 0%fin) in
  let src0 := aligned_source gba in
  let dest0 := to_u32 (gpr gba 1%fin) in
  let len_lz := declared_length (header_at gba src_lz) in
  let len := declared_length (header_at gba src0) in
  (exists gba' n_in,
      (forall fuel, (Z.to_nat (2 * len_lz + 1) <= fuel)%nat ->
                    _unLz77 fuel junk gba width = Returns gba')
      /\ decoded gba gba' src_lz 0 dest0 n_in (lz77_stored width dest0 len_lz)
           len_lz len_lz
      /\ 4 <= n_in
      /\ 8 * (n_in - 4) <= 17 * len_lz + 8)
  /\ (exists gba' n_in,
         (forall fuel, (Z.to_nat len <= fuel)%nat -> _unRl fuel gba width = Returns gba')
         /\ decoded gba gba' src0 0 dest0 n_in (rl_stored width dest0 len)
              (len + rl_pad_advance width dest0 len)
              (len + rl_pad_advance width dest0 len)
         /\ 4 <= n_in <= 4 + 2 * len).
Proof.
  intros src_lz src0 dest0 len_lz len. split.
  - destruct (_unLz77_run junk gba width) as (gba' & n_in & Hrun & Hdec & Hin & _).
    fold src_lz dest0 len_lz in Hrun, Hdec, Hin.
    exists gba', n_in. split; [exact Hrun|]. split; [exact Hdec|]. split; [lia|].
    pose proof (declared_length_range _ (header_at_range gba src_lz)) as Hlen.
    fold len_lz in Hlen.
    specialize (Hrun _ (Nat.le_refl _)). unfold _unLz77 in Hrun.
    destruct (_unLz77_loop _ width (_unLz77_init junk gba)) as [s'| |] eqn:Hloop;
      try discriminate.
    injection Hrun as <-.
    assert (Hinit : lz_remaining (_unLz77_init junk gba) = len_lz
                    /\ lz_blocksRemaining (_unLz77_init junk gba) = 0
                    /\ events (lz_gba (_unLz77_init junk gba))
                       = EvLoad 4 Stream (to_u32 src_lz) :: events gba).
    { unfold _unLz77_init, load32. cbn [fst snd lz_remaining lz_blocksRemaining lz_gba].
      fold src_lz. rewrite declared_length_masked by apply to_u32_range.
      repeat split. }
    destruct Hinit as (Hrem0 & Hblocks0 & Hev0).
    assert (Hrem1 : 0 <= lz_remaining (_unLz77_init junk gba)) by lia.
    assert (Hblocks1 : 0 <= lz_blocksRemaining (_unLz77_init junk gba) <= 8) by lia.
    destruct (_unLz77_loop_potential width _ _ _ Hrem1 Hblocks1 Hloop)
      as (Hpot & Hzero & Hblocks).
    unfold lz_potential in Hpot. rewrite Hrem0, Hblocks0, Hev0, Hzero in Hpot.
    destruct Hdec as ((new & Hnew & Hloaded & _) & _).
    change (events (_unLz77_exit s')) with (events (lz_gba s')) in Hnew.
    rewrite Hnew, loaded_app in Hpot. simpl in Hpot. lia.
  - destruct (_unRl_run gba width) as (gba' & n_in & Hrun & Hdec & Hin & _).
    exists gba', n_in. split; [exact Hrun|]. split; [exact Hdec | exact Hin].
Qed.

End InputBoundsClaim.

(** ** The last word of a Huffman decode *)

Section HuffmanFlush.
Context {M : Type} {bus : MemoryBus M}.

Lemma _unHuffman_bit_drained bits treeBase bitstream (s : huffman_state M) :
  0 < hf_remaining s -> hf_drained (_unHuffman_bit bits treeBase bitstream s).
Proof.
  intros Hrem. unfold hf_drained, _unHuffman_bit, load8. cbn [fst snd].
  destruct (if negb _ then _ else _); [destruct (_ =? 32)|]; simpl; lia.
Qed.

Lemma _unHuffman_word_drained bits treeBase (n : nat) :
  forall bitstream (s : huffman_state M),
    hf_drained s -> hf_drained (_unHuffman_word n bits treeBase bitstream s).
Proof.
  induction n as [|n IH]; intros bitstream s Hs; simpl; [exact Hs|].
  destruct (Z.gtb_spec (hf_remaining s) 0) as [Hpos | _]; [|exact Hs].
  apply IH, _unHuffman_bit_drained. exact Hpos.
Qed.

Lemma _unHuffman_loop_drained bits treeBase (fuel : nat) :
  forall s s' : huffman_state M,
    hf_drained s -> _unHuffman_loop fuel bits treeBase s = Returns s' -> hf_block s' = 0.
Proof.
  induction fuel as [|fuel IH]; intros s s' Hs; simpl;
    destruct (Z.gtb_spec (hf_remaining s) 0) as [Hpos | Hdone]; intros H;
    try discriminate; try (injection H as <-; apply Hs; exact Hdone).
  eapply IH; [|exact H].
  unfold _unHuffman_body, load32. cbn [fst snd].
  apply _unHuffman_word_drained. unfold hf_drained. simpl. lia.
Qed.

(** X13: with a symbol width that passes the check (it divides 32), the
    bytes that a Huffman header declares beyond a multiple of 4 are never
    decoded.  The loop puts out whole words and stops when fewer than 4
    bytes are due; when the declared length is not a multiple of 4, a
    call that returns ends by storing one more word, which is always
    zero, at the address it leaves in r1, [4 * (len / 4)] bytes past the
    destination. *)
Theorem Huffman_flushes_zero (fuel : nat) (gba gba' : GBA M) :
  let header := header_at gba (aligned_source gba) in
  let len := declared_length header in
  symbol_width header <> 0 ->
  Z.rem 32 (symbol_width header) = 0 ->
  len mod 4 <> 0 ->
  _unHuffman fuel gba = Returns gba' ->
  to_u32 (gpr gba' 1%fin) = to_u32 (to_u32 (gpr gba 1%fin) + 4 * (len / 4))
  /\ exists evs,
      events gba' = EvStore 4 (to_u32 (gpr gba' 1%fin)) 0 :: evs
      /\ stored evs = stored (events gba) + 4 * (len / 4).
Proof.
  intros header len Hw Hrem Hmod Hrun.
  destruct (_unHuffman_run fuel gba gba' Hw Hrem Hrun) as (n_in & _ & Hdec).
  fold header in Hdec. fold len in Hdec.
  destruct Hdec as ((new & Hnew & _ & _ & Hstored & _) & _ & Hr1).
  split; [exact Hr1|].
  pose proof (declared_length_range _ (header_at_range gba (aligned_source gba))) as Hlen.
  fold header in Hlen. fold len in Hlen.
  unfold header, symbol_width, header_at, load32 in Hw, Hrem. cbn [fst] in Hw, Hrem.
  apply Z.eqb_neq in Hw. apply Z.eqb_eq in Hrem.
  unfold _unHuffman, load32, loadU8, load8 in Hrun. cbn [fst snd] in Hrun.
  fold (aligned_source gba) in Hrun. rewrite Hw, Hrem in Hrun. cbn [negb] in Hrun.
  match type of Hrun with
  | context [_unHuffman_loop fuel ?b ?t ?s0] =>
      destruct (_unHuffman_loop fuel b t s0) as [s| |] eqn:Hloop; try discriminate;
      assert (Hblock : hf_block s = 0)
        by (apply (_unHuffman_loop_drained b t fuel s0 s); [intros _; reflexivity|exact Hloop])
  end.
  assert (Hpad : negb (Z.land (4 - len) 3 =? 0) = true).
  { rewrite land_3. apply negb_true_iff, Z.eqb_neq. lia_mod. }
  unfold len, header, declared_length, header_at, load32 in Hpad. cbn [fst] in Hpad.
  rewrite Hpad in Hrun. injection Hrun as <-.
  rewrite Hblock. eexists. split.
  - simpl events. rewrite gpr_set_gpr, to_u32_to_s32. reflexivity.
  - rewrite Hblock in Hnew. simpl events in Hnew.
    destruct new as [|e new]; [simpl in Hnew|].
    + exfalso. simpl in Hstored. lia_mod.
    + simpl in Hnew. injection Hnew as <- ->.
      rewrite stored_app. simpl in Hstored. lia_mod.
Qed.

End HuffmanFlush.

(** [huffman_demo_short] declares one byte: nothing is decoded, and a zero
    word goes to the destination. *)
Lemma Huffman_flushes_zero_witness :
  symbol_width (header_at huffman_demo_short (aligned_source huffman_demo_short)) <> 0
  /\ Z.rem 32 (symbol_width
                 (header_at huffman_demo_short (aligned_source huffman_demo_short))) = 0
  /\ declared_length (header_at huffman_demo_short (aligned_source huffman_demo_short))
     mod 4 <> 0
  /\ exists gba' evs,
      _unHuffman 0 huffman_demo_short = Returns gba'
      /\ events gba' = EvStore 4 (to_u32 (gpr gba' 1%fin)) 0 :: evs.
Proof.
  assert (Hw : symbol_width
                 (header_at huffman_demo_short (aligned_source huffman_demo_short)) <> 0)
    by (vm_compute; discriminate).
  assert (Hrem : Z.rem 32 (symbol_width
                   (header_at huffman_demo_short (aligned_source huffman_demo_short))) = 0)
    by (vm_compute; reflexivity).
  assert (Hmod : declared_length
                   (header_at huffman_demo_short (aligned_source huffman_demo_short))
                 mod 4 <> 0) by (vm_compute; discriminate).
  split; [exact Hw|]. split; [exact Hrem|]. split; [exact Hmod|].
  assert (Hret : on_return (fun _ => tt) (_unHuffman 0 huffman_demo_short) = Some tt)
    by (vm_compute; reflexivity).
  destruct (on_return_Returns _ _ _ Hret) as (gba' & Hrun & _).
  destruct (Huffman_flushes_zero 0 huffman_demo_short gba' Hw Hrem Hmod Hrun)
    as (_ & evs & Hev & _).
  exists gba', evs. split; [exact Hrun | exact Hev].
Defined.

(** ** What the 8-bit UnFilter leaves in memory *)

Lemma to_u8_to_u16 z : to_u8 (to_u16 z) = to_u8 z.
Proof.
  unfold to_u8, to_u16. apply Z.mod_mod_divide. exists (2 ^ 8). reflexivity.
Qed.

Lemma to_u16_add_r a b : to_u16 (a + to_u16 b) = to_u16 (a + b).
Proof. unfold to_u16. apply Zplus_mod_idemp_r. Qed.

Section UnFilterSums.
Context {M : Type} {bus : MemoryBus M}.
Variable (gba : GBA M) (data dest0 len : Z).
Hypothesis ram : ByteRam bus.
Hypothesis len_range : 0 <= len < 2 ^ 24.
Hypothesis ahead :
  forall j k : nat,
    (k < j)%nat -> Z.of_nat j < len ->
    to_u32 (data + Z.of_nat j) <> to_u32 (dest0 + Z.of_nat k).

Lemma _unFilter_body_sums (s : unfilter_state M) (k : nat) :
  uf8_inv gba data dest0 len s k -> Z.of_nat k < len ->
  uf8_inv gba data dest0 len (_unFilter_body 1 1 s) (S k).
Proof.
  intros (Hsrc & Hdest & Hrem & Hold & Hout & Hrest) Hk.
  pose proof len_range as Hlen. change (2 ^ 24) with 16777216 in Hlen.
  assert (Hin : to_u8 (bus_loadU8 (memory (uf_gba s)) (to_u32 (uf_source s)))
                = byte_at gba (data + Z.of_nat k)).
  { rewrite Hsrc, to_u32_idem.
    change (to_u8 (bus_loadU8 (memory (uf_gba s)) (to_u32 (data + Z.of_nat k))))
      with (byte_at (uf_gba s) (data + Z.of_nat k)).
    apply Hrest. intros i Hi. apply ahead; assumption. }
  unfold _unFilter_body, loadU8.
  change (1 >? 1) with false. change (1 =? 1) with true. cbv iota. cbn [fst snd].
  rewrite Hin.
  set (new := to_u16 (byte_at gba (data + Z.of_nat k) + uf_old s)).
  assert (Hnew : new = to_u16 (byte_sum gba data (S k))).
  { unfold new. rewrite Hold, to_u16_add_r. cbn [byte_sum]. f_equal. lia. }
  assert (Hdistinct : forall i : nat,
             (i < k)%nat -> to_u32 (dest0 + Z.of_nat i) <> to_u32 (dest0 + Z.of_nat k)).
  { intros i Hi Heq. unfold to_u32 in Heq. change (2 ^ 32) with 4294967296 in *.
    lia_mod. }
  assert (Hread : forall b,
             byte_at (store8 (emit (EvLoad 1 Stream (to_u32 (uf_source s))) (uf_gba s))
                        (uf_dest s) new) b
             = if to_u32 b =? to_u32 (dest0 + Z.of_nat k) then to_u8 new
               else byte_at (uf_gba s) b).
  { intros b. unfold byte_at, loadU8, store8. cbn [fst]. simpl memory.
    rewrite Hdest, to_u32_idem.
    rewrite loadU8_store8 by apply to_u32_range.
    rewrite to_u8_to_s8. reflexivity. }
  unfold uf8_inv. cbn [uf_source uf_dest uf_remaining uf_old uf_gba].
  split; [rewrite Hsrc, to_u32_add_l; apply (f_equal to_u32); lia|].
  split; [rewrite Hdest, to_u32_add_l; apply (f_equal to_u32); lia|].
  split; [rewrite Hrem, to_s32_small; change (2 ^ 31) with 2147483648; lia|].
  split; [exact Hnew|]. split.
  - intros i Hi. rewrite Hread.
    destruct (Z.eqb_spec (to_u32 (dest0 + Z.of_nat i)) (to_u32 (dest0 + Z.of_nat k)))
      as [Heq | Hne].
    + assert (i = k).
      { destruct (Nat.eq_dec i k) as [|Hik]; [assumption|].
        exfalso. apply (Hdistinct i); [lia | exact Heq]. }
      subst i. rewrite Hnew. apply to_u8_to_u16.
    + apply Hout. destruct (Nat.eq_dec i k) as [->|]; [congruence | lia].
  - intros b Hb. rewrite Hread.
    destruct (Z.eqb_spec (to_u32 b) (to_u32 (dest0 + Z.of_nat k))) as [Heq | Hne].
    + exfalso. apply (Hb k); [lia | exact Heq].
    + apply Hrest. intros i Hi. apply Hb. lia.
Qed.

Lemma _unFilter_loop_sums (n : nat) :
  forall (s : unfilter_state M) (k : nat),
    uf8_inv gba data dest0 len s k ->
    len - Z.of_nat k = Z.of_nat n ->
    exists s',
      (forall fuel, (n <= fuel)%nat -> _unFilter_loop fuel 1 1 s = Returns s')
      /\ uf8_inv gba data dest0 len s' (Z.to_nat len).
Proof.
  induction n as [|n IH]; intros s k Hinv Hn.
  - exists s. split.
    + intros fuel _. apply _unFilter_loop_stop. destruct Hinv as (_ & _ & Hrem & _). lia.
    + replace (Z.to_nat len) with k by lia. exact Hinv.
  - pose proof (_unFilter_body_sums s k Hinv ltac:(lia)) as Hinv'.
    destruct (IH _ _ Hinv' ltac:(lia)) as (s' & Hrun & Hfinal).
    exists s'. split; [|exact Hfinal].
    intros [|fuel] Hfuel; [lia|].
    rewrite _unFilter_loop_step by (destruct Hinv as (_ & _ & Hrem & _); lia).
    apply Hrun. lia.
Qed.

End UnFilterSums.

Section UnFilterSumsClaim.
Context {M : Type} {bus : MemoryBus M}.

(** X14: what SWI 0x16 leaves in memory, over a bus that keeps bytes as a
    RAM does.  If no difference still to be read lies where an earlier
    byte of the output goes (the output may start at the differences
    themselves, or anywhere below them), then output byte [i] is the sum
    modulo 256 of the differences 0 to [i], and every byte of memory
    outside the output is as it was. *)
Theorem unFilter8_running_sums (gba : GBA M) :
  ByteRam bus ->
  let data := aligned_source gba + 4 in
  let dest0 := to_u32 (gpr gba 1%fin) in
  let len := declared_length (header_at gba (aligned_source gba)) in
  (forall j k : nat,
      (k < j)%nat -> Z.of_nat j < len ->
      to_u32 (data + Z.of_nat j) <> to_u32 (dest0 + Z.of_nat k)) ->
  exists gba',
    (forall fuel, (Z.to_nat len <= fuel)%nat -> _unFilter fuel gba 1 1 = Returns gba')
    /\ (forall i : nat,
          Z.of_nat i < len ->
          byte_at gba' (dest0 + Z.of_nat i) = to_u8 (byte_sum gba data (S i)))
    /\ (forall b,
          (forall i : nat, Z.of_nat i < len -> to_u32 b <> to_u32 (dest0 + Z.of_nat i)) ->
          byte_at gba' b = byte_at gba b).
Proof.
  intros Hram data dest0 len Hahead.
  pose proof (declared_length_range _ (header_at_range gba (aligned_source gba))) as Hlen.
  fold len in Hlen.
  assert (Hinit : uf8_inv gba data dest0 len (_unFilter_init gba) 0).
  { unfold uf8_inv, _unFilter_init, load32. cbn [fst snd].
    cbn [uf_source uf_dest uf_remaining uf_old uf_gba byte_sum].
    change (Z.of_nat 0) with 0. rewrite !Z.add_0_r, Z.sub_0_r.
    fold (aligned_source gba). fold data.
    split; [reflexivity|]. split; [unfold dest0; symmetry; apply to_u32_idem|].
    split; [reflexivity|]. split; [reflexivity|]. split; [intros i Hi; lia|].
    intros b _. reflexivity. }
  destruct (_unFilter_loop_sums gba data dest0 len Hram Hlen Hahead (Z.to_nat len)
              (_unFilter_init gba) 0%nat Hinit ltac:(lia)) as (s' & Hrun & Hfinal).
  exists (_unFilter_exit s'). split; [|split].
  - intros fuel Hfuel. unfold _unFilter. rewrite (Hrun fuel Hfuel). reflexivity.
  - intros i Hi. destruct Hfinal as (_ & _ & _ & _ & Hout & _).
    change (byte_at (_unFilter_exit s') ?b) with (byte_at (uf_gba s') b).
    apply Hout. lia.
  - intros b Hb. destruct Hfinal as (_ & _ & _ & _ & _ & Hrest).
    change (byte_at (_unFilter_exit s') ?b) with (byte_at (uf_gba s') b).
    apply Hrest. intros i Hi. apply Hb. lia.
Qed.

End UnFilterSumsClaim.

(** SWI 0x16 over [unfilter_demo]: the differences 1, 2, 3, 4 give 1, 3, 6
    and 10. *)
Lemma unFilter8_running_sums_witness :
  ByteRam ram_bus
  /\ (forall j k : nat,
         (k < j)%nat ->
         Z.of_nat j < declared_length (header_at unfilter_demo (aligned_source unfilter_demo)) ->
         to_u32 (aligned_source unfilter_demo + 4 + Z.of_nat j)
         <> to_u32 (to_u32 (gpr unfilter_demo 1%fin) + Z.of_nat k))
  /\ exists gba',
      _unFilter 4 unfilter_demo 1 1 = Returns gba'
      /\ byte_at gba' (0x03000000 + 3) = 10.
Proof.
  assert (Hlen : declared_length (header_at unfilter_demo (aligned_source unfilter_demo)) = 4)
    by (vm_compute; reflexivity).
  assert (Hdata : aligned_source unfilter_demo + 4 = 0x02000004) by (vm_compute; reflexivity).
  assert (Hdest : to_u32 (gpr unfilter_demo 1%fin) = 0x03000000) by (vm_compute; reflexivity).
  assert (Hahead : forall j k : nat,
             (k < j)%nat ->
             Z.of_nat j
             < declared_length (header_at unfilter_demo (aligned_source unfilter_demo)) ->
             to_u32 (aligned_source unfilter_demo + 4 + Z.of_nat j)
             <> to_u32 (to_u32 (gpr unfilter_demo 1%fin) + Z.of_nat k)).
  { intros j k Hkj Hj. rewrite Hlen in Hj. rewrite Hdata, Hdest. unfold to_u32.
    change (2 ^ 32) with 4294967296. lia_mod. }
  split; [exact ram_byte_ram|]. split; [exact Hahead|].
  destruct (unFilter8_running_sums unfilter_demo ram_byte_ram Hahead)
    as (gba' & Hrun & Hout & _).
  exists gba'. split.
  - apply Hrun. rewrite Hlen. vm_compute. lia.
  - pose proof (Hout 3%nat ltac:(rewrite Hlen; lia)) as Hbyte. rewrite Hdest in Hbyte.
    change (byte_at gba' (0x03000000 + Z.of_nat 3) = 10).
    rewrite Hbyte. vm_compute. reflexivity.
Defined.

(** ** What a run-length block leaves in memory *)

Section RunLengthBlocks.
Context {M : Type} {bus : MemoryBus M}.
Hypothesis ram : ByteRam bus.

Lemma byte_at_store8 (gba : GBA M) dest value address :
  byte_at (store8 gba dest value) address
  = if to_u32 address =? to_u32 dest then to_u8 value else byte_at gba address.
Proof.
  unfold byte_at, loadU8, store8. cbn [fst]. simpl memory.
  rewrite loadU8_store8 by apply to_u32_range. rewrite to_u8_to_s8. reflexivity.
Qed.

Lemma to_u32_apart a i j :
  0 <= i < 2 ^ 32 -> 0 <= j < 2 ^ 32 -> i <> j -> to_u32 (a + i) <> to_u32 (a + j).
Proof.
  intros Hi Hj Hne Heq. unfold to_u32 in Heq. change (2 ^ 32) with 4294967296 in *.
  lia_mod.
Qed.

(** A run: the same byte, again and again. *)
Lemma _unRl_fill_memory block (n : nat) :
  forall s : rl_state M,
    0 <= rl_remaining s -> Z.of_nat n < 2 ^ 32 ->
    let count := Z.min (Z.of_nat n) (rl_remaining s) in
    let s' := _unRl_fill n 1 block s in
    rl_source s' = rl_source s
    /\ to_u32 (rl_dest s') = to_u32 (rl_dest s + count)
    /\ rl_remaining s' = rl_remaining s - count
    /\ (forall i : nat,
          Z.of_nat i < count -> byte_at (rl_gba s') (rl_dest s + Z.of_nat i) = to_u8 block)
    /\ (forall a,
          (forall i : nat, Z.of_nat i < count -> to_u32 a <> to_u32 (rl_dest s + Z.of_nat i)) ->
          byte_at (rl_gba s') a = byte_at (rl_gba s) a).
Proof.
  induction n as [|n IH]; intros s Hrem Hn count s'; subst count s'.
  - cbn [_unRl_fill]. rewrite Z.min_l by lia. rewrite Z.add_0_r.
    split; [reflexivity|]. split; [reflexivity|].
    split; [lia|]. split; [intros; lia | reflexivity].
  - cbn [_unRl_fill].
    destruct (Z.eqb_spec (rl_remaining s) 0) as [Hz | Hnz].
    { rewrite Hz, Z.min_r by lia. rewrite Z.add_0_r.
      split; [reflexivity|]. split; [reflexivity|].
      split; [lia|]. split; [intros; lia | reflexivity]. }
    unfold put_byte. change (1 =? 2) with false. cbv iota.
    set (s1 := mkRl (store8 (rl_gba s) (rl_dest s) block) (rl_source s)
                 (to_u32 (rl_dest s + 1)) (rl_remaining s - 1) (rl_halfword s)).
    destruct (IH s1 ltac:(simpl; lia) ltac:(lia)) as (Hsrc & Hdest & Hrem' & Hout & Hrest).
    cbn [rl_source rl_dest rl_remaining rl_gba s1] in Hsrc, Hdest, Hrem', Hout, Hrest.
    set (tail := Z.min (Z.of_nat n) (rl_remaining s - 1)) in *.
    replace (Z.min (Z.of_nat (S n)) (rl_remaining s)) with (1 + tail) by (unfold tail; lia).
    assert (Htail : 0 <= tail < 2 ^ 32 - 1) by (unfold tail; lia).
    split; [exact Hsrc|].
    split; [rewrite Hdest, to_u32_add_l; apply (f_equal to_u32); lia|].
    split; [lia|]. split.
    + intros [|i] Hi.
      * change (Z.of_nat 0) with 0. rewrite Z.add_0_r, Hrest.
        -- rewrite byte_at_store8, Z.eqb_refl. reflexivity.
        -- intros i Hi'. rewrite to_u32_add_l.
           replace (rl_dest s) with (rl_dest s + 0) at 1 by lia.
           replace (rl_dest s + 1 + Z.of_nat i) with (rl_dest s + (1 + Z.of_nat i)) by lia.
           apply to_u32_apart; lia.
      * specialize (Hout i ltac:(lia)).
        rewrite <- Hout. unfold byte_at, loadU8. cbn [fst].
        rewrite to_u32_add_l. do 3 f_equal. lia.
    + intros a Ha. rewrite Hrest.
      * rewrite byte_at_store8.
        destruct (Z.eqb_spec (to_u32 a) (to_u32 (rl_dest s))) as [Heq | Hne]; [|reflexivity].
        exfalso. apply (Ha 0%nat); [lia|]. rewrite Heq. f_equal. simpl. lia.
      * intros i Hi. rewrite to_u32_add_l.
        replace (rl_dest s + 1 + Z.of_nat i) with (rl_dest s + Z.of_nat (S i)) by lia.
        apply Ha. lia.
Qed.

(** A literal block: bytes of the stream, one after the other.  No byte
    still to be copied may lie where an earlier byte of the block goes. *)
Lemma _unRl_copy_memory (n : nat) :
  forall s : rl_state M,
    0 <= rl_remaining s -> Z.of_nat n < 2 ^ 32 ->
    let count := Z.min (Z.of_nat n) (rl_remaining s) in
    let s' := _unRl_copy n 1 s in
    to_u32 (rl_source s') = to_u32 (rl_source s + count)
    /\ to_u32 (rl_dest s') = to_u32 (rl_dest s + count)
    /\ rl_remaining s' = rl_remaining s - count
    /\ (forall a,
          (forall i : nat, Z.of_nat i < count -> to_u32 a <> to_u32 (rl_dest s + Z.of_nat i)) ->
          byte_at (rl_gba s') a = byte_at (rl_gba s) a)
    /\ ((forall j k : nat,
            (k < j)%nat -> Z.of_nat j < count ->
            to_u32 (rl_source s + Z.of_nat j) <> to_u32 (rl_dest s + Z.of_nat k)) ->
        forall i : nat,
          Z.of_nat i < count ->
          byte_at (rl_gba s') (rl_dest s + Z.of_nat i)
          = byte_at (rl_gba s) (rl_source s + Z.of_nat i)).
Proof.
  induction n as [|n IH]; intros s Hrem Hn count s'; subst count s'.
  - cbn [_unRl_copy]. rewrite Z.min_l by lia. rewrite !Z.add_0_r.
    split; [reflexivity|]. split; [reflexivity|].
    split; [lia|]. split; [reflexivity | intros; lia].
  - cbn [_unRl_copy].
    destruct (Z.eqb_spec (rl_remaining s) 0) as [Hz | Hnz].
    { rewrite Hz, Z.min_r by lia. rewrite !Z.add_0_r.
      split; [reflexivity|]. split; [reflexivity|].
      split; [lia|]. split; [reflexivity | intros; lia]. }
    unfold put_byte, loadU8. change (1 =? 2) with false. cbv iota. cbn [fst snd].
    set (byte := to_u8 (bus_loadU8 (memory (rl_gba s)) (to_u32 (rl_source s)))).
    set (s1 := mkRl (store8 (emit (EvLoad 1 Stream (to_u32 (rl_source s))) (rl_gba s))
                       (rl_dest s) byte)
                 (to_u32 (rl_source s + 1)) (to_u32 (rl_dest s + 1))
                 (rl_remaining s - 1) (rl_halfword s)).
    set (tail := Z.min (Z.of_nat n) (rl_remaining s - 1)) in *.
    assert (Hcount : Z.min (Z.of_nat (S n)) (rl_remaining s) = 1 + tail)
      by (unfold tail; lia).
    rewrite Hcount in *.
    assert (Htail : 0 <= tail < 2 ^ 32 - 1) by (unfold tail; lia).
    destruct (IH s1 ltac:(simpl; lia) ltac:(lia)) as (Hsrc & Hdest & Hrem' & Hrest & Hout).
    cbn [rl_source rl_dest rl_remaining rl_gba s1] in Hsrc, Hdest, Hrem', Hout, Hrest.
    fold tail in Hsrc, Hdest, Hrem', Hout, Hrest.
    assert (Hfirst : byte_at (store8 (emit (EvLoad 1 Stream (to_u32 (rl_source s)))
                                         (rl_gba s)) (rl_dest s) byte) (rl_dest s)
                     = byte_at (rl_gba s) (rl_source s)).
    { rewrite byte_at_store8, Z.eqb_refl. unfold byte. apply to_u8_small, to_u8_range. }
    split; [rewrite Hsrc, to_u32_add_l; apply (f_equal to_u32); lia|].
    split; [rewrite Hdest, to_u32_add_l; apply (f_equal to_u32); lia|].
    split; [lia|]. split.
    + intros a Ha. rewrite Hrest.
      * rewrite byte_at_store8.
        destruct (Z.eqb_spec (to_u32 a) (to_u32 (rl_dest s))) as [Heq | Hne]; [|reflexivity].
        exfalso. apply (Ha 0%nat); [lia|]. rewrite Heq. f_equal. simpl. lia.
      * intros i Hi. rewrite to_u32_add_l.
        replace (rl_dest s + 1 + Z.of_nat i) with (rl_dest s + Z.of_nat (S i)) by lia.
        apply Ha. lia.
    + intros Hahead.
      assert (Hahead' : forall j k : nat,
                 (k < j)%nat -> Z.of_nat j < tail ->
                 to_u32 (to_u32 (rl_source s + 1) + Z.of_nat j)
                 <> to_u32 (to_u32 (rl_dest s + 1) + Z.of_nat k)).
      { intros j k Hkj Hj. rewrite !to_u32_add_l.
        replace (rl_source s + 1 + Z.of_nat j) with (rl_source s + Z.of_nat (S j)) by lia.
        replace (rl_dest s + 1 + Z.of_nat k) with (rl_dest s + Z.of_nat (S k)) by lia.
        apply Hahead; lia. }
      specialize (Hout Hahead').
      intros [|i] Hi.
      * change (Z.of_nat 0) with 0. rewrite !Z.add_0_r, Hrest; [exact Hfirst|].
        intros i Hi'. rewrite to_u32_add_l.
        replace (rl_dest s) with (rl_dest s + 0) at 1 by lia.
        replace (rl_dest s + 1 + Z.of_nat i) with (rl_dest s + (1 + Z.of_nat i)) by lia.
        apply to_u32_apart; lia.
      * specialize (Hout i ltac:(lia)).
        assert (Hsame : byte_at (rl_gba (_unRl_copy n 1 s1)) (rl_dest s + Z.of_nat (S i))
                        = byte_at (rl_gba (_unRl_copy n 1 s1))
                            (to_u32 (rl_dest s + 1) + Z.of_nat i)).
        { unfold byte_at, loadU8. cbn [fst]. rewrite to_u32_add_l. do 3 f_equal. lia. }
        rewrite Hsame, Hout, byte_at_store8.
        rewrite to_u32_add_l.
        replace (rl_source s + 1 + Z.of_nat i) with (rl_source s + Z.of_nat (S i)) by lia.
        destruct (Z.eqb_spec (to_u32 (rl_source s + Z.of_nat (S i))) (to_u32 (rl_dest s)))
          as [Heq | Hne].
        -- exfalso. apply (Hahead (S i) 0%nat); [lia | lia |].
           rewrite Heq. f_equal. simpl. lia.
        -- unfold byte_at, loadU8. cbn [fst]. rewrite to_u32_add_l.
           replace (rl_source s + 1 + Z.of_nat i) with (rl_source s + Z.of_nat (S i)) by lia.
           reflexivity.
Qed.

End RunLengthBlocks.

Section RunLengthBlockClaim.
Context {M : Type} {bus : MemoryBus M}.

(** X15: what one block of an RLE stream leaves in memory with 8-bit
    stores, over a bus that keeps bytes as a RAM does.  The flag byte
    gives the length of the block, which is cut short when fewer bytes are
    still due.  A run (bit 7 set) takes one more byte from the stream and
    writes it to that many addresses from the destination on.  A literal
    block copies that many bytes of the stream to the destination,
    provided none of them lies where an earlier byte of the block goes.
    No other byte of memory changes. *)
Theorem rl_block_memory (s : rl_state M) :
  ByteRam bus ->
  0 < rl_remaining s ->
  let flag := byte_at (rl_gba s) (rl_source s) in
  let count := Z.min (rl_block_length flag) (rl_remaining s) in
  let s' := _unRl_body 1 s in
  let unchanged :=
    forall a,
      (forall i : nat, Z.of_nat i < count -> to_u32 a <> to_u32 (rl_dest s + Z.of_nat i)) ->
      byte_at (rl_gba s') a = byte_at (rl_gba s) a in
  1 <= count
  /\ rl_remaining s' = rl_remaining s - count
  /\ to_u32 (rl_dest s') = to_u32 (rl_dest s + count)
  /\ (Z.land flag 0x80 <> 0 ->
      to_u32 (rl_source s') = to_u32 (rl_source s + 2)
      /\ (forall i : nat,
            Z.of_nat i < count ->
            byte_at (rl_gba s') (rl_dest s + Z.of_nat i)
            = byte_at (rl_gba s) (rl_source s + 1))
      /\ unchanged)
  /\ (Z.land flag 0x80 = 0 ->
      (forall j k : nat,
          (k < j)%nat -> Z.of_nat j < count ->
          to_u32 (rl_source s + 1 + Z.of_nat j) <> to_u32 (rl_dest s + Z.of_nat k)) ->
      to_u32 (rl_source s') = to_u32 (rl_source s + 1 + count)
      /\ (forall i : nat,
            Z.of_nat i < count ->
            byte_at (rl_gba s') (rl_dest s + Z.of_nat i)
            = byte_at (rl_gba s) (rl_source s + 1 + Z.of_nat i))
      /\ unchanged).
Proof.
  intros Hram Hrem flag count s' unchanged.
  pose proof (to_u8_range (bus_loadU8 (memory (rl_gba s)) (to_u32 (rl_source s)))) as Hflag.
  change (to_u8 (bus_loadU8 (memory (rl_gba s)) (to_u32 (rl_source s)))) with flag in Hflag.
  pose proof (rl_block_length_pos flag ltac:(lia)) as Hpos.
  assert (Hlen : rl_block_length flag < 2 ^ 9).
  { unfold rl_block_length. change (2 ^ 8) with 256 in Hflag. change (2 ^ 9) with 512.
    destruct (negb _); [|lia].
    pose proof (Z.land_ones flag 7 ltac:(lia)) as Hones.
    change (Z.ones 7) with 0x7F in Hones. rewrite Hones.
    pose proof (Z.mod_pos_bound flag (2 ^ 7) ltac:(lia)). change (2 ^ 7) with 128 in *. lia. }
  assert (Hnat : Z.of_nat (Z.to_nat (rl_block_length flag)) = rl_block_length flag) by lia.
  assert (Hn : Z.of_nat (Z.to_nat (rl_block_length flag)) < 2 ^ 32).
  { rewrite Hnat. change (2 ^ 9) with 512 in Hlen. change (2 ^ 32) with 4294967296. lia. }
  subst s'. unfold unchanged, _unRl_body, loadU8. cbn [fst snd].
  change (to_u8 (bus_loadU8 (memory (rl_gba s)) (to_u32 (rl_source s)))) with flag.
  destruct (Z.eqb_spec (Z.land flag 0x80) 0) as [Hbit | Hbit]; cbn [negb].
  - (* a literal block *)
    set (s1 := mkRl (emit (EvLoad 1 Stream (to_u32 (rl_source s))) (rl_gba s))
                 (to_u32 (rl_source s + 1)) (rl_dest s) (rl_remaining s) (rl_halfword s)).
    pose proof (_unRl_copy_memory Hram (Z.to_nat (rl_block_length flag)) s1
                  ltac:(simpl; lia) Hn) as Hcopy.
    cbv zeta in Hcopy. cbn [rl_source rl_dest rl_remaining rl_gba s1] in Hcopy.
    rewrite Hnat in Hcopy. fold count in Hcopy.
    destruct Hcopy as (Hsrc & Hdest & Hrem' & Hrest & Hout).
    split; [unfold count; lia|]. split; [exact Hrem'|]. split; [exact Hdest|].
    split; [intros Hset; contradiction|].
    intros _ Hahead.
    split; [rewrite Hsrc, to_u32_add_l; reflexivity|]. split; [|exact Hrest].
    intros i Hi. rewrite Hout; [|intros j k Hkj Hj; rewrite to_u32_add_l; apply Hahead; lia
                                | exact Hi].
    unfold byte_at, loadU8. cbn [fst]. rewrite to_u32_add_l. reflexivity.
  - (* a run *)
    set (block := to_u8 (bus_loadU8
                           (memory (emit (EvLoad 1 Stream (to_u32 (rl_source s))) (rl_gba s)))
                           (to_u32 (to_u32 (rl_source s + 1))))).
    set (s1 := mkRl (emit (EvLoad 1 Stream (to_u32 (to_u32 (rl_source s + 1))))
                       (emit (EvLoad 1 Stream (to_u32 (rl_source s))) (rl_gba s)))
                 (to_u32 (to_u32 (rl_source s + 1) + 1)) (rl_dest s) (rl_remaining s)
                 (rl_halfword s)).
    pose proof (_unRl_fill_memory Hram block (Z.to_nat (rl_block_length flag)) s1
                  ltac:(simpl; lia) Hn) as Hfill.
    cbv zeta in Hfill. cbn [rl_source rl_dest rl_remaining rl_gba s1] in Hfill.
    rewrite Hnat in Hfill. fold count in Hfill.
    destruct Hfill as (Hsrc & Hdest & Hrem' & Hout & Hrest).
    split; [unfold count; lia|]. split; [exact Hrem'|]. split; [exact Hdest|].
    split; [|intros Hclear; contradiction].
    intros _.
    split; [rewrite Hsrc, to_u32_idem, to_u32_add_l; apply (f_equal to_u32); lia|].
    split; [|exact Hrest].
    intros i Hi. rewrite (Hout i Hi). unfold block, byte_at, loadU8. cbn [fst].
    rewrite to_u32_idem. apply to_u8_small, to_u8_range.
Qed.

End RunLengthBlockClaim.

(** The first block of [rl_demo], flag byte [0x82]: a run of five ['A']. *)
Lemma rl_block_memory_witness :
  ByteRam ram_bus
  /\ 0 < rl_remaining (fst (_unRl_init rl_demo))
  /\ Z.land (byte_at (rl_gba (fst (_unRl_init rl_demo)))
               (rl_source (fst (_unRl_init rl_demo)))) 0x80 <> 0
  /\ byte_at (rl_gba (_unRl_body 1 (fst (_unRl_init rl_demo))))
       (rl_dest (fst (_unRl_init rl_demo)) + Z.of_nat 4) = 0x41.
Proof.
  assert (Hrem : 0 < rl_remaining (fst (_unRl_init rl_demo))) by (vm_compute; reflexivity).
  assert (Hbit : Z.land (byte_at (rl_gba (fst (_unRl_init rl_demo)))
                           (rl_source (fst (_unRl_init rl_demo)))) 0x80 <> 0)
    by (vm_compute; discriminate).
  split; [exact ram_byte_ram|]. split; [exact Hrem|]. split; [exact Hbit|].
  destruct (rl_block_memory (fst (_unRl_init rl_demo)) ram_byte_ram Hrem)
    as (_ & _ & _ & Hrun & _).
  destruct (Hrun Hbit) as (_ & Hout & _).
  rewrite (Hout 4%nat) by (vm_compute; reflexivity).
  vm_compute. reflexivity.
Defined.

(** ** What an LZ77 chunk leaves in memory *)

Section Lz77Chunks.
Context {M : Type} {bus : MemoryBus M}.
Hypothesis ram : ByteRam bus.

(** With 8-bit stores the bytes that the copy reads are the bytes it
    leaves at the destination, and it changes nothing else. *)
Lemma _unLz77_copy_memory (n : nat) :
  forall (gba : GBA M) disp dest remaining halfword,
    0 <= remaining -> Z.of_nat n < 2 ^ 32 ->
    let count := Z.min (Z.of_nat n) remaining in
    let gba' := fst (fst (fst (_unLz77_copy n 1 gba disp dest remaining halfword))) in
    let out := _unLz77_copied n 1 gba disp dest remaining halfword in
    (forall i : nat, Z.of_nat i < count -> byte_at gba' (dest + Z.of_nat i) = nth i out 0)
    /\ (forall a,
          (forall i : nat, Z.of_nat i < count -> to_u32 a <> to_u32 (dest + Z.of_nat i)) ->
          byte_at gba' a = byte_at gba a).
Proof.
  induction n as [|n IH]; intros gba disp dest remaining halfword Hrem Hn count gba' out;
    subst count gba' out.
  - cbn [_unLz77_copy _unLz77_copied fst]. rewrite Z.min_l by lia.
    split; [intros; lia | reflexivity].
  - cbn [_unLz77_copy _unLz77_copied].
    destruct (Z.eqb_spec remaining 0) as [Hz | Hnz].
    { rewrite Hz, Z.min_r by lia. cbn [fst]. split; [intros; lia | reflexivity]. }
    unfold put_byte, loadU8. change (1 =? 2) with false. cbv iota. cbn [fst snd].
    set (byte := to_u8 (bus_loadU8 (memory gba) (to_u32 disp))).
    set (gba1 := store8 (emit (EvLoad 1 Window (to_u32 disp)) gba) dest byte).
    set (tail := Z.min (Z.of_nat n) (remaining - 1)).
    replace (Z.min (Z.of_nat (S n)) remaining) with (1 + tail) by (unfold tail; lia).
    assert (Htail : 0 <= tail < 2 ^ 32 - 1) by (unfold tail; lia).
    destruct (IH gba1 (to_u32 (disp + 1)) (to_u32 (dest + 1)) (remaining - 1) halfword
                ltac:(lia) ltac:(lia)) as (Hout & Hrest).
    fold tail in Hout, Hrest.
    destruct (_unLz77_copy n 1 gba1 (to_u32 (disp + 1)) (to_u32 (dest + 1)) (remaining - 1)
                halfword) as [[[gba' dest'] remaining'] halfword'].
    cbn [fst] in *. split.
    + intros [|i] Hi.
      * change (Z.of_nat 0) with 0. rewrite Z.add_0_r, Hrest.
        -- unfold gba1. rewrite byte_at_store8 by exact ram. rewrite Z.eqb_refl.
           cbn [nth]. unfold byte. apply to_u8_small, to_u8_range.
        -- intros i Hi'. rewrite to_u32_add_l.
           replace dest with (dest + 0) at 1 by lia.
           replace (dest + 1 + Z.of_nat i) with (dest + (1 + Z.of_nat i)) by lia.
           apply to_u32_apart; lia.
      * cbn [nth]. rewrite <- (Hout i) by lia.
        unfold byte_at, loadU8. cbn [fst]. rewrite to_u32_add_l. do 3 f_equal. lia.
    + intros a Ha. rewrite Hrest.
      * unfold gba1. rewrite byte_at_store8 by exact ram.
        destruct (Z.eqb_spec (to_u32 a) (to_u32 dest)) as [Heq | Hne]; [|reflexivity].
        exfalso. apply (Ha 0%nat); [lia|]. rewrite Heq. f_equal. simpl. lia.
      * intros i Hi. rewrite to_u32_add_l.
        replace (dest + 1 + Z.of_nat i) with (dest + Z.of_nat (S i)) by lia.
        apply Ha. lia.
Qed.

End Lz77Chunks.

Section Lz77ChunkClaim.
Context {M : Type} {bus : MemoryBus M}.

(** X16: what one chunk of an LZ77 stream leaves in memory with 8-bit
    stores, over a bus that keeps bytes as a RAM does.  A literal chunk
    puts the next byte of the stream at the destination.  A back-reference
    with displacement [d] and length [n], cut short when fewer bytes are
    still due, leaves every byte it puts out equal to the byte [d + 1]
    addresses below it, whether that byte was there before the chunk or
    is one the chunk wrote.  No byte outside the output of the chunk
    changes. *)
Theorem lz77_chunk_memory (s : lz77_state M) :
  ByteRam bus ->
  lz_blocksRemaining s <> 0 ->
  0 < lz_remaining s ->
  0 <= lz_dest s < 2 ^ 32 ->
  let s' := _unLz77_body 1 s in
  (Z.land (lz_blockheader s) 0x80 = 0 ->
   lz_source s' = to_u32 (lz_source s + 1)
   /\ lz_dest s' = to_u32 (lz_dest s + 1)
   /\ lz_remaining s' = lz_remaining s - 1
   /\ byte_at (lz_gba s') (lz_dest s) = byte_at (lz_gba s) (lz_source s)
   /\ (forall a, to_u32 a <> lz_dest s -> byte_at (lz_gba s') a = byte_at (lz_gba s) a))
  /\ (Z.land (lz_blockheader s) 0x80 <> 0 ->
      let block := Z.lor (chunk_b0 s) (Z.shiftl (chunk_b1 s) 8) in
      let period := lz77_displacement block + 1 in
      let count := Z.min (lz77_bytes block) (lz_remaining s) in
      lz_source s' = to_u32 (lz_source s + 2)
      /\ to_u32 (lz_dest s') = to_u32 (lz_dest s + count)
      /\ lz_remaining s' = lz_remaining s - count
      /\ (forall i : nat,
            Z.of_nat i < count ->
            byte_at (lz_gba s') (lz_dest s + Z.of_nat i)
            = byte_at (lz_gba s') (lz_dest s + Z.of_nat i - period))
      /\ (forall a,
            (forall i : nat,
                Z.of_nat i < count -> to_u32 a <> to_u32 (lz_dest s + Z.of_nat i)) ->
            byte_at (lz_gba s') a = byte_at (lz_gba s) a)).
Proof.
  intros Hram Hblocks Hrem Hdest s'. subst s'.
  apply Z.eqb_neq in Hblocks.
  split.
  - intros Hbit. unfold _unLz77_body. rewrite Hblocks. cbn [negb].
    apply Z.eqb_eq in Hbit. rewrite Hbit. cbn [negb].
    unfold put_byte, loadU8. change (1 =? 2) with false. cbv iota.
    cbn [fst snd lz_gba lz_source lz_dest lz_remaining].
    split; [reflexivity|]. split; [reflexivity|]. split; [reflexivity|].
    split.
    + rewrite byte_at_store8 by exact Hram. rewrite Z.eqb_refl.
      apply to_u8_small, to_u8_range.
    + intros a Ha. rewrite byte_at_store8 by exact Hram.
      rewrite (to_u32_small (lz_dest s)) by exact Hdest.
      destruct (Z.eqb_spec (to_u32 a) (lz_dest s)); [contradiction | reflexivity].
  - intros Hbit block period count. unfold _unLz77_body. rewrite Hblocks. cbn [negb].
    apply Z.eqb_neq in Hbit. rewrite Hbit. cbn [negb].
    unfold loadU8. cbn [fst snd]. simpl memory.
    pose proof (to_u8_range (bus_loadU8 (memory (lz_gba s)) (to_u32 (lz_source s))))
      as Hb0.
    pose proof (to_u8_range (bus_loadU8 (memory (lz_gba s)) (to_u32 (lz_source s + 1))))
      as Hb1.
    change (to_u8 (bus_loadU8 (memory (lz_gba s)) (to_u32 (lz_source s))))
      with (chunk_b0 s) in *.
    change (to_u8 (bus_loadU8 (memory (lz_gba s)) (to_u32 (lz_source s + 1))))
      with (chunk_b1 s) in *.
    fold block.
    destruct (lz77_fields _ _ Hb0 Hb1) as [Hdisp Hlen]. fold block in Hdisp, Hlen.
    pose proof (spec_displacement_range (chunk_b0 s) (chunk_b1 s) Hb1) as HD.
    pose proof (spec_length_range (chunk_b0 s) Hb0) as HL.
    rewrite <- Hdisp in HD. rewrite <- Hlen in HL.
    set (D := lz77_displacement block) in *. set (n := lz77_bytes block) in *.
    set (gba0 := emit (EvLoad 1 Stream (to_u32 (lz_source s + 1)))
                   (emit (EvLoad 1 Stream (to_u32 (lz_source s))) (lz_gba s))).
    set (disp := to_u32 (lz_dest s - D - 1)).
    change (2 ^ 12) with 4096 in HD.
    assert (Hnat : Z.of_nat (Z.to_nat n) = n) by lia.
    assert (Hn : Z.of_nat (Z.to_nat n) < 2 ^ 32)
      by (rewrite Hnat; change (2 ^ 32) with 4294967296; lia).
    pose proof (_unLz77_copy_memory Hram (Z.to_nat n) gba0 disp (lz_dest s)
                  (lz_remaining s) (lz_halfword s) ltac:(lia) Hn) as Hmem.
    pose proof (_unLz77_copy_counts 1 (Z.to_nat n) gba0 disp (lz_dest s)
                  (lz_remaining s) (lz_halfword s) ltac:(lia)) as Hcounts.
    pose proof (_unLz77_copied_overlap 1 D (Z.to_nat n) Hram ltac:(lia) ltac:(lia)
                  gba0 disp (lz_dest s) (lz_remaining s) (lz_halfword s)
                  ltac:(rewrite Hnat; change (2 ^ 32) with 4294967296; lia)
                  Hdest eq_refl) as Hover.
    cbv zeta in Hmem, Hcounts, Hover. rewrite Hnat in Hmem, Hcounts. fold count in Hmem, Hcounts.
    destruct (_unLz77_copy (Z.to_nat n) 1 gba0 disp (lz_dest s) (lz_remaining s)
                (lz_halfword s)) as [[[gba' dest'] remaining'] halfword'].
    cbn [fst] in Hmem. destruct Hmem as (Hout & Hrest).
    destruct Hcounts as (Hd & Hr & Hl).
    cbn [lz_gba lz_source lz_dest lz_remaining].
    split; [reflexivity|]. split; [exact Hd|]. split; [exact Hr|].
    split; [|exact Hrest].
    intros i Hi. rewrite (Hout i Hi), (Hover i ltac:(lia)).
    destruct (Z.ltb_spec (Z.of_nat i) (D + 1)) as [Hlt | Hge].
    + rewrite Hrest.
      * unfold byte_at, loadU8, disp, period. cbn [fst]. rewrite to_u32_add_l.
        do 3 f_equal. lia.
      * intros k Hk Heq. unfold to_u32, period in Heq.
        change (2 ^ 32) with 4294967296 in *. lia_mod.
    + replace (lz_dest s + Z.of_nat i - period)
        with (lz_dest s + Z.of_nat (i - Z.to_nat (D + 1))) by (unfold period; lia).
      symmetry. apply Hout. lia.
Qed.

End Lz77ChunkClaim.

(** The back-reference of [lz77_demo_overlap] with 8-bit stores: after it
    the second byte of its output is the first, the ['A'] just written. *)
Lemma lz77_chunk_memory_witness :
  ByteRam ram_bus
  /\ lz_blocksRemaining (lz77_demo_at_chunk 1) <> 0
  /\ 0 < lz_remaining (lz77_demo_at_chunk 1)
  /\ 0 <= lz_dest (lz77_demo_at_chunk 1) < 2 ^ 32
  /\ Z.land (lz_blockheader (lz77_demo_at_chunk 1)) 0x80 <> 0
  /\ byte_at (lz_gba (_unLz77_body 1 (lz77_demo_at_chunk 1)))
       (lz_dest (lz77_demo_at_chunk 1) + Z.of_nat 1) = 0x41.
Proof.
  assert (H1 : lz_blocksRemaining (lz77_demo_at_chunk 1) <> 0)
    by (vm_compute; discriminate).
  assert (H2 : 0 < lz_remaining (lz77_demo_at_chunk 1)) by (vm_compute; reflexivity).
  assert (H3 : 0 <= lz_dest (lz77_demo_at_chunk 1) < 2 ^ 32)
    by (vm_compute; split; [discriminate | reflexivity]).
  assert (H4 : Z.land (lz_blockheader (lz77_demo_at_chunk 1)) 0x80 <> 0)
    by (vm_compute; discriminate).
  split; [exact ram_byte_ram|]. split; [exact H1|]. split; [exact H2|].
  split; [exact H3|]. split; [exact H4|].
  destruct (lz77_chunk_memory (lz77_demo_at_chunk 1) ram_byte_ram H1 H2 H3)
    as (_ & Hchunk).
  destruct (Hchunk H4) as (_ & _ & _ & Hperiod & _).
  rewrite (Hperiod 1%nat) by (vm_compute; reflexivity).
  vm_compute. reflexivity.
Defined.

(** ** The width of the stores *)

Section StoreWidths.
Context {M : Type} {bus : MemoryBus M}.
Variable width : Z.

Lemma adds_stores_refl (gba : GBA M) : adds_stores width gba gba.
Proof. exists []. split; [reflexivity|]. intros w a v []. Qed.

Lemma adds_stores_trans (gba1 gba2 gba3 : GBA M) :
  adds_stores width gba1 gba2 -> adds_stores width gba2 gba3 ->
  adds_stores width gba1 gba3.
Proof.
  intros (new1 & H1 & Hs1) (new2 & H2 & Hs2). exists (new2 ++ new1).
  split; [rewrite H2, H1; apply app_assoc|].
  intros w a v Hin. apply in_app_or in Hin. destruct Hin; eauto.
Qed.

Lemma adds_stores_load (gba : GBA M) w c a :
  adds_stores width gba (emit (EvLoad w c a) gba).
Proof.
  exists [EvLoad w c a]. split; [reflexivity|].
  intros w' a' v [H | []]. discriminate H.
Qed.

Lemma adds_stores_put_byte (gba : GBA M) dest halfword byte :
  adds_stores width gba (fst (put_byte width gba dest halfword byte)).
Proof.
  unfold put_byte. destruct (Z.eqb_spec width 2) as [Hw | Hw].
  - destruct (land_1_cases dest) as [Heven | Hodd].
    + rewrite Heven. apply adds_stores_refl.
    + rewrite Hodd. cbn [Z.eqb negb fst].
      eexists [_]. split; [reflexivity|].
      intros w a v [H | []]. injection H as <- <- <-.
      unfold put_store. rewrite Hw. cbn [Z.eqb Pos.eqb].
      split; [reflexivity|]. rewrite to_u32_parity, (lxor_1_odd dest Hodd).
      rewrite land_1_mod in Hodd. lia_mod.
  - eexists [_]. split; [reflexivity|].
    intros w a v [H | []]. injection H as <- <- <-.
    unfold put_store. apply Z.eqb_neq in Hw. rewrite Hw. reflexivity.
Qed.

Lemma adds_stores_unLz77_copy (n : nat) :
  forall (gba : GBA M) disp dest remaining halfword,
    let '(gba', _, _, _) := _unLz77_copy n width gba disp dest remaining halfword in
    adds_stores width gba gba'.
Proof.
  induction n as [|n IH]; intros gba disp dest remaining halfword;
    [apply adds_stores_refl|].
  cbn [_unLz77_copy]. destruct (remaining =? 0); [apply adds_stores_refl|].
  unfold loadU8.
  pose proof (adds_stores_put_byte (emit (EvLoad 1 Window (to_u32 disp)) gba) dest
                halfword (to_u8 (bus_loadU8 (memory gba) (to_u32 disp)))) as Hput.
  destruct (put_byte width _ dest halfword _) as [gba1 halfword1]. cbn [fst] in Hput.
  specialize (IH gba1 (to_u32 (disp + 1)) (to_u32 (dest + 1)) (remaining - 1) halfword1).
  destruct (_unLz77_copy n width gba1 _ _ _ _) as [[[gba' dest'] remaining'] halfword'].
  eapply adds_stores_trans; [|exact IH]. eapply adds_stores_trans; [|exact Hput].
  apply adds_stores_load.
Qed.

Lemma adds_stores_unLz77_body (s : lz77_state M) :
  adds_stores width (lz_gba s) (lz_gba (_unLz77_body width s)).
Proof.
  unfold _unLz77_body.
  destruct (lz_blocksRemaining s =? 0); cbn [negb]; [apply adds_stores_load|].
  destruct (Z.land (lz_blockheader s) 0x80 =? 0); cbn [negb]; unfold loadU8; cbn [fst snd].
  - match goal with
    | |- context [put_byte width ?g ?d ?h ?b] =>
        pose proof (adds_stores_put_byte g d h b) as Hput;
        destruct (put_byte width g d h b) as [gba1 halfword1]
    end.
    cbn [fst lz_gba] in *. eapply adds_stores_trans; [|exact Hput]. apply adds_stores_load.
  - match goal with
    | |- context [_unLz77_copy ?n width ?g ?p ?d ?r ?h] =>
        pose proof (adds_stores_unLz77_copy n g p d r h) as Hcopy;
        destruct (_unLz77_copy n width g p d r h) as [[[gba1 dest1] remaining1] halfword1]
    end.
    cbn [lz_gba]. eapply adds_stores_trans; [|exact Hcopy].
    eapply adds_stores_trans; apply adds_stores_load.
Qed.

Lemma adds_stores_unLz77_loop (fuel : nat) :
  forall s s' : lz77_state M,
    _unLz77_loop fuel width s = Returns s' -> adds_stores width (lz_gba s) (lz_gba s').
Proof.
  induction fuel as [|fuel IH]; intros s s'; simpl;
    destruct (lz_remaining s >? 0); intros H; try discriminate;
    try (injection H as <-; apply adds_stores_refl).
  eapply adds_stores_trans; [apply adds_stores_unLz77_body|]. eapply IH. exact H.
Qed.

Lemma adds_stores_unRl_fill block (n : nat) :
  forall s : rl_state M,
    adds_stores width (rl_gba s) (rl_gba (_unRl_fill n width block s)).
Proof.
  induction n as [|n IH]; intros s; simpl; [apply adds_stores_refl|].
  destruct (rl_remaining s =? 0); [apply adds_stores_refl|].
  pose proof (adds_stores_put_byte (rl_gba s) (rl_dest s) (rl_halfword s) block) as Hput.
  destruct (put_byte width _ _ _ _) as [gba1 halfword1]. cbn [fst] in Hput.
  eapply adds_stores_trans; [exact Hput | apply IH].
Qed.

Lemma adds_stores_unRl_copy (n : nat) :
  forall s : rl_state M, adds_stores width (rl_gba s) (rl_gba (_unRl_copy n width s)).
Proof.
  induction n as [|n IH]; intros s; simpl; [apply adds_stores_refl|].
  destruct (rl_remaining s =? 0); [apply adds_stores_refl|].
  match goal with
  | |- context [put_byte width ?g ?d ?h ?b] =>
      pose proof (adds_stores_put_byte g d h b) as Hput;
      destruct (put_byte width g d h b) as [gba1 halfword1]
  end.
  cbn [fst] in Hput.
  eapply adds_stores_trans; [|apply IH]. cbn [rl_gba].
  eapply adds_stores_trans; [|exact Hput]. apply adds_stores_load.
Qed.

Lemma adds_stores_unRl_loop (fuel : nat) :
  forall s s' : rl_state M,
    _unRl_loop fuel width s = Returns s' -> adds_stores width (rl_gba s) (rl_gba s').
Proof.
  induction fuel as [|fuel IH]; intros s s'; simpl;
    destruct (rl_remaining s >? 0); intros H; try discriminate;
    try (injection H as <-; apply adds_stores_refl).
  eapply adds_stores_trans; [|eapply IH; exact H].
  unfold _unRl_body, loadU8. cbn [fst snd].
  destruct (negb _).
  - eapply adds_stores_trans; [|apply adds_stores_unRl_fill].
    eapply adds_stores_trans; apply adds_stores_load.
  - eapply adds_stores_trans; [|apply adds_stores_unRl_copy]. apply adds_stores_load.
Qed.

Lemma adds_stores_unRl_pad16 (n : nat) :
  width = 2 ->
  forall (gba : GBA M) dest padding,
    Z.land dest 1 = 0 ->
    adds_stores width gba (fst (_unRl_pad16 n gba dest padding)).
Proof.
  intros Hw. induction n as [|n IH]; intros gba dest padding Heven; simpl;
    [apply adds_stores_refl|].
  destruct (padding >? 0); [|apply adds_stores_refl].
  eapply adds_stores_trans; [|apply IH].
  - eexists [_]. split; [reflexivity|].
    intros w a v [H | []]. injection H as <- <- <-.
    unfold put_store. rewrite Hw. cbn [Z.eqb Pos.eqb].
    split; [reflexivity|]. rewrite to_u32_parity. rewrite land_1_mod in Heven. exact Heven.
  - rewrite to_u32_parity. rewrite land_1_mod in Heven. lia_mod.
Qed.

Lemma adds_stores_unRl_pad8 (n : nat) :
  width <> 2 ->
  forall (gba : GBA M) dest, adds_stores width gba (fst (_unRl_pad8 n gba dest)).
Proof.
  intros Hw. induction n as [|n IH]; intros gba dest; simpl; [apply adds_stores_refl|].
  eapply adds_stores_trans; [|apply IH].
  eexists [_]. split; [reflexivity|].
  intros w a v [H | []]. injection H as <- <- <-.
  unfold put_store. apply Z.eqb_neq in Hw. rewrite Hw. reflexivity.
Qed.

Lemma adds_stores_unRl_pad (gba : GBA M) dest padding :
  adds_stores width gba (fst (_unRl_pad width gba dest padding)).
Proof.
  unfold _unRl_pad. destruct (Z.eqb_spec width 2) as [Hw | Hw];
    [|apply adds_stores_unRl_pad8; exact Hw].
  destruct (land_1_cases dest) as [Heven | Hodd].
  - rewrite Heven. cbn [Z.eqb negb]. apply adds_stores_unRl_pad16; assumption.
  - rewrite Hodd. cbn [Z.eqb negb]. apply adds_stores_unRl_pad16; [assumption|].
    rewrite to_u32_parity. rewrite land_1_mod in Hodd. lia_mod.
Qed.

End StoreWidths.

Section StoreWidthClaim.
Context {M : Type} {bus : MemoryBus M}.

(** X17 (_unLz77, _unRl): with [width == 2] every store of a decode, the
    padding of the run-length decoder included, is a 16-bit store to an
    even address, whatever the parity of the destination in r1; with any
    other [width] every store is an 8-bit store.  Both decoders return
    with enough fuel. *)
Theorem decoders_store_width (junk : Z) (gba : GBA M) (width : Z) :
  let len_lz := declared_length (header_at gba (to_u32 (gpr gba 0%fin))) in
  let len := declared_length (header_at gba (aligned_source gba)) in
  (exists gba' new,
      (forall fuel, (Z.to_nat (2 * len_lz + 1) <= fuel)%nat ->
                    _unLz77 fuel junk gba width = Returns gba')
      /\ events gba' = new ++ events gba
      /\ stores_as width new)
  /\ (exists gba' new,
         (forall fuel, (Z.to_nat len <= fuel)%nat -> _unRl fuel gba width = Returns gba')
         /\ events gba' = new ++ events gba
         /\ stores_as width new).
Proof.
  intros len_lz len. split.
  - destruct (_unLz77_run junk gba width) as (gba' & n_in & Hrun & _).
    fold len_lz in Hrun.
    assert (Hadds : adds_stores width gba gba').
    { specialize (Hrun _ (Nat.le_refl _)). unfold _unLz77 in Hrun.
      destruct (_unLz77_loop _ width (_unLz77_init junk gba)) as [s'| |] eqn:Hloop;
        try discriminate.
      injection Hrun as <-.
      apply adds_stores_unLz77_loop in Hloop.
      change (events (_unLz77_exit s')) with (events (lz_gba s')).
      eapply adds_stores_trans; [|exact Hloop].
      unfold _unLz77_init, load32. cbn [fst snd lz_gba]. apply adds_stores_load. }
    destruct Hadds as (new & Hnew & Hstores). exists gba', new. auto.
  - destruct (_unRl_run gba width) as (gba' & n_in & Hrun & _).
    fold len in Hrun.
    assert (Hadds : adds_stores width gba gba').
    { specialize (Hrun _ (Nat.le_refl _)). unfold _unRl in Hrun.
      destruct (_unRl_init gba) as [s0 padding] eqn:Hinit.
      destruct (_unRl_loop _ width s0) as [s'| |] eqn:Hloop; try discriminate.
      injection Hrun as <-.
      apply adds_stores_unRl_loop in Hloop.
      unfold _unRl_exit.
      pose proof (adds_stores_unRl_pad width (rl_gba s') (rl_dest s') padding) as Hpad.
      destruct (_unRl_pad width (rl_gba s') (rl_dest s') padding) as [gba1 dest1].
      cbn [fst] in Hpad.
      assert (H0 : adds_stores width gba (rl_gba s0)).
      { unfold _unRl_init, load32 in Hinit. cbn [fst snd] in Hinit.
        injection Hinit as <- _. cbn [rl_gba]. apply adds_stores_load. }
      destruct H0 as (n0 & E0 & S0), Hloop as (n1 & E1 & S1), Hpad as (n2 & E2 & S2).
      exists (n2 ++ n1 ++ n0). split.
      - change (events (set_gpr 1%fin dest1 (set_gpr 0%fin (rl_source s') gba1)))
          with (events gba1).
        rewrite E2, E1, E0, !app_assoc. reflexivity.
      - intros w a v Hin. apply in_app_or in Hin. destruct Hin as [Hin | Hin]; eauto.
        apply in_app_or in Hin. destruct Hin; eauto. }
    destruct Hadds as (new & Hnew & Hstores). exists gba', new. auto.
Qed.

End StoreWidthClaim.

(** ** SWI 0x0D runs on into SWI 0x0E *)

Section ChecksumFallsThrough.
Context {M : Type} {bus : MemoryBus M} {F : Type} {fpu : FPU F} {map : MemoryMap}.

(** The first thing an entry of [_BgAffineSet] does is load a word at the
    address of the entry. *)
Lemma _BgAffineSet_loop_first (i : nat) (gba : GBA M) offset destination :
  exists new,
    events (_BgAffineSet_loop (S i) gba offset destination)
    = new ++ EvLoad 4 Block (to_u32 offset) :: events gba.
Proof.
  cbn [_BgAffineSet_loop].
  destruct (_BgAffineSet_body_events gba offset destination)
    as (a & b & c & d & rx & ry & Hbody & Hev).
  rewrite Hbody.
  destruct (_BgAffineSet_loop_footprint
              (to_s32 (offset + 20)) (to_s32 (destination + 16)) i
              (fst (fst (_BgAffineSet_body gba offset destination)))
              (to_s32 (offset + 20)) (to_s32 (destination + 16)) 0 ltac:(lia))
    as (new' & Hnew' & _).
  { intros k. reflexivity. }
  { intros k. reflexivity. }
  rewrite Hnew', Hev, Z.add_0_r.
  exists (new' ++ [EvStore 4 (to_u32 (destination + 12)) ry;
                   EvStore 4 (to_u32 (destination + 8)) rx;
                   EvStore 2 (to_u32 (destination + 6)) d;
                   EvStore 2 (to_u32 (destination + 4)) c;
                   EvStore 2 (to_u32 (destination + 2)) b;
                   EvStore 2 (to_u32 destination) a;
                   EvLoad 2 Block (to_u32 (offset + 16));
                   EvLoad 2 Block (to_u32 (offset + 14));
                   EvLoad 2 Block (to_u32 (offset + 12));
                   EvLoad 2 Block (to_u32 (offset + 10));
                   EvLoad 2 Block (to_u32 (offset + 8));
                   EvLoad 4 Block (to_u32 (offset + 4))]).
  rewrite <- app_assoc. rewrite ?Z.add_0_r. reflexivity.
Qed.

(** C8: with the full-BIOS flag clear and a BIOS image of [SIZE_BIOS]
    bytes, SWI 0x0D computes the word-sum checksum of the image, puts it in
    r0 and goes on into the code of SWI 0x0E, which performs
    [_BgAffineSet] with the registers as they now are: r0, the checksum,
    is the address of its input, r1 the address of its output and r2 the
    count [n].  The call loads 18 bytes from each of the [n] 20-byte
    entries at the checksum address, the first of them the word at the
    checksum address itself, and stores 16 bytes for each at r1; on
    return r0 still holds the checksum and the other registers are as they
    were. *)
Theorem checksum_falls_through (fuel : nat) (junk : Z) (gba : GBA M) :
  fullBios gba = false ->
  SIZE_BIOS <= 4 * Z.of_nat (length (bios gba)) ->
  let sum := word_sum (firstn (Z.to_nat ((SIZE_BIOS + 3) / 4)) (bios gba)) in
  let n := to_u32 (gpr gba 2%fin) in
  let logged :=
    GBALog gba GBA_LOG_SWI "SWI: %02X r0: %08X r1: %08X r2: %08X r3: %08X" in
  GBAChecksum (bios gba) SIZE_BIOS = Returns sum
  /\ GBASwi16 fuel junk gba 0xD = GBASwi16 fuel junk (set_gpr 0%fin sum gba) 0xE
  /\ exists gba' new,
      GBASwi16 fuel junk gba 0xD = Returns gba'
      /\ gba' = _BgAffineSet_loop (Z.to_nat n)
                  (set_gpr 0%fin sum logged) (to_s32 sum) (gpr gba 1%fin)
      /\ gpr gba' 0%fin = to_s32 sum
      /\ (forall r : fin 16, r <> 0%fin -> gpr gba' r = gpr gba r)
      /\ events gba' = new ++ events logged
      /\ loaded Block new = 18 * n
      /\ loads_within Block sum 0 (20 * n) new
      /\ (0 < n -> In (EvLoad 4 Block sum) new)
      /\ stored new = 16 * n
      /\ stores_within (gpr gba 1%fin) 0 (16 * n) new.
Proof.
  intros Hfull Hsize sum n logged.
  pose proof (GBAChecksum_sum (bios gba) SIZE_BIOS Hsize) as Hsum.
  fold sum in Hsum.
  pose proof (to_u32_range (gpr gba 2%fin)) as Hn. fold n in Hn.
  assert (Hsum_range : to_u32 sum = sum) by (apply to_u32_idem).
  split; [exact Hsum|].
  assert (Hrun : GBASwi16 fuel junk gba 0xD
                 = Returns (_BgAffineSet (set_gpr 0%fin sum logged))).
  { unfold GBASwi16. simpl fullBios. rewrite Hfull.
    unfold case_0xD. simpl bios. rewrite Hsum. reflexivity. }
  split.
  { rewrite Hrun. unfold GBASwi16. simpl fullBios. rewrite Hfull. reflexivity. }
  assert (Hloop : _BgAffineSet (set_gpr 0%fin sum logged)
                  = _BgAffineSet_loop (Z.to_nat n)
                      (set_gpr 0%fin sum logged) (to_s32 sum) (gpr gba 1%fin)).
  { unfold _BgAffineSet.
    rewrite gpr_set_gpr, !gpr_set_gpr_ne by discriminate. reflexivity. }
  destruct (_BgAffineSet_loop_footprint sum (gpr gba 1%fin) (Z.to_nat n)
              (set_gpr 0%fin sum logged) (to_s32 sum) (gpr gba 1%fin) 0 ltac:(lia))
    as (new & Hnew & Hloaded & Hstored & Hlw & Hsw).
  { intros c. rewrite to_u32_to_s32_add. f_equal; lia. }
  { intros c. f_equal; lia. }
  rewrite Z2Nat.id in * by lia.
  exists (_BgAffineSet (set_gpr 0%fin sum logged)), new.
  split; [exact Hrun|]. split; [exact Hloop|]. rewrite Hloop.
  assert (Hgprs : gprs (_BgAffineSet_loop (Z.to_nat n) (set_gpr 0%fin sum logged)
                          (to_s32 sum) (gpr gba 1%fin))
                  = gprs (set_gpr 0%fin sum logged))
    by apply _BgAffineSet_loop_gprs.
  split; [unfold gpr at 1; rewrite Hgprs; apply gpr_set_gpr|].
  split; [intros r Hr; unfold gpr at 1; rewrite Hgprs;
          apply (gpr_set_gpr_ne logged); congruence|].
  split; [exact Hnew|]. split; [exact Hloaded|]. split; [exact Hlw|].
  split; [|split; [exact Hstored | exact Hsw]].
  intros Hpos. destruct (Z.to_nat n) as [|i] eqn:Hi; [lia|].
  destruct (_BgAffineSet_loop_first i (set_gpr 0%fin sum logged) (to_s32 sum)
              (gpr gba 1%fin)) as (new1 & Hnew1).
  rewrite Hnew1 in Hnew. rewrite to_u32_to_s32, Hsum_range in Hnew.
  change (new1 ++ EvLoad 4 Block sum :: events (set_gpr 0%fin sum logged))
    with (new1 ++ [EvLoad 4 Block sum] ++ events (set_gpr 0%fin sum logged)) in Hnew.
  rewrite app_assoc in Hnew. apply app_inv_tail in Hnew. subst new.
  apply in_or_app. right. left. reflexivity.
Qed.

End ChecksumFallsThrough.

(** SWI 0x0D on [checksum_demo]: r0 comes back as the checksum
    [0x02000000], and the one entry of the fall-through [_BgAffineSet] was
    read from that address and its result stored at [0x03000000]. *)
Lemma checksum_falls_through_witness :
  fullBios checksum_demo = false
  /\ SIZE_BIOS <= 4 * Z.of_nat (length (bios checksum_demo))
  /\ exists gba' new,
      GBASwi16 (F := Rdefinitions.R) 0 0 checksum_demo 0xD = Returns gba'
      /\ gpr gba' 0%fin = 0x02000000
      /\ events gba' = new ++ events (swi_logged checksum_demo)
      /\ loaded Block new = 18
      /\ loads_within Block 0x02000000 0 20 new
      /\ In (EvLoad 4 Block 0x02000000) new
      /\ stored new = 16
      /\ stores_within 0x03000000 0 16 new.
Proof.
  assert (Hsize : SIZE_BIOS <= 4 * Z.of_nat (length (bios checksum_demo))).
  { vm_compute. discriminate. }
  split; [reflexivity|]. split; [exact Hsize|].
  destruct (checksum_falls_through (F := Rdefinitions.R) 0 0 checksum_demo eq_refl Hsize)
    as (_ & _ & gba' & new & Hrun & _ & Hr0 & _ & Hnew & Hloaded & Hlw & Hfirst
        & Hstored & Hsw).
  assert (Hsum : word_sum (firstn (Z.to_nat ((SIZE_BIOS + 3) / 4)) (bios checksum_demo))
                 = 0x02000000) by (vm_compute; reflexivity).
  assert (Hn : to_u32 (gpr checksum_demo 2%fin) = 1) by (vm_compute; reflexivity).
  assert (Hdest : gpr checksum_demo 1%fin = 0x03000000) by (vm_compute; reflexivity).
  rewrite Hsum in *. rewrite Hn in *. rewrite Hdest in *.
  exists gba', new. split; [exact Hrun|]. split; [exact Hr0|]. split; [exact Hnew|].
  split; [exact Hloaded|]. split; [exact Hlw|]. split; [apply Hfirst; lia|].
  split; [exact Hstored | exact Hsw].
Defined.

(** ** Where a Huffman decode leaves r1 *)

Section HuffmanCursor.
Context {M : Type} {bus : MemoryBus M}.

(** When the declared length is not a multiple of 4, the last thing a
    returning [_unHuffman] does is store a word at the address that it
    then writes to r1. *)
Lemma _unHuffman_ends_in_store (fuel : nat) (gba gba' : GBA M) :
  let header := header_at gba (aligned_source gba) in
  symbol_width header <> 0 ->
  Z.rem 32 (symbol_width header) = 0 ->
  declared_length header mod 4 <> 0 ->
  _unHuffman fuel gba = Returns gba' ->
  exists value evs, events gba' = EvStore 4 (to_u32 (gpr gba' 1%fin)) value :: evs.
Proof.
  intros header Hw Hrem Hmod Hrun.
  pose proof (declared_length_range _ (header_at_range gba (aligned_source gba))) as Hlen.
  fold header in Hlen.
  assert (Hpad : negb (Z.land (4 - declared_length header) 3 =? 0) = true).
  { rewrite land_3. apply negb_true_iff, Z.eqb_neq. lia_mod. }
  unfold header, symbol_width, header_at, load32 in Hw, Hrem. cbn [fst] in Hw, Hrem.
  apply Z.eqb_neq in Hw. apply Z.eqb_eq in Hrem.
  unfold _unHuffman, load32, loadU8, load8 in Hrun. cbn [fst snd] in Hrun.
  fold (aligned_source gba) in Hrun. rewrite Hw, Hrem in Hrun. cbn [negb] in Hrun.
  match type of Hrun with
  | context [_unHuffman_loop fuel ?b ?t ?s0] =>
      destruct (_unHuffman_loop fuel b t s0) as [s| |]; try discriminate
  end.
  unfold header, declared_length, header_at, load32 in Hpad. cbn [fst] in Hpad.
  rewrite Hpad in Hrun. injection Hrun as <-.
  eexists _, _. simpl events. rewrite gpr_set_gpr, to_u32_to_s32. reflexivity.
Qed.

(** C7: where [_unHuffman] leaves r1, for a call that passes the width
    check and returns.  When the declared length is a multiple of 4, r1 is
    the destination advanced past every store of the call.  When it is
    not, the call ends with a 32-bit store at [dest] that no [dest += 4]
    follows (the store inside the loop has one): the last event is a store
    at the very address that r1 holds on return, [4 * (len / 4)] bytes
    from the destination, so r1 is not past the output of the call. *)
Theorem Huffman_cursor_at_flush (fuel : nat) (gba gba' : GBA M) :
  let dest0 := to_u32 (gpr gba 1%fin) in
  let header := header_at gba (aligned_source gba) in
  let len := declared_length header in
  symbol_width header <> 0 ->
  Z.rem 32 (symbol_width header) = 0 ->
  _unHuffman fuel gba = Returns gba' ->
  to_u32 (gpr gba' 1%fin) = to_u32 (dest0 + 4 * (len / 4))
  /\ (len mod 4 = 0 -> output_past gba gba' dest0)
  /\ (len mod 4 <> 0 ->
      (exists value evs,
          events gba' = EvStore 4 (to_u32 (gpr gba' 1%fin)) value :: evs)
      /\ ~ output_past gba gba' dest0).
Proof.
  intros dest0 header len Hw Hrem Hrun.
  pose proof (declared_length_range _ (header_at_range gba (aligned_source gba))) as Hlen.
  fold header in Hlen. fold len in Hlen.
  destruct (_unHuffman_run fuel gba gba' Hw Hrem Hrun) as (n_in & _ & Hdec).
  fold header in Hdec. fold len in Hdec. fold dest0 in Hdec.
  destruct Hdec as ((new & Hnew & _ & _ & Hstored & Hsw) & _ & Hr1).
  split; [exact Hr1|]. split.
  - intros Hmod. exists new, (4 * (len / 4)).
    split; [exact Hnew|]. split; [change (2 ^ 32) with 4294967296; lia_mod|].
    split; [exact Hr1|].
    unfold huffman_stored in Hsw.
    replace (4 * ((len + 3) / 4)) with (4 * (len / 4)) in Hsw by lia_mod.
    exact Hsw.
  - intros Hmod.
    destruct (_unHuffman_ends_in_store fuel gba gba' Hw Hrem Hmod Hrun)
      as (value & evs & Hlast).
    split; [exists value, evs; exact Hlast|].
    intros (new' & n_out & Hnew' & Hrange & Hr1' & Hsw').
    rewrite Hnew in Hnew'. apply app_inv_tail in Hnew'. subst new'.
    destruct new as [|e new0].
    { unfold huffman_stored in Hstored. simpl in Hstored. lia_mod. }
    rewrite Hlast in Hnew. simpl in Hnew. injection Hnew as <- _.
    destruct (Hsw' _ _ _ (in_eq _ _)) as (k & Hk1 & Hk2 & Hk3).
    rewrite Hr1 in Hr1', Hk3. unfold to_u32 in Hr1', Hk3.
    change (2 ^ 32) with 4294967296 in *. change (2 ^ 24) with 16777216 in *.
    lia_mod.
Qed.

End HuffmanCursor.

(** [huffman_demo_odd] declares five bytes: the word decoded in the loop
    goes to [0x03000000], the word stored after the loop to [0x03000004],
    and r1 comes back as [0x03000004]. *)
Lemma Huffman_cursor_at_flush_witness :
  symbol_width (header_at huffman_demo_odd (aligned_source huffman_demo_odd)) <> 0
  /\ Z.rem 32 (symbol_width
                 (header_at huffman_demo_odd (aligned_source huffman_demo_odd))) = 0
  /\ declared_length (header_at huffman_demo_odd (aligned_source huffman_demo_odd))
     mod 4 <> 0
  /\ exists gba' evs,
      _unHuffman 5 huffman_demo_odd = Returns gba'
      /\ gpr gba' 1%fin = 0x03000004
      /\ events gba'
         = EvStore 4 0x03000004 0 :: EvStore 4 0x03000000 0x42414241 :: evs
      /\ ~ output_past huffman_demo_odd gba' (to_u32 (gpr huffman_demo_odd 1%fin)).
Proof.
  assert (Hw : symbol_width
                 (header_at huffman_demo_odd (aligned_source huffman_demo_odd)) <> 0)
    by (vm_compute; discriminate).
  assert (Hrem : Z.rem 32 (symbol_width
                   (header_at huffman_demo_odd (aligned_source huffman_demo_odd))) = 0)
    by (vm_compute; reflexivity).
  assert (Hmod : declared_length
                   (header_at huffman_demo_odd (aligned_source huffman_demo_odd))
                 mod 4 <> 0) by (vm_compute; discriminate).
  split; [exact Hw|]. split; [exact Hrem|]. split; [exact Hmod|].
  assert (Hret : on_return (fun gba => (gpr gba 1%fin, firstn 2 (events gba)))
                   (_unHuffman 5 huffman_demo_odd)
                 = Some (0x03000004,
                         [EvStore 4 0x03000004 0; EvStore 4 0x03000000 0x42414241]))
    by (vm_compute; reflexivity).
  destruct (on_return_Returns _ _ _ Hret) as (gba' & Hrun & Hres).
  injection Hres as Hr1 Hfirst.
  destruct (Huffman_cursor_at_flush 5 huffman_demo_odd gba' Hw Hrem Hrun)
    as (_ & _ & Hflush).
  destruct (Hflush Hmod) as (_ & Hnot).
  exists gba', (skipn 2 (events gba')).
  split; [exact Hrun|]. split; [exact Hr1|]. split; [|exact Hnot].
  rewrite <- (firstn_skipn 2 (events gba')) at 1. rewrite Hfirst. reflexivity.
Defined.
